(** * SciRag: the vector indexing and retrieval engine

    A shallow embedding of [src/rag/indexer.py], [src/rag/vector_store.py],
    [src/rag/retrieval.py] and the query handler of [src/app/main.py]: the
    character-window chunkers, the SQLite-backed chunk store, the
    resumable batch indexer, the cosine-similarity search and the query
    pipeline built on it. *)

From Stdlib Require Import String Ascii.
From Stdlib Require Import List ZArith NArith Lia Bool Arith.
From Stdlib Require Import Permutation Sorted.
From Stdlib Require Import Floats.SpecFloat.
Import ListNotations.

Local Open Scope Z_scope.

(** ** Python strings and slices *)

Module Py.

(** A Python [str] is a sequence of Unicode code points. *)
Definition char := N.
Definition str := list char.

(** A literal, for the examples. *)
Fixpoint of_string (s : string) : str :=
  match s with
  | EmptyString => []
  | String a r => N_of_ascii a :: of_string r
  end.

(** [len(x)] is a Python integer. *)
Definition len {A} (l : list A) : Z := Z.of_nat (length l).

(** The code points [str.strip()] removes when called without argument:
    those for which [str.isspace] holds. *)
Definition isspace (c : char) : bool :=
  ((9 <=? c) && (c <=? 13) || (28 <=? c) && (c <=? 32) ||
   (c =? 133) || (c =? 160) || (c =? 5760) ||
   (8192 <=? c) && (c <=? 8202) ||
   (c =? 8232) || (c =? 8233) || (c =? 8239) || (c =? 8287) ||
   (c =? 12288))%N.

Fixpoint lstrip (s : str) : str :=
  match s with
  | [] => []
  | c :: r => if isspace c then lstrip r else s
  end.

Definition rstrip (s : str) : str := rev (lstrip (rev s)).

Definition strip (s : str) : str := rstrip (lstrip s).

(** Truthiness of a sequence: [if x:] holds when [x] is not empty. *)
Definition truthy {A} (l : list A) : bool :=
  match l with [] => false | _ :: _ => true end.

(** A slice bound is brought into [0..len]: a negative bound counts from
    the end, and a bound outside the sequence is clipped. *)
Definition adjust (n k : Z) : Z :=
  if k <? 0 then Z.max 0 (k + n) else Z.min k n.

(** [l[i:j]] *)
Definition slice {A} (l : list A) (i j : Z) : list A :=
  let i' := adjust (len l) i in
  let j' := adjust (len l) j in
  firstn (Z.to_nat (j' - i')) (skipn (Z.to_nat i') l).

(** [l[:j]] *)
Definition slice_to {A} (l : list A) (j : Z) : list A := slice l 0 j.

(** [enumerate(l)], counting from [start]. *)
Fixpoint enumerate_from {A} (start : nat) (l : list A) : list (nat * A) :=
  match l with
  | [] => []
  | x :: r => (start, x) :: enumerate_from (S start) r
  end.

Definition enumerate {A} (l : list A) : list (nat * A) := enumerate_from 0 l.

(** [range(start, stop, step)] for a positive step and natural bounds. *)
Fixpoint range_fuel (fuel start stop step : nat) : list nat :=
  match fuel with
  | O => []
  | S fuel' =>
      if (start <? stop)%nat
      then start :: range_fuel fuel' (start + step) stop step
      else []
  end.

Definition range (start stop step : nat) : list nat :=
  range_fuel (stop - start) start stop step.

(** [a == b] on strings. *)
Fixpoint eqb (a b : str) : bool :=
  match a, b with
  | [], [] => true
  | x :: a', y :: b' => N.eqb x y && eqb a' b'
  | _, _ => false
  end.

(** [sep.join(parts)] *)
Fixpoint join (sep : str) (parts : list str) : str :=
  match parts with
  | [] => []
  | [p] => p
  | p :: r => p ++ sep ++ join sep r
  end.

(** [os.path.basename(p)] on a POSIX path: what follows the last slash. *)
Fixpoint until_slash (s : str) : str :=
  match s with
  | [] => []
  | c :: r => if N.eqb c 47 then [] else c :: until_slash r
  end.

Definition basename (p : str) : str := rev (until_slash (rev p)).

End Py.

(** ** The chunker of [indexer.py] *)

Module Chunker.

Import Py.

(** The accumulators [chunks] and [page_idxs] of [chunk_text_per_page]. *)
Definition acc := (list str * list Z)%type.

(** One pass of the body of [while i < len(text)]. *)
Definition window (text : str) (chunk_size i : Z) : str :=
  strip (slice text i (i + chunk_size)).

Definition emit (a : acc) (chunk : str) (pidx : Z) : acc :=
  if truthy chunk then (fst a ++ [chunk], snd a ++ [pidx]) else a.

(** The [while] loop over one page, with a bound on its iterations;
    [None] when the bound is exhausted before the loop condition fails. *)
Fixpoint page_loop (fuel : nat) (text : str) (chunk_size step pidx i : Z)
    (a : acc) : option acc :=
  if i <? len text then
    match fuel with
    | O => None
    | S fuel' =>
        page_loop fuel' text chunk_size step pidx (i + step)
                  (emit a (window text chunk_size i) pidx)
    end
  else Some a.

(** The [for pidx, text in enumerate(page_texts)] loop. *)
Fixpoint pages_loop (pages : list (nat * str)) (chunk_size step : Z)
    (a : acc) : option acc :=
  match pages with
  | [] => Some a
  | (pidx, text) :: rest =>
      if negb (truthy text) then pages_loop rest chunk_size step a
      else
        match page_loop (length text) text chunk_size step (Z.of_nat pidx) 0 a with
        | None => None
        | Some a' => pages_loop rest chunk_size step a'
        end
  end.

Definition chunk_text_per_page (page_texts : list str) (max_tokens overlap : Z)
    : option acc :=
  let chunk_size := max_tokens * 4 in
  let step := Z.max 1 (chunk_size - overlap * 4) in
  pages_loop (enumerate page_texts) chunk_size step ([], []).

(** The window positions [0, step, 2*step, ...] below [len(text)]. *)
Definition positions (n : nat) (step : Z) : list Z :=
  map (fun k => Z.of_nat k * step)
      (seq 0 (Z.to_nat ((Z.of_nat n + step - 1) / step))).

(** The chunks one page contributes: its trimmed windows, the empty ones
    dropped, each tagged with the page index. *)
Definition page_chunks (chunk_size step : Z) (p : nat * str) : list (str * Z) :=
  map (fun c => (c, Z.of_nat (fst p)))
      (filter truthy
         (map (window (snd p) chunk_size) (positions (length (snd p)) step))).

Definition all_chunks (page_texts : list str) (max_tokens overlap : Z)
    : list (str * Z) :=
  let chunk_size := max_tokens * 4 in
  let step := Z.max 1 (chunk_size - overlap * 4) in
  flat_map (page_chunks chunk_size step) (enumerate page_texts).

(** [chunk_text]: the chunker over one text.  Its loop appends every
    trimmed window; the empty ones are filtered out at the end. *)
Fixpoint text_loop (fuel : nat) (text : str) (chunk_size step i : Z)
    (chunks : list str) : option (list str) :=
  if i <? len text then
    match fuel with
    | O => None
    | S fuel' =>
        let chunk := slice text i (i + chunk_size) in
        text_loop fuel' text chunk_size step (i + step) (chunks ++ [strip chunk])
    end
  else Some chunks.

Definition chunk_text (text : str) (max_tokens overlap : Z) : option (list str) :=
  if negb (truthy text) then Some []
  else
    let chunk_size := max_tokens * 4 in
    let step := Z.max 1 (chunk_size - overlap * 4) in
    match text_loop (length text) text chunk_size step 0 [] with
    | None => None
    | Some chunks => Some (filter truthy chunks)
    end.

End Chunker.

(** ** Floating-point numbers

    A Python [float] is an IEEE 754 binary64 number and a NumPy [float32]
    a binary32 number; both are values of [spec_float], with the
    operations of the standard library's specification of IEEE
    arithmetic at the matching precision (round to nearest, ties to even). *)

Module F64.

Definition prec : Z := 53.
Definition emax : Z := 1024.

Definition t := spec_float.

Definition of_Z (n : Z) : t := binary_normalize prec emax n 0 false.
Definition div : t -> t -> t := SFdiv prec emax.

(** The literal [1e-12]: the binary64 number nearest to 10^-12. *)
Definition lit_1e_12 : t := div (of_Z 1) (of_Z (10 ^ 12)).

End F64.

Module F32.

Definition prec : Z := 24.
Definition emax : Z := 128.

Definition t := spec_float.

Definition zero : t := S754_zero false.
Definition nan : t := S754_nan.

Definition add : t -> t -> t := SFadd prec emax.
Definition mul : t -> t -> t := SFmul prec emax.
Definition div : t -> t -> t := SFdiv prec emax.
Definition sqrt : t -> t := SFsqrt prec emax.
Definition neg : t -> t := SFopp.

(** [np.float32(x)] for a Python float [x]: rounding to binary32. *)
Definition of_f64 (x : F64.t) : t :=
  match x with
  | S754_finite s m e => binary_round prec emax s m e
  | _ => x
  end.

(** [np.array(xs, dtype=np.float32)] for a flat list of Python floats. *)
Definition array (xs : list F64.t) : list t := map of_f64 xs.

Definition is_nan (x : t) : bool :=
  match x with S754_nan => true | _ => false end.

(** [a < b], [a >= b] and [a == b] on floats: false as soon as one side
    is NaN. *)
Definition ltb (a b : t) : bool := SFltb a b.
Definition geb (a b : t) : bool := SFleb b a.
Definition eqb (a b : t) : bool := SFeqb a b.

(** The order NumPy sorts floats by: [a < b], or [b] is NaN and [a] is
    not, so that NaN goes to the end. *)
Definition npy_lt (a b : t) : bool :=
  ltb a b || (is_nan b && negb (is_nan a)).

(** Two scores in descending order: [a >= b], NaN allowed at the end. *)
Definition descending (a b : t) : bool := is_nan b || geb a b.

(** The place of a number in the order of the floats, as a triple of
    integers compared lexicographically: class (infinities, sign, NaN
    last), then exponent, then mantissa. *)
Definition key (x : t) : Z * Z * Z :=
  match x with
  | S754_nan => (3, 0, 0)
  | S754_infinity false => (2, 0, 0)
  | S754_infinity true => (-2, 0, 0)
  | S754_zero _ => (0, 0, 0)
  | S754_finite false m e => (1, e, Zpos m)
  | S754_finite true m e => (-1, - e, Zneg m)
  end.

Definition cmp3 (a b : Z * Z * Z) : comparison :=
  match fst (fst a) ?= fst (fst b) with
  | Eq => match snd (fst a) ?= snd (fst b) with
          | Eq => snd a ?= snd b
          | c => c
          end
  | c => c
  end.

Definition lex_lt (a b : Z * Z * Z) : Prop :=
  fst (fst a) < fst (fst b) \/
  (fst (fst a) = fst (fst b) /\
   (snd (fst a) < snd (fst b) \/
    (snd (fst a) = snd (fst b) /\ snd a < snd b))).

(** A zero or a finite number: neither an infinity nor NaN. *)
Definition is_finite (x : t) : bool :=
  match x with
  | S754_zero _ | S754_finite _ _ _ => true
  | _ => false
  end.

Definition is_zero (x : t) : bool :=
  match x with S754_zero _ => true | _ => false end.

(** The integer a float is in absolute value, when it is one. *)
Definition magnitude (x : t) : option Z :=
  match x with
  | S754_zero _ => Some 0
  | S754_finite _ m e =>
      if 0 <=? e then Some (Zpos m * 2 ^ e)
      else if Zpos m mod 2 ^ (- e) =? 0 then Some (Zpos m / 2 ^ (- e))
      else None
  | _ => None
  end.

(** The same number, the sign of a zero apart. *)
Definition same (x y : t) : Prop :=
  x = y \/ (is_zero x = true /\ is_zero y = true).

(** The sum of the products accumulated from [0.0] from left to right,
    every product and every sum rounded to binary32: one of the orders in
    which a kernel may compute a dot product. *)
Fixpoint dot_from (acc : t) (a b : list t) : t :=
  match a, b with
  | x :: a', y :: b' => dot_from (add acc (mul x y)) a' b'
  | _, _ => acc
  end.

Definition dot (a b : list t) : t := dot_from zero a b.

(** The square root of the sum of squares, accumulated the same way. *)
Definition norm (a : list t) : t := sqrt (dot a a).

End F32.

(** ** NumPy's reductions

    [matrix @ query] and [np.linalg.norm] run in compiled kernels (BLAS,
    vectorised loops).  Which products are fused with the addition that
    follows and in which order the sum is accumulated is the kernel's
    choice and changes with the build and the machine, and with them the
    last bits of the result.  The three reductions of [search] are
    therefore parameters: what the code fixes is how their results are
    combined. *)

Module Numpy.

Record kernels := {
  (** [(matrix @ query)[i]] *)
  matmul : list (list F32.t) -> list F32.t -> nat -> F32.t;
  (** [np.linalg.norm(matrix, axis=1)[i]] *)
  norm_rows : list (list F32.t) -> nat -> F32.t;
  (** [np.linalg.norm(query)] *)
  norm : list F32.t -> F32.t
}.

(** The sum of [|a_i * b_i|] for two vectors of integers. *)
Fixpoint weight (a b : list F32.t) : option Z :=
  match a, b with
  | x :: a', y :: b' =>
      match F32.magnitude x, F32.magnitude y, weight a' b' with
      | Some n, Some m, Some w => Some (n * m + w)
      | _, _, _ => None
      end
  | _, _ => Some 0
  end.

(** Integer vectors whose products add up to less than [2^24] in absolute
    value: every product and every partial sum, in any order, is an
    integer that binary32 holds exactly. *)
Definition small_integers (a b : list F32.t) : bool :=
  match weight a b with
  | Some w => w <? 2 ^ 24
  | None => false
  end.

(** A vector of zeros against a vector of finite numbers: every product
    and every partial sum is a zero. *)
Definition zero_against (a b : list F32.t) : bool :=
  forallb F32.is_zero a && forallb F32.is_finite b.

(** Data on which no rounding takes place, whatever the order of the
    accumulation and whether or not products are fused. *)
Definition order_free (a b : list F32.t) : bool :=
  small_integers a b || zero_against a b || zero_against b a.

(** What every kernel does: where no rounding takes place it returns the
    exact sum, which is also what the accumulation from left to right
    returns (the sign of a zero sum apart), and the norm is the correctly
    rounded square root of the exact sum of squares. *)
Definition exact (np : kernels) : Prop :=
  (forall mat query i r,
      nth_error mat i = Some r -> length r = length query ->
      order_free r query = true ->
      F32.same (matmul np mat query i) (F32.dot r query)) /\
  (forall mat i r,
      nth_error mat i = Some r -> order_free r r = true ->
      norm_rows np mat i = F32.norm r) /\
  (forall query,
      order_free query query = true -> norm np query = F32.norm query).

(** The kernels that accumulate from left to right without fusing. *)
Definition sequential : kernels :=
  {| matmul := fun mat query i => F32.dot (nth i mat []) query;
     norm_rows := fun mat i => F32.norm (nth i mat []);
     norm := F32.norm |}.

End Numpy.

(** ** Exceptions *)

Inductive exn :=
| AssertionError
| ValueError
| IndexError
| ProviderError.

Inductive result (A : Type) :=
| Ok (a : A)
| Raise (e : exn).

Arguments Ok {A} a.
Arguments Raise {A} e.

(** ** The chunk store of [vector_store.py] *)

Module VectorStore.

Import Py.

(** The metadata dictionaries the indexer builds; the store passes them
    through [json.dumps] and [json.loads] unchanged. *)
Record metadata := {
  source_path : str;
  chunk_index : Z;
  source_name : str;
  page : Z
}.

(** A row of the table [documents]. *)
Record row := {
  id : Z;
  doc_id : str;
  chunk_id : Z;
  text : str;
  meta : metadata;
  embedding : list F64.t
}.

(** The table, in insertion order (the order of its row ids). *)
Definition store := list row.

(** The largest row id in use; [AUTOINCREMENT] hands out the next one. *)
Definition last_id (s : store) : Z := fold_right Z.max 0 (map id s).

(** The tuples [(doc_id, i, text, meta, emb)] built by the loop over
    [enumerate(zip(chunks, metadatas, embeddings))]. *)
Definition new_rows (doc : str) (chunks : list str) (metadatas : list metadata)
    (embeddings : list (list F64.t)) : list (str * Z * str * metadata * list F64.t) :=
  map (fun '(i, (t, (m, e))) => (doc, Z.of_nat i, t, m, e))
      (enumerate (combine chunks (combine metadatas embeddings))).

(** [executemany] of the [INSERT]: the rows are appended in order, each
    with a fresh id. *)
Fixpoint insert_all (s : store) (rows : list (str * Z * str * metadata * list F64.t))
    : store :=
  match rows with
  | [] => s
  | (d, c, t, m, e) :: rest =>
      insert_all (s ++ [{| id := last_id s + 1; doc_id := d; chunk_id := c;
                            text := t; meta := m; embedding := e |}]) rest
  end.

(** The columns of a row that [add_many] supplies. *)
Definition row_data (r : row) : str * Z * str * metadata * list F64.t :=
  (doc_id r, chunk_id r, text r, meta r, embedding r).

(** [add_many]: the store after the call, and whether the call raised. *)
Definition add_many (s : store) (doc : str) (chunks : list str)
    (metadatas : list metadata) (embeddings : list (list F64.t))
    : store * result unit :=
  if (length chunks =? length metadatas)%nat
     && (length metadatas =? length embeddings)%nat
  then (insert_all s (new_rows doc chunks metadatas embeddings), Ok tt)
  else (s, Raise AssertionError).

(** [all]: every row, in table order. *)
Definition all (s : store) : list row := s.

(** A search hit: the dictionary [{id, doc_id, chunk_id, text, meta, score}].
    The score is the binary32 similarity; [float(...)] widens it to a
    Python float without changing the number. *)
Record hit := {
  h_id : Z;
  h_doc_id : str;
  h_chunk_id : Z;
  h_text : str;
  h_meta : metadata;
  h_score : F32.t
}.

(** [np.array([r[5] for r in rows], dtype=np.float32)] *)
Definition matrix (rows : list row) : list (list F32.t) :=
  map (fun r => F32.array (embedding r)) rows.

(** [sims[i]]: entry [i] of [matrix @ query / denom], where [denom] is
    [np.linalg.norm(matrix, axis=1) * np.linalg.norm(query) + 1e-12].
    The division, the product and the sum are elementwise binary32
    operations; the constant is rounded to binary32. *)
Definition score (np : Numpy.kernels) (mat : list (list F32.t))
    (query : list F32.t) (i : nat) : F32.t :=
  F32.div (Numpy.matmul np mat query i)
          (F32.add (F32.mul (Numpy.norm_rows np mat i) (Numpy.norm np query))
                   (F32.of_f64 F64.lit_1e_12)).

Definition sims (np : Numpy.kernels) (rows : list row)
    (query_embedding : list F64.t) : list F32.t :=
  map (score np (matrix rows) (F32.array query_embedding))
      (seq 0 (length rows)).

(** [np.array] needs rows of one length and [matrix @ query] a query of
    that length; otherwise NumPy raises [ValueError]. *)
Definition shapes_agree (rows : list row) (query_embedding : list F64.t) : bool :=
  forallb (fun r => (length (embedding r) =? length query_embedding)%nat) rows.

Definition hit_of (r : row) (score : F32.t) : hit :=
  {| h_id := id r; h_doc_id := doc_id r; h_chunk_id := chunk_id r;
     h_text := text r; h_meta := meta r; h_score := score |}.

(** The body of [for idx in idxs]. *)
Fixpoint collect (rows : list row) (ss : list F32.t) (idxs : list nat)
    : result (list hit) :=
  match idxs with
  | [] => Ok []
  | idx :: rest =>
      match nth_error rows idx, nth_error ss idx with
      | Some r, Some sc =>
          match collect rows ss rest with
          | Ok out => Ok (hit_of r sc :: out)
          | Raise e => Raise e
          end
      | _, _ => Raise IndexError
      end
  end.

(** The hit for the row at position [idx] of the table: the row with
    its entry of [sims]. *)
Definition hit_at (np : Numpy.kernels) (rows : list row)
    (query_embedding : list F64.t) (idx : nat) : option hit :=
  option_map
    (fun r => hit_of r (score np (matrix rows) (F32.array query_embedding) idx))
    (nth_error rows idx).

Section Search.

(** [np.argsort], with the default sorting kind, and the reductions. *)
Variable argsort : list F32.t -> list nat.
Variable np : Numpy.kernels.

Definition search (s : store) (query_embedding : list F64.t) (top_k : Z)
    : result (list hit) :=
  let rows := all s in
  if negb (truthy rows) then Ok []
  else if negb (shapes_agree rows query_embedding) then Raise ValueError
  else
    let ss := sims np rows query_embedding in
    let idxs := slice_to (argsort (map F32.neg ss)) top_k in
    collect rows ss idxs.

End Search.

(** Position [i] may come before position [j] when sorting [v]. *)
Definition sorted_pair (v : list F32.t) (i j : nat) : Prop :=
  F32.npy_lt (nth j v F32.nan) (nth i v F32.nan) = false.

(** What NumPy documents of [argsort]: the indices of the array, in an
    order that sorts it. *)
Definition sorts (argsort : list F32.t -> list nat) : Prop :=
  forall v,
    Permutation (argsort v) (seq 0 (length v)) /\
    StronglySorted
      (fun i j => F32.npy_lt (nth j v F32.nan) (nth i v F32.nan) = false)
      (argsort v).

(** A routine that sorts: the insertion sort that places an index before
    the first later index it may precede. *)
Fixpoint insert_by (before : nat -> nat -> bool) (i : nat) (l : list nat)
    : list nat :=
  match l with
  | [] => [i]
  | j :: r => if before i j then i :: l else j :: insert_by before i r
  end.

Definition argsort_by (before : list F32.t -> nat -> nat -> bool)
    (v : list F32.t) : list nat :=
  fold_right (insert_by (before v)) [] (seq 0 (length v)).

(** Equal elements keep their order. *)
Definition argsort_stable : list F32.t -> list nat :=
  argsort_by (fun v i j => negb (F32.npy_lt (nth j v F32.nan) (nth i v F32.nan))).

(** *** Example tables *)

Definition no_meta : metadata :=
  {| source_path := []; chunk_index := 0; source_name := []; page := 0 |}.

Definition example_row (i : Z) (emb : list Z) : row :=
  {| id := i; doc_id := of_string "A.pdf"; chunk_id := i - 1; text := [];
     meta := no_meta; embedding := map F64.of_Z emb |}.

(** The vectors [[1,0]], [[0,1]] and [[1,1]]. *)
Definition three_vectors : store :=
  [example_row 1 [1; 0]; example_row 2 [0; 1]; example_row 3 [1; 1]].

End VectorStore.

(** ** The indexing pipeline of [indexer.py] *)

Module Indexer.

Import Py VectorStore.

(** A PDF file found by the directory walk, with what the two extraction
    helpers return for it: [extract_text_pypdf_pages] (one stripped text
    per page, or the empty list when pypdf fails) and
    [extract_text_pdfminer] (the stripped full text, or the empty string). *)
Record pdf := {
  path : str;
  pypdf_pages : list str;
  pdfminer_text : str
}.

Inductive mode := Pages | Full.

Definition extract_text_from_pdf (f : pdf) : list str * mode :=
  let page_texts := pypdf_pages f in
  let combined := strip (join [10%N] page_texts) in
  if 100 <=? len combined then (page_texts, Pages)
  else
    let text := pdfminer_text f in
    ((if truthy text then [text] else []), Full).

Definition build_metadata (path : str) (chunk_idx : nat) (page_index : Z)
    : metadata :=
  {| source_path := path;
     chunk_index := Z.of_nat chunk_idx;
     source_name := basename path;
     page := page_index |}.

(** [SELECT COUNT( * ) FROM documents WHERE doc_id = ?] *)
Definition _get_indexed_count (s : store) (doc : str) : nat :=
  length (filter (fun r => eqb (doc_id r) doc) s).

Definition BATCH : nat := 64.

(** What the chunking steps of the loop body leave: either the document is
    skipped ([continue]) or it has chunks with their page indices. *)
Inductive chunked :=
| Skip
| Chunks (chunks : list str) (page_idxs : list Z).

(** From the extraction to [page_idxs]; [None] only if the chunker's loop
    bound is exhausted. *)
Definition chunk_document (f : pdf) : option chunked :=
  let '(page_texts, mode) := extract_text_from_pdf f in
  if negb (truthy page_texts) then Some Skip
  else
    match mode with
    | Pages =>
        match Chunker.chunk_text_per_page page_texts 500 50 with
        | None => None
        | Some (chunks, page_idxs) => Some (Chunks chunks page_idxs)
        end
    | Full =>
        let combined := hd [] page_texts in
        if negb (truthy combined) then Some Skip
        else
          match Chunker.chunk_text_per_page [combined] 500 50 with
          | None => None
          | Some (chunks, _) => Some (Chunks chunks (map (fun _ => -1) chunks))
          end
    end.

(** The state an indexing run threads: the table, and how many requests
    the embedding provider has received. *)
Record state := { db : store; calls : nat }.

(** Whether the loop over the files goes on to the next file or
    [index_pdfs] returns. *)
Inductive flow := Continue | Return.

Section Run.

(** The embedding provider: what [embed_texts] returns at its [n]-th
    request of the run, [None] when it raises. *)
Variable embed_texts : nat -> list str -> option (list (list F64.t)).

(** The loop [for i in range(start, total, BATCH)] inside [try]. *)
Fixpoint batch_loop (path : str) (chunks : list str) (metadatas : list metadata)
    (starts : list nat) (st : state) : state * result unit :=
  match starts with
  | [] => (st, Ok tt)
  | i :: rest =>
      let batch_chunks := slice chunks (Z.of_nat i) (Z.of_nat i + Z.of_nat BATCH) in
      let batch_metas := slice metadatas (Z.of_nat i) (Z.of_nat i + Z.of_nat BATCH) in
      match embed_texts (calls st) batch_chunks with
      | None => ({| db := db st; calls := S (calls st) |}, Raise ProviderError)
      | Some embs =>
          match add_many (db st) path batch_chunks batch_metas embs with
          | (db', Ok _) =>
              batch_loop path chunks metadatas rest
                         {| db := db'; calls := S (calls st) |}
          | (db', Raise e) => ({| db := db'; calls := S (calls st) |}, Raise e)
          end
      end
  end.

(** The body of the loop over the files, for one PDF. *)
Definition index_document (f : pdf) (st : state) : option (state * flow) :=
  match chunk_document f with
  | None => None
  | Some Skip => Some (st, Continue)
  | Some (Chunks chunks page_idxs) =>
      if negb (truthy chunks) then Some (st, Continue)
      else
        let metadatas :=
          map (fun '(i, pidx) => build_metadata (path f) i pidx)
              (enumerate page_idxs) in
        let already_indexed := _get_indexed_count (db st) (path f) in
        let total := length chunks in
        if (total <=? already_indexed)%nat then Some (st, Continue)
        else
          match batch_loop (path f) chunks metadatas
                           (range already_indexed total BATCH) st with
          | (st', Ok _) => Some (st', Continue)
          | (st', Raise _) => Some (st', Return)
          end
  end.

(** The loop over the files: the state it leaves, and whether it ran to
    the end ([Continue]) or [index_pdfs] returned from inside it. *)
Fixpoint index_files (files : list pdf) (st : state) : option (state * flow) :=
  match files with
  | [] => Some (st, Continue)
  | f :: rest =>
      match index_document f st with
      | None => None
      | Some (st', Continue) => index_files rest st'
      | Some (st', Return) => Some (st', Return)
      end
  end.

(** [index_pdfs], on the PDF files of the directory in walk order and the
    table at [db_path]: the table it leaves. *)
Definition index_pdfs (files : list pdf) (s : store) : option store :=
  option_map (fun r => db (fst r)) (index_files files {| db := s; calls := 0 |}).

End Run.

(** *** Vocabulary for the statements about a run *)

(** The provider answers its [n]-th request properly: it returns one
    vector per text. *)
Definition answers (embed_texts : nat -> list str -> option (list (list F64.t)))
    (n : nat) (texts : list str) : Prop :=
  exists embs, embed_texts n texts = Some embs /\ length embs = length texts.

(** The provider fails on its [n]-th request: it raises, or what it
    returns makes the assertion of [add_many] fail. *)
Definition fails (embed_texts : nat -> list str -> option (list (list F64.t)))
    (n : nat) (texts : list str) : Prop :=
  forall embs, embed_texts n texts = Some embs -> length embs <> length texts.

Definition reliable (embed_texts : nat -> list str -> option (list (list F64.t)))
    : Prop :=
  forall n texts, answers embed_texts n texts.

(** The table holds at least as many rows for the file as the file has
    chunks: the resume check of [index_pdfs] skips it. *)
Definition fully_indexed (f : pdf) (s : store) : Prop :=
  forall chunks page_idxs,
    chunk_document f = Some (Chunks chunks page_idxs) ->
    (length chunks <= _get_indexed_count s (path f))%nat.

(** The batch [l[i : i + BATCH]]. *)
Definition batch {A} (l : list A) (i : nat) : list A :=
  slice l (Z.of_nat i) (Z.of_nat i + Z.of_nat BATCH).

(** The rows the batches starting at [starts] leave in the table: for
    each batch, one row per chunk with the chunk's text and metadata and
    its position in the batch as [chunk_id]. *)
Definition batch_rows (path : str) (chunks : list str)
    (metadatas : list metadata) (starts : list nat) (new : list row) : Prop :=
  map doc_id new = repeat path (length new) /\
  map text new = flat_map (fun i => firstn BATCH (skipn i chunks)) starts /\
  map meta new = flat_map (fun i => firstn BATCH (skipn i metadatas)) starts /\
  map chunk_id new =
    flat_map (fun i => map Z.of_nat
                         (seq 0 (length (firstn BATCH (skipn i chunks)))))
             starts.

(** The metadata list [index_pdfs] builds for a file. *)
Definition metadatas_of (f : pdf) (page_idxs : list Z) : list metadata :=
  map (fun '(i, pidx) => build_metadata (path f) i pidx) (enumerate page_idxs).

(** A provider that returns the vector [[0.0]] for every text. *)
Definition constant_provider (n : nat) (texts : list str)
    : option (list (list F64.t)) :=
  Some (map (fun _ => [F64.of_Z 0]) texts).

(** A provider that answers its first [k] requests and raises afterwards. *)
Definition failing_after (k : nat) (n : nat) (texts : list str)
    : option (list (list F64.t)) :=
  if (n <? k)%nat then constant_provider n texts else None.

(** A PDF of [n] pages, each holding the one-letter text [a]. *)
Definition pages_of_a (n : nat) : pdf :=
  {| path := of_string "docs/a.pdf";
     pypdf_pages := repeat (of_string "a") n;
     pdfminer_text := [] |}.

End Indexer.

(** ** The query pipeline of [retrieval.py] *)

Module Retrieval.

Import Py VectorStore.

(** [str(n)] for an integer: its decimal digits, most significant first. *)
Fixpoint digits (fuel : nat) (n : Z) (acc : str) : str :=
  match fuel with
  | O => acc
  | S fuel' =>
      let acc' := Z.to_N (48 + n mod 10) :: acc in
      if n / 10 =? 0 then acc' else digits fuel' (n / 10) acc'
  end.

Definition str_of_nonneg (n : Z) : str := digits (S (Z.to_nat (Z.log2 n))) n [].

Definition str_of_int (n : Z) : str :=
  if n <? 0 then 45%N :: str_of_nonneg (- n) else str_of_nonneg n.

(** The number [m * 2^e * 1000] rounded to the nearest integer, ties to
    even: the thousandths [format(x, '.3f')] prints. *)
Definition thousandths (m : positive) (e : Z) : Z :=
  if 0 <=? e then Zpos m * 2 ^ e * 1000
  else
    let den := 2 ^ (- e) in
    let num := Zpos m * 1000 in
    let q := num / den in
    let r := num mod den in
    if (den <? 2 * r) || ((2 * r =? den) && Z.odd q) then q + 1 else q.

(** Three digits, padded with zeros on the left. *)
Definition three_digits (n : Z) : str :=
  [Z.to_N (48 + n / 100); Z.to_N (48 + (n / 10) mod 10); Z.to_N (48 + n mod 10)].

(** [f"{x:.3f}"] for a float. *)
Definition format_3f (x : F32.t) : str :=
  match x with
  | S754_nan => of_string "nan"
  | S754_infinity s => if s then of_string "-inf" else of_string "inf"
  | S754_zero s => if s then of_string "-0.000" else of_string "0.000"
  | S754_finite s m e =>
      let n := thousandths m e in
      (if s then [45%N] else []) ++
      str_of_nonneg (n / 1000) ++ [46%N] ++ three_digits (n mod 1000)
  end.

Definition header (h : hit) : str :=
  of_string "[Source: " ++ source_name (h_meta h) ++
  of_string " | chunk " ++ str_of_int (chunk_index (h_meta h)) ++
  of_string " | score " ++ format_3f (h_score h) ++ of_string "]".

(** [format_context]: three lines per hit, joined by newlines. *)
Definition format_context (chunks : list hit) : str :=
  join [10%N]
       (flat_map (fun c => [header c; h_text c; repeat 45%N 80]) chunks).

Definition SYSTEM_PROMPT : str :=
  of_string "You are a helpful AI assistant specialized in science, math, and technology.
Use ONLY the provided context to answer the user's question. If the answer is not in the context,
say that you don't know. Always cite sources at the end using their source_name and chunk index.
".

Record message := { role : str; content : str }.

(** An entry of ["sources"].  The metadata the indexer builds has no
    ["images"] key, so [meta.get("images", [])] is the empty list. *)
Record source := {
  s_source_name : str;
  s_chunk_index : Z;
  s_score : F32.t;
  s_page : Z;
  s_images : list str
}.

Definition source_of (h : hit) : source :=
  {| s_source_name := source_name (h_meta h);
     s_chunk_index := chunk_index (h_meta h);
     s_score := h_score h;
     s_page := page (h_meta h);
     s_images := [] |}.

Definition messages_for (query : str) (hits : list hit) : list message :=
  let context_text := format_context hits in
  let user_prompt :=
    of_string "Question:" ++ [10%N] ++ query ++ [10%N; 10%N] ++
    of_string "Context:" ++ [10%N] ++ context_text ++ [10%N; 10%N] ++
    of_string "Answer:" in
  [ {| role := of_string "system"; content := SYSTEM_PROMPT |};
    {| role := of_string "user"; content := user_prompt |} ].

Section AnswerQuery.

(** The two provider calls: [embed_texts] and [chat_complete], [None] when
    they raise; and the sorting routine and the reductions of [search]. *)
Variable embed_texts : list str -> option (list (list F64.t)).
Variable chat_complete : list message -> option str.
Variable argsort : list F32.t -> list nat.
Variable np : Numpy.kernels.

(** [answer_query]: the answer and the sources, on the table at [db_path]. *)
Definition answer_query (s : store) (query : str) (top_k : Z)
    : result (str * list source) :=
  match embed_texts [query] with
  | None => Raise ProviderError
  | Some [] => Raise IndexError
  | Some (query_vec :: _) =>
      match search argsort np s query_vec top_k with
      | Raise e => Raise e
      | Ok hits =>
          match chat_complete (messages_for query hits) with
          | None => Raise ProviderError
          | Some answer => Ok (answer, map source_of hits)
          end
      end
  end.

End AnswerQuery.

End Retrieval.

(** ** The HTTP layer of [app/main.py] *)

Module App.

Import Py VectorStore Retrieval.

(** The JSON body of [POST /query], as far as the handler reads it: the
    keys ["query"] and ["top_k"], each present or not.  [top_k] is a JSON
    integer, which [int(...)] leaves as it is. *)
Record payload := {
  p_query : option str;
  p_top_k : option Z
}.

(** What the handler answers: the dictionary of [answer_query] as JSON,
    or an [HTTPException] with its status code. *)
Inductive response :=
| Json (answer : str) (sources : list source)
| HTTPException (status_code : Z).

Section Query.

Variable embed_texts : list str -> option (list (list F64.t)).
Variable chat_complete : list message -> option str.
Variable argsort : list F32.t -> list nat.
Variable np : Numpy.kernels.

(** The table stored at [DB_PATH]. *)
Variable db : store.

(** [query]: the handler of [POST /query]. *)
Definition query (p : payload) : response :=
  let query := strip (match p_query p with Some q => q | None => [] end) in
  let top_k := match p_top_k p with Some k => k | None => 5 end in
  if negb (truthy query) then HTTPException 400
  else
    match answer_query embed_texts chat_complete argsort np db query top_k with
    | Ok (answer, sources) => Json answer sources
    | Raise _ => HTTPException 500
    end.

End Query.

End App.

(** * Proofs *)
(** * Facts about the Python primitives *)

Section PyFacts.

Import Py.

Lemma truthy_true {A} (l : list A) : truthy l = true <-> l <> [].
Proof. destruct l; simpl; split; congruence. Qed.

Lemma truthy_false {A} (l : list A) : truthy l = false <-> l = [].
Proof. destruct l; simpl; split; congruence. Qed.

Lemma eqb_eq (a b : str) : eqb a b = true <-> a = b.
Proof.
  revert b; induction a as [|x a IH]; intros [|y b]; simpl;
    try (split; congruence).
  rewrite andb_true_iff, N.eqb_eq, IH. split.
  - intros [-> ->]; reflexivity.
  - intros H; injection H; auto.
Qed.

Lemma eqb_refl (a : str) : eqb a a = true.
Proof. apply eqb_eq; reflexivity. Qed.

Lemma enumerate_from_length {A} (l : list A) n :
  length (enumerate_from n l) = length l.
Proof. revert n; induction l; simpl; auto. Qed.

Lemma enumerate_from_app {A} (l1 l2 : list A) n :
  enumerate_from n (l1 ++ l2) =
  enumerate_from n l1 ++ enumerate_from (n + length l1) l2.
Proof.
  revert n; induction l1 as [|x l1 IH]; intros n; simpl.
  - rewrite Nat.add_0_r; reflexivity.
  - rewrite IH. replace (S n + length l1)%nat with (n + S (length l1))%nat by lia.
    reflexivity.
Qed.

Lemma enumerate_from_fst {A} (l : list A) n :
  map fst (enumerate_from n l) = seq n (length l).
Proof. revert n; induction l; intros; simpl; f_equal; auto. Qed.

Lemma enumerate_from_snd {A} (l : list A) n :
  map snd (enumerate_from n l) = l.
Proof. revert n; induction l; intros; simpl; f_equal; auto. Qed.

(** A slice between two natural bounds is a [firstn] of a [skipn]. *)
Lemma slice_nat {A} (l : list A) (i n : nat) :
  slice l (Z.of_nat i) (Z.of_nat i + Z.of_nat n) = firstn n (skipn i l).
Proof.
  unfold slice, adjust, len.
  destruct (Z.ltb_spec (Z.of_nat i) 0); [lia|].
  destruct (Z.ltb_spec (Z.of_nat i + Z.of_nat n) 0); [lia|].
  destruct (Nat.le_gt_cases (length l) i) as [Hi|Hi].
  - rewrite !(skipn_all2 l) by lia. rewrite !firstn_nil. reflexivity.
  - replace (Z.to_nat (Z.min (Z.of_nat i) (Z.of_nat (length l)))) with i by lia.
    destruct (Nat.le_gt_cases (length l) (i + n)) as [Hn|Hn].
    + rewrite !firstn_all2; auto; rewrite length_skipn; lia.
    + f_equal. lia.
Qed.

(** [l[:k]] for a natural [k]. *)
Lemma slice_to_nat {A} (l : list A) (k : nat) :
  slice_to l (Z.of_nat k) = firstn k l.
Proof.
  unfold slice_to. change 0 with (Z.of_nat 0) at 1.
  replace (Z.of_nat k) with (Z.of_nat 0 + Z.of_nat k) by lia.
  rewrite slice_nat. reflexivity.
Qed.

(** [range(start, stop, step)] holds [start], [start + step], ... below
    [stop]. *)
Lemma range_fuel_cons fuel start stop step :
  (start < stop)%nat -> (stop - start <= fuel)%nat -> (0 < step)%nat ->
  range_fuel fuel start stop step =
  start :: range_fuel (fuel - 1) (start + step) stop step.
Proof.
  intros Hlt Hf Hs. destruct fuel as [|fuel]; [lia|]. simpl.
  destruct (Nat.ltb_spec start stop); [|lia].
  rewrite Nat.sub_0_r. reflexivity.
Qed.

Lemma range_fuel_enough fuel fuel' start stop step :
  (0 < step)%nat -> (stop - start <= fuel)%nat -> (stop - start <= fuel')%nat ->
  range_fuel fuel start stop step = range_fuel fuel' start stop step.
Proof.
  intros Hs. revert fuel' start.
  induction fuel as [|fuel IH]; intros fuel' start Hf Hf'.
  - destruct fuel' as [|fuel']; simpl; auto.
    destruct (Nat.ltb_spec start stop); [lia|reflexivity].
  - destruct fuel' as [|fuel']; simpl;
      destruct (Nat.ltb_spec start stop); try lia; auto.
    f_equal. apply IH; lia.
Qed.

Lemma range_nil start stop step :
  (stop <= start)%nat -> range start stop step = [].
Proof.
  intros H. unfold range. replace (stop - start)%nat with 0%nat by lia.
  reflexivity.
Qed.

Lemma range_cons start stop step :
  (start < stop)%nat -> (0 < step)%nat ->
  range start stop step = start :: range (start + step) stop step.
Proof.
  intros Hlt Hs. unfold range.
  rewrite range_fuel_cons by lia. f_equal.
  apply range_fuel_enough; lia.
Qed.

End PyFacts.

(** * The chunker *)

Section ChunkerFacts.

Import Py Chunker.

Lemma emit_fold (pidx : Z) (ws : list str) (a : acc) :
  fold_left (fun a w => emit a w pidx) ws a =
  (fst a ++ filter truthy ws,
   snd a ++ map (fun _ => pidx) (filter truthy ws)).
Proof.
  revert a; induction ws as [|w ws IH]; intros [cs ps]; simpl.
  - rewrite !app_nil_r; reflexivity.
  - rewrite IH. unfold emit. destruct (truthy w); simpl.
    + rewrite <- !app_assoc; reflexivity.
    + reflexivity.
Qed.

(** The number of windows, [ceil(n / step)], against the loop condition. *)
Lemma count_reached (n : nat) (step : Z) (k : nat) :
  1 <= step ->
  (Z.of_nat k * step <? Z.of_nat n) = true <->
  (k < Z.to_nat ((Z.of_nat n + step - 1) / step))%nat.
Proof.
  intros Hs. rewrite Z.ltb_lt.
  assert (H0 : 0 <= (Z.of_nat n + step - 1) / step)
    by (apply Z.div_pos; lia).
  pose proof (Z.div_mod (Z.of_nat n + step - 1) step ltac:(lia)) as Hdm.
  pose proof (Z.mod_pos_bound (Z.of_nat n + step - 1) step ltac:(lia)) as Hm.
  split; intros H.
  - apply Nat2Z.inj_lt. rewrite Z2Nat.id by lia. nia.
  - apply Nat2Z.inj_lt in H. rewrite Z2Nat.id in H by lia. nia.
Qed.

Lemma count_le_length (n : nat) (step : Z) :
  1 <= step -> (Z.to_nat ((Z.of_nat n + step - 1) / step) <= n)%nat.
Proof.
  intros Hs.
  destruct (Nat.le_gt_cases (Z.to_nat ((Z.of_nat n + step - 1) / step)) n)
    as [|H]; auto.
  apply (count_reached n step n Hs) in H. apply Z.ltb_lt in H. nia.
Qed.

(** The [while] loop started at the [k0]-th window runs through the
    remaining [m] windows and stops, whatever fuel is left beyond [m]. *)
Lemma page_loop_run (text : str) (chunk_size step pidx : Z) :
  1 <= step ->
  forall (m k0 fuel : nat) (a : acc),
    (k0 + m = Z.to_nat ((len text + step - 1) / step))%nat ->
    (m <= fuel)%nat ->
    page_loop fuel text chunk_size step pidx (Z.of_nat k0 * step) a =
    Some (fold_left (fun a w => emit a w pidx)
            (map (window text chunk_size)
               (map (fun k => Z.of_nat k * step) (seq k0 m))) a).
Proof.
  intros Hs. unfold len.
  induction m as [|m IH]; intros k0 fuel a Hk Hf.
  - assert (Hc : (Z.of_nat k0 * step <? Z.of_nat (length text)) = false).
    { apply not_true_is_false. rewrite count_reached by assumption. lia. }
    destruct fuel; simpl; unfold len; rewrite Hc; reflexivity.
  - assert (Hc : (Z.of_nat k0 * step <? Z.of_nat (length text)) = true).
    { apply count_reached; [assumption|lia]. }
    destruct fuel as [|fuel]; [lia|].
    simpl. unfold len. rewrite Hc.
    replace (Z.of_nat k0 * step + step) with (Z.of_nat (S k0) * step) by lia.
    apply (IH (S k0)); lia.
Qed.

Lemma page_loop_total (text : str) (chunk_size step : Z) (pidx : nat) (a : acc) :
  1 <= step ->
  page_loop (length text) text chunk_size step (Z.of_nat pidx) 0 a =
  Some (fst a ++ map fst (page_chunks chunk_size step (pidx, text)),
        snd a ++ map snd (page_chunks chunk_size step (pidx, text))).
Proof.
  intros Hs.
  change 0 with (Z.of_nat 0 * step).
  rewrite (page_loop_run text chunk_size step (Z.of_nat pidx) Hs
             (Z.to_nat ((len text + step - 1) / step)) 0 (length text) a).
  - rewrite emit_fold. unfold page_chunks, positions, len; simpl fst; simpl snd.
    rewrite !map_map; simpl. rewrite map_id. reflexivity.
  - reflexivity.
  - apply count_le_length; assumption.
Qed.

Lemma positions_empty (step : Z) : 1 <= step -> positions 0 step = [].
Proof.
  intros Hs. unfold positions.
  replace ((Z.of_nat 0 + step - 1) / step) with 0; [reflexivity|].
  symmetry. apply Z.div_small. lia.
Qed.

Lemma pages_loop_total (chunk_size step : Z) :
  1 <= step ->
  forall (pages : list (nat * str)) (a : acc),
    pages_loop pages chunk_size step a =
    Some (fst a ++ map fst (flat_map (page_chunks chunk_size step) pages),
          snd a ++ map snd (flat_map (page_chunks chunk_size step) pages)).
Proof.
  intros Hs. induction pages as [|[pidx text] pages IH]; intros a.
  - simpl. rewrite !app_nil_r. destruct a; reflexivity.
  - cbn [pages_loop flat_map].
    destruct (truthy text) eqn:Ht; cbn [negb].
    + rewrite page_loop_total by assumption. rewrite IH. cbn [fst snd].
      rewrite !map_app, !app_assoc. reflexivity.
    + apply truthy_false in Ht.
      assert (Hp : page_chunks chunk_size step (pidx, text) = []).
      { unfold page_chunks. cbn [fst snd]. rewrite Ht. cbn [length].
        rewrite positions_empty by assumption. reflexivity. }
      rewrite IH, Hp. reflexivity.
Qed.

(** The chunker always returns, and returns its closed form. *)
Lemma chunk_text_per_page_all page_texts max_tokens overlap :
  chunk_text_per_page page_texts max_tokens overlap =
  Some (map fst (all_chunks page_texts max_tokens overlap),
        map snd (all_chunks page_texts max_tokens overlap)).
Proof.
  unfold chunk_text_per_page, all_chunks.
  rewrite pages_loop_total by lia. reflexivity.
Qed.

Lemma positions_spec (n : nat) (step i : Z) :
  1 <= step ->
  In i (positions n step) <->
  exists k : nat, i = Z.of_nat k * step /\ i < Z.of_nat n.
Proof.
  intros Hs. unfold positions. rewrite in_map_iff. split.
  - intros [k [<- Hk]]. exists k. split; [reflexivity|].
    apply in_seq in Hk. apply Z.ltb_lt. apply count_reached; [assumption|lia].
  - intros [k [-> Hk]]. exists k. split; [reflexivity|].
    apply in_seq. apply Z.ltb_lt, count_reached in Hk; [lia|assumption].
Qed.

Lemma page_chunks_nonempty (chunk_size step : Z) (p : nat * str) :
  Forall (fun c => c <> []) (map fst (page_chunks chunk_size step p)).
Proof.
  unfold page_chunks. rewrite map_map. simpl. rewrite map_id.
  apply Forall_forall. intros c Hc. apply filter_In in Hc.
  apply truthy_true, Hc.
Qed.

End ChunkerFacts.

(** C8: for all page texts and integers [max_tokens] and [overlap],
    [chunk_text_per_page] returns (its [while] loops end within their bound)
    and what it returns is, page after page, the trimmed windows
    [text[i : i + max_tokens*4]] at the positions [i = 0, step, 2*step, ...]
    below [len(text)], with [step = max(1, max_tokens*4 - overlap*4)], the
    empty ones dropped, each with its page index; no emitted chunk is empty. *)
Theorem chunk_text_per_page_windows :
  forall (page_texts : list Py.str) (max_tokens overlap : Z),
    let chunk_size := max_tokens * 4 in
    let step := Z.max 1 (chunk_size - overlap * 4) in
    let emitted :=
      flat_map
        (fun p : nat * Py.str =>
           map (fun c => (c, Z.of_nat (fst p)))
             (filter Py.truthy
                (map (fun i => Py.strip (Py.slice (snd p) i (i + chunk_size)))
                   (Chunker.positions (length (snd p)) step))))
        (Py.enumerate page_texts) in
    Chunker.chunk_text_per_page page_texts max_tokens overlap =
      Some (map fst emitted, map snd emitted) /\
    Forall (fun c => c <> []) (map fst emitted) /\
    (forall (n : nat) (i : Z),
        In i (Chunker.positions n step) <->
        exists k : nat, i = Z.of_nat k * step /\ i < Z.of_nat n).
Proof.
  intros page_texts max_tokens overlap chunk_size step emitted.
  assert (Hs : 1 <= step) by (unfold step; lia).
  assert (He : emitted =
               flat_map (Chunker.page_chunks chunk_size step)
                        (Py.enumerate page_texts)) by reflexivity.
  split; [|split].
  - unfold Chunker.chunk_text_per_page. fold chunk_size. fold step.
    rewrite pages_loop_total by assumption. rewrite He. reflexivity.
  - rewrite He. rewrite flat_map_concat_map, concat_map.
    apply Forall_concat. apply Forall_forall.
    intros l Hl. apply in_map_iff in Hl. destruct Hl as [l' [<- Hl']].
    apply in_map_iff in Hl'. destruct Hl' as [p [<- _]].
    apply page_chunks_nonempty.
  - intros n i. apply positions_spec; assumption.
Qed.

(** * The order of the floats *)

Section FloatOrder.

Import F32.

Lemma cmp3_Lt a b : cmp3 a b = Lt <-> lex_lt a b.
Proof.
  destruct a as [[a1 a2] a3], b as [[b1 b2] b3]. unfold cmp3, lex_lt; simpl.
  destruct (Z.compare_spec a1 b1), (Z.compare_spec a2 b2),
    (Z.compare_spec a3 b3); split; intros; try discriminate; try lia; auto.
Qed.

Lemma cmp3_Gt a b : cmp3 a b = Gt <-> lex_lt b a.
Proof.
  destruct a as [[a1 a2] a3], b as [[b1 b2] b3]. unfold cmp3, lex_lt; simpl.
  destruct (Z.compare_spec a1 b1), (Z.compare_spec a2 b2),
    (Z.compare_spec a3 b3); split; intros; try discriminate; try lia; auto.
Qed.

Lemma compare_key a b :
  is_nan a = false -> is_nan b = false ->
  SFcompare a b = Some (cmp3 (key a) (key b)).
Proof.
  destruct a as [[]|[]| |[] ma ea], b as [[]|[]| |[] mb eb];
    simpl; intros; try discriminate; try reflexivity.
  unfold cmp3; simpl. rewrite Z.compare_opp, (Z.compare_antisym ea eb).
  destruct (ea ?= eb); reflexivity.
Qed.

Lemma npy_lt_key a b :
  npy_lt a b = match cmp3 (key a) (key b) with Lt => true | _ => false end.
Proof.
  unfold npy_lt, ltb, SFltb.
  destruct (is_nan a) eqn:Ha, (is_nan b) eqn:Hb.
  - destruct a, b; simpl in *; try discriminate; reflexivity.
  - destruct a; simpl in *; try discriminate.
    destruct b as [[]|[]| |[]]; simpl in *; try discriminate; reflexivity.
  - destruct b; simpl in *; try discriminate.
    destruct a as [[]|[]| |[]]; simpl in *; try discriminate; reflexivity.
  - rewrite compare_key by assumption. simpl.
    destruct (cmp3 (key a) (key b)); reflexivity.
Qed.

Lemma npy_lt_lex a b : npy_lt a b = true <-> lex_lt (key a) (key b).
Proof.
  rewrite npy_lt_key, <- cmp3_Lt.
  destruct (cmp3 (key a) (key b)); split; congruence.
Qed.

Lemma npy_lt_false a b :
  npy_lt a b = false <-> ~ lex_lt (key a) (key b).
Proof.
  rewrite <- npy_lt_lex. destruct (npy_lt a b); split; congruence.
Qed.

(** NumPy's order is a strict weak order. *)
Lemma npy_lt_asym a b : npy_lt a b = true -> npy_lt b a = false.
Proof.
  rewrite npy_lt_lex, npy_lt_false. unfold lex_lt.
  destruct (key a) as [[a1 a2] a3], (key b) as [[b1 b2] b3]; simpl. lia.
Qed.

Lemma npy_le_trans a b c :
  npy_lt b a = false -> npy_lt c b = false -> npy_lt c a = false.
Proof.
  rewrite !npy_lt_false. unfold lex_lt.
  destruct (key a) as [[a1 a2] a3], (key b) as [[b1 b2] b3],
    (key c) as [[c1 c2] c3]; simpl. lia.
Qed.

Lemma key_neg a :
  is_nan a = false ->
  key (neg a) = (- fst (fst (key a)), - snd (fst (key a)), - snd (key a)).
Proof.
  destruct a as [[]|[]| |[] m e]; simpl; intros; try discriminate;
    try reflexivity.
  rewrite Z.opp_involutive. reflexivity.
Qed.

Lemma is_nan_neg a : is_nan (neg a) = is_nan a.
Proof. destruct a; reflexivity. Qed.

Lemma is_nan_key a : is_nan a = true <-> fst (fst (key a)) = 3.
Proof.
  destruct a as [[]|[]| |[] m e]; simpl; split; intros; try discriminate;
    try reflexivity; try lia.
Qed.

Lemma geb_lex a b :
  is_nan a = false -> is_nan b = false ->
  (geb a b = true <-> ~ lex_lt (key a) (key b)).
Proof.
  intros Ha Hb. unfold geb, SFleb. rewrite compare_key by assumption.
  rewrite <- cmp3_Gt.
  assert (H : cmp3 (key b) (key a) = Gt \/ cmp3 (key b) (key a) <> Gt)
    by (destruct (cmp3 (key b) (key a)); auto; right; discriminate).
  destruct (cmp3 (key b) (key a)); split; intros; try discriminate;
    try congruence; auto.
Qed.

(** Sorting the negated scores in ascending order puts the scores
    themselves in descending order. *)
Lemma sorted_neg_descending a b :
  npy_lt (neg b) (neg a) = false -> descending a b = true.
Proof.
  intros H. unfold descending.
  destruct (is_nan b) eqn:Hb; [reflexivity|]. simpl.
  destruct (is_nan a) eqn:Ha.
  - exfalso. destruct a; try discriminate.
    destruct b as [[]|[]| |[]]; discriminate.
  - apply geb_lex; try assumption.
    apply npy_lt_false in H. rewrite !key_neg in H by assumption.
    unfold lex_lt in *.
    destruct (key a) as [[a1 a2] a3], (key b) as [[b1 b2] b3]; simpl in *. lia.
Qed.

(** Without NaN among the scores, descending is plainly [>=]. *)
Lemma descending_geb a b :
  is_nan b = false -> descending a b = true -> geb a b = true.
Proof. unfold descending. intros ->. auto. Qed.

End FloatOrder.

(** * The insertion sort meets NumPy's contract *)

Section InsertionSorts.

Import VectorStore.

Lemma insert_by_perm before i l : Permutation (insert_by before i l) (i :: l).
Proof.
  induction l as [|j r IH]; simpl; auto.
  destruct (before i j); auto.
  rewrite IH. apply perm_swap.
Qed.

Lemma fold_insert_perm before l :
  Permutation (fold_right (insert_by before) [] l) l.
Proof.
  induction l as [|i l IH]; simpl; auto.
  rewrite insert_by_perm. auto.
Qed.

Lemma argsort_by_perm before v :
  Permutation (argsort_by before v) (seq 0 (length v)).
Proof. apply fold_insert_perm. Qed.

Variable v : list F32.t.

Lemma insert_by_sorted (before : nat -> nat -> bool) :
  (forall i j, before i j = true -> sorted_pair v i j) ->
  (forall i j, before i j = false -> sorted_pair v j i) ->
  forall i l,
    StronglySorted (sorted_pair v) l ->
    StronglySorted (sorted_pair v) (insert_by before i l).
Proof.
  intros H1 H2 i l Hl. induction Hl as [|j r Hr IH Hj]; simpl.
  - repeat constructor.
  - destruct (before i j) eqn:Hb.
    + constructor; [constructor; assumption|].
      constructor; [apply H1; assumption|].
      apply H1 in Hb. rewrite Forall_forall in *. intros x Hx.
      unfold sorted_pair in *. eapply npy_le_trans; [apply Hb|apply Hj, Hx].
    + constructor; [assumption|].
      rewrite Forall_forall in *. intros x Hx.
      apply (Permutation_in _ (insert_by_perm before i r)) in Hx.
      destruct Hx as [<-|Hx]; [apply H2; assumption|apply Hj, Hx].
Qed.

Lemma fold_insert_sorted (before : nat -> nat -> bool) :
  (forall i j, before i j = true -> sorted_pair v i j) ->
  (forall i j, before i j = false -> sorted_pair v j i) ->
  forall l, StronglySorted (sorted_pair v) (fold_right (insert_by before) [] l).
Proof.
  intros H1 H2 l. induction l; simpl; [constructor|].
  apply insert_by_sorted; assumption.
Qed.

End InsertionSorts.

Lemma argsort_stable_sorts : VectorStore.sorts VectorStore.argsort_stable.
Proof.
  intros v. split; [apply argsort_by_perm|].
  apply fold_insert_sorted; intros i j H.
  - apply negb_true_iff in H. exact H.
  - apply negb_false_iff in H. apply npy_lt_asym. exact H.
Qed.

(** * Similarity search *)

Section SearchFacts.

Import Py VectorStore.

Lemma firstn_In {A} (l : list A) n x : In x (firstn n l) -> In x l.
Proof.
  intros H. rewrite <- (firstn_skipn n l). apply in_or_app. left; exact H.
Qed.

Lemma skipn_In {A} (l : list A) n x : In x (skipn n l) -> In x l.
Proof.
  intros H. rewrite <- (firstn_skipn n l). apply in_or_app. right; exact H.
Qed.

Lemma slice_incl {A} (l : list A) i j x : In x (slice l i j) -> In x l.
Proof.
  unfold slice. intros H. apply firstn_In in H. apply skipn_In in H. exact H.
Qed.

Lemma StronglySorted_skipn {A} (R : A -> A -> Prop) (l : list A) n :
  StronglySorted R l -> StronglySorted R (skipn n l).
Proof.
  revert l; induction n as [|n IH]; intros l Hl; simpl; auto.
  destruct l; auto. inversion Hl; subst. apply IH; assumption.
Qed.

Lemma StronglySorted_firstn {A} (R : A -> A -> Prop) (l : list A) n :
  StronglySorted R l -> StronglySorted R (firstn n l).
Proof.
  revert l; induction n as [|n IH]; intros l Hl; simpl; [constructor|].
  destruct l; [constructor|]. inversion Hl; subst.
  constructor; [apply IH; assumption|].
  rewrite Forall_forall in *. intros x Hx. apply firstn_In in Hx. auto.
Qed.

Lemma StronglySorted_slice {A} (R : A -> A -> Prop) (l : list A) i j :
  StronglySorted R l -> StronglySorted R (slice l i j).
Proof.
  intros H. unfold slice. apply StronglySorted_firstn, StronglySorted_skipn, H.
Qed.

Lemma NoDup_slice {A} (l : list A) i j : NoDup l -> NoDup (slice l i j).
Proof.
  intros H. unfold slice.
  assert (Hs : NoDup (skipn (Z.to_nat (adjust (len l) i)) l)).
  { rewrite <- (firstn_skipn (Z.to_nat (adjust (len l) i)) l) in H.
    apply NoDup_app_remove_l in H. exact H. }
  revert Hs. generalize (skipn (Z.to_nat (adjust (len l) i)) l) as l'.
  generalize (Z.to_nat (adjust (len l) j - adjust (len l) i)) as n.
  intros n l' Hl'.
  rewrite <- (firstn_skipn n l') in Hl'. apply NoDup_app_remove_r in Hl'.
  exact Hl'.
Qed.

(** A sorting relation on positions carries over to the hits. *)
Lemma StronglySorted_pairs {A B} (R : A -> A -> Prop) (Q : B -> B -> Prop)
    (P : A -> B -> Prop) :
  (forall a a' b b', P a b -> P a' b' -> R a a' -> Q b b') ->
  forall la lb, Forall2 P la lb -> StronglySorted R la -> StronglySorted Q lb.
Proof.
  intros H la lb HP. induction HP as [|a b la lb Hab HP IH]; intros Hs.
  - constructor.
  - inversion Hs as [|? ? Hs' Hf]; subst. constructor; [apply IH, Hs'|].
    clear IH Hs Hs'. induction HP as [|a' b' la lb Hab' HP IH'].
    + constructor.
    + inversion Hf; subst. constructor; eauto.
Qed.

Lemma map_Some_Forall2 {A B} (f : A -> option B) la lb :
  map Some lb = map f la -> Forall2 (fun a b => f a = Some b) la lb.
Proof.
  revert lb; induction la as [|a la IH]; intros [|b lb] H; simpl in H;
    try discriminate; constructor.
  - injection H; auto.
  - apply IH. injection H; auto.
Qed.

Variable np : Numpy.kernels.

Lemma sims_length rows q : length (sims np rows q) = length rows.
Proof. unfold sims. rewrite length_map. apply length_seq. Qed.

Lemma sims_nth_error rows q idx :
  (idx < length rows)%nat ->
  nth_error (sims np rows q) idx
  = Some (score np (matrix rows) (F32.array q) idx).
Proof.
  intros H. unfold sims. rewrite nth_error_map.
  rewrite (nth_error_nth' (seq 0 (length rows)) 0%nat)
    by (rewrite length_seq; exact H).
  rewrite seq_nth by exact H. reflexivity.
Qed.

(** A hit carries the columns of its row and that row's entry of [sims]. *)
Lemma hit_at_fields rows q idx h :
  hit_at np rows q idx = Some h ->
  exists r,
    nth_error rows idx = Some r /\
    h_id h = id r /\ h_doc_id h = doc_id r /\ h_chunk_id h = chunk_id r /\
    h_text h = text r /\ h_meta h = meta r /\
    h_score h = score np (matrix rows) (F32.array q) idx.
Proof.
  unfold hit_at. destruct (nth_error rows idx) as [r|]; simpl;
    [|discriminate].
  intros H; injection H as <-. exists r. repeat split.
Qed.

Lemma hit_at_score rows q idx h :
  hit_at np rows q idx = Some h ->
  h_score h = nth idx (sims np rows q) F32.nan /\ (idx < length rows)%nat.
Proof.
  intros H. destruct (hit_at_fields _ _ _ _ H) as [r [Hr [_ [_ [_ [_ [_ Hs]]]]]]].
  assert (Hlt : (idx < length rows)%nat)
    by (apply nth_error_Some; congruence).
  split; [|exact Hlt].
  rewrite Hs. symmetry. apply nth_error_nth, sims_nth_error, Hlt.
Qed.

Lemma collect_ok rows q idxs :
  Forall (fun i => (i < length rows)%nat) idxs ->
  exists out,
    collect rows (sims np rows q) idxs = Ok out /\
    map Some out = map (hit_at np rows q) idxs.
Proof.
  induction 1 as [|idx idxs Hi _ [out [Hc Ho]]]; simpl.
  - exists []. split; reflexivity.
  - rewrite (sims_nth_error rows q idx Hi).
    destruct (nth_error rows idx) as [r|] eqn:Hr.
    + rewrite Hc. eexists; split; [reflexivity|].
      simpl. rewrite Ho. unfold hit_at at 2. rewrite Hr. reflexivity.
    + apply nth_error_None in Hr. lia.
Qed.

Variable argsort : list F32.t -> list nat.
Hypothesis argsort_sorts : sorts argsort.

(** What [search] returns on a table of the query's dimension: the hits
    at the first positions of the argsort, as cut by the slice. *)
Lemma search_ok (s : store) (q : list F64.t) (top_k : Z) :
  shapes_agree s q = true ->
  exists out,
    search argsort np s q top_k = Ok out /\
    map Some out =
      map (hit_at np s q)
          (if truthy s
           then slice_to (argsort (map F32.neg (sims np s q))) top_k
           else []).
Proof.
  intros Hsh. unfold search, all. destruct (truthy s) eqn:Hs; simpl.
  - rewrite Hsh. simpl. apply collect_ok.
    apply Forall_forall. intros i Hi. apply slice_incl in Hi.
    destruct (argsort_sorts (map F32.neg (sims np s q))) as [Hp _].
    apply (Permutation_in _ Hp) in Hi. apply in_seq in Hi.
    rewrite length_map, sims_length in Hi. lia.
  - exists []. split; reflexivity.
Qed.

Lemma nth_neg (ss : list F32.t) i :
  nth i (map F32.neg ss) F32.nan = F32.neg (nth i ss F32.nan).
Proof. change F32.nan with (F32.neg F32.nan) at 1. apply map_nth. Qed.

(** The hits come out in descending order of score. *)
Lemma hits_descending (s : store) (q : list F64.t) (idxs : list nat)
    (out : list hit) :
  map Some out = map (hit_at np s q) idxs ->
  StronglySorted
    (fun i j => F32.npy_lt (nth j (map F32.neg (sims np s q)) F32.nan)
                           (nth i (map F32.neg (sims np s q)) F32.nan) = false)
    idxs ->
  StronglySorted
    (fun h1 h2 => F32.descending (h_score h1) (h_score h2) = true) out.
Proof.
  intros Ho. apply map_Some_Forall2 in Ho.
  refine (StronglySorted_pairs _ _ _ _ _ _ Ho).
  intros i j h1 h2 H1 H2 HR.
  apply hit_at_score in H1, H2. destruct H1 as [-> _], H2 as [-> _].
  rewrite !nth_neg in HR. apply sorted_neg_descending, HR.
Qed.

Lemma argsort_NoDup v : NoDup (argsort v).
Proof.
  destruct (argsort_sorts v) as [Hp _].
  apply (Permutation_NoDup (Permutation_sym Hp)). apply seq_NoDup.
Qed.

Lemma argsort_length v : length (argsort v) = length v.
Proof.
  destruct (argsort_sorts v) as [Hp _].
  rewrite (Permutation_length Hp). apply length_seq.
Qed.

End SearchFacts.

Section SearchResults.

Import Py VectorStore.

Lemma slice_to_zero {A} (l : list A) : slice_to l 0 = [].
Proof.
  unfold slice_to, slice, adjust, len. simpl.
  replace (Z.min 0 (Z.of_nat (length l))) with 0 by lia. reflexivity.
Qed.

Lemma slice_to_length {A} (l : list A) (k : Z) :
  0 <= k -> len (slice_to l k) = Z.min k (len l).
Proof.
  intros Hk. rewrite <- (Z2Nat.id k) by assumption.
  rewrite slice_to_nat. unfold len. rewrite length_firstn. lia.
Qed.

Lemma slice_to_all {A} (l : list A) (k : Z) :
  len l <= k -> slice_to l k = l.
Proof.
  intros Hk. unfold len in Hk. rewrite <- (Z2Nat.id k) by lia.
  rewrite slice_to_nat. apply firstn_all2. lia.
Qed.

(** The kernels that accumulate from left to right are exact where no
    rounding takes place. *)
Lemma sequential_exact : Numpy.exact Numpy.sequential.
Proof.
  split; [|split].
  - intros mat query i r Hr _ _. left. simpl.
    rewrite (nth_error_nth _ _ _ Hr). reflexivity.
  - intros mat i r Hr _. simpl. rewrite (nth_error_nth _ _ _ Hr). reflexivity.
  - reflexivity.
Qed.

(** A number that is the same as a non-zero number is that number. *)
Lemma same_nonzero x y : F32.same x y -> F32.is_zero y = false -> x = y.
Proof. intros [H|[_ H]] Hy; [exact H|congruence]. Qed.

Lemma same_zero x y :
  F32.same x y -> F32.is_zero y = true -> exists sb, x = S754_zero sb.
Proof.
  intros [H|[H _]] Hy; [rewrite <- H in Hy|];
    (destruct x as [sb| | |]; try discriminate; exists sb; reflexivity).
Qed.

(** The scores of the three example vectors against the query [[1,0]]:
    1.0, a zero and 11863283 / 2^24. *)
Lemma sims_three (np : Numpy.kernels) :
  Numpy.exact np ->
  exists sb,
    sims np three_vectors [F64.of_Z 1; F64.of_Z 0] =
      [S754_finite false 8388608 (-23); S754_zero sb;
       S754_finite false 11863283 (-24)].
Proof.
  intros [Hm [Hr Hq]].
  set (one := S754_finite false 8388608 (-23)).
  set (zero := S754_zero false).
  set (mat := matrix three_vectors).
  set (q32 := F32.array [F64.of_Z 1; F64.of_Z 0]).
  assert (Hmat : mat = [[one; zero]; [zero; one]; [one; one]])
    by (vm_compute; reflexivity).
  assert (Hq32 : q32 = [one; zero]) by (vm_compute; reflexivity).
  assert (Hrow : forall i r,
             nth_error [[one; zero]; [zero; one]; [one; one]] i = Some r ->
             F32.same (Numpy.matmul np mat q32 i) (F32.dot r q32)).
  { intros i r Hi. apply Hm; [rewrite Hmat; exact Hi| |].
    - destruct i as [|[|[|[|i]]]]; try discriminate Hi;
        injection Hi as <-; rewrite Hq32; reflexivity.
    - destruct i as [|[|[|[|i]]]]; try discriminate Hi;
        injection Hi as <-; vm_compute; reflexivity. }
  assert (M0 : Numpy.matmul np mat q32 0 = one).
  { pose proof (Hrow 0%nat _ eq_refl) as H.
    assert (Hd : F32.dot [one; zero] q32 = one) by (vm_compute; reflexivity).
    rewrite Hd in H. apply (same_nonzero _ _ H). reflexivity. }
  assert (M1 : exists sb, Numpy.matmul np mat q32 1 = S754_zero sb).
  { pose proof (Hrow 1%nat _ eq_refl) as H.
    assert (Hd : F32.dot [zero; one] q32 = zero) by (vm_compute; reflexivity).
    rewrite Hd in H. apply (same_zero _ _ H). reflexivity. }
  assert (M2 : Numpy.matmul np mat q32 2 = one).
  { pose proof (Hrow 2%nat _ eq_refl) as H.
    assert (Hd : F32.dot [one; one] q32 = one) by (vm_compute; reflexivity).
    rewrite Hd in H. apply (same_nonzero _ _ H). reflexivity. }
  assert (N0 : Numpy.norm_rows np mat 0 = one).
  { rewrite (Hr mat 0%nat [one; zero]);
      [|rewrite Hmat; reflexivity|]; vm_compute; reflexivity. }
  assert (N1 : Numpy.norm_rows np mat 1 = one).
  { rewrite (Hr mat 1%nat [zero; one]);
      [|rewrite Hmat; reflexivity|]; vm_compute; reflexivity. }
  assert (N2 : Numpy.norm_rows np mat 2
               = S754_finite false 11863283 (-23)).
  { rewrite (Hr mat 2%nat [one; one]);
      [|rewrite Hmat; reflexivity|]; vm_compute; reflexivity. }
  assert (NQ : Numpy.norm np q32 = one).
  { rewrite Hq by (vm_compute; reflexivity). vm_compute; reflexivity. }
  destruct M1 as [sb M1]. exists sb.
  unfold sims. fold mat q32.
  change (seq 0 (length three_vectors)) with [0; 1; 2]%nat.
  cbn [map]. unfold score. rewrite M0, M1, M2, N0, N1, N2, NQ.
  destruct sb; vm_compute; reflexivity.
Qed.

(** The only order of three positions that sorts the negated scores of
    the three example vectors. *)
Lemma three_sorted (l : list nat) (v : list F32.t) (sb : bool) :
  v = map F32.neg [S754_finite false 8388608 (-23); S754_zero sb;
                   S754_finite false 11863283 (-24)] ->
  Permutation l (seq 0 (length v)) ->
  StronglySorted
    (fun i j => F32.npy_lt (nth j v F32.nan) (nth i v F32.nan) = false) l ->
  l = [0; 2; 1]%nat.
Proof.
  intros -> Hp Hs.
  pose proof (Permutation_length Hp) as Hl.
  assert (Hin : forall x, In x l -> (x = 0 \/ x = 1 \/ x = 2)%nat).
  { intros x Hx. apply (Permutation_in _ Hp) in Hx. simpl in Hx.
    intuition auto. }
  assert (Hnd : NoDup l)
    by (apply (Permutation_NoDup (Permutation_sym Hp)), seq_NoDup).
  destruct l as [|a [|b [|c [|d l]]]]; try discriminate Hl.
  assert (Ha := Hin a (or_introl eq_refl)).
  assert (Hb := Hin b (or_intror (or_introl eq_refl))).
  assert (Hc := Hin c (or_intror (or_intror (or_introl eq_refl)))).
  inversion Hs as [|? ? Hs1 Hf1]; subst.
  inversion Hs1 as [|? ? Hs2 Hf2]; subst.
  inversion Hf1 as [|? ? Hab Hf1']; subst.
  inversion Hf1' as [|? ? Hac _]; subst.
  inversion Hf2 as [|? ? Hbc _]; subst.
  inversion Hnd as [|? ? Hna Hnd1]; subst.
  inversion Hnd1 as [|? ? Hnb _]; subst.
  simpl in Hna, Hnb.
  destruct Ha as [ -> | [ -> | -> ] ], Hb as [ -> | [ -> | -> ] ],
    Hc as [ -> | [ -> | -> ] ];
    try reflexivity; try (exfalso; tauto);
    destruct sb; vm_compute in Hab, Hac, Hbc; discriminate.
Qed.

(** A table that is not empty and does not have the query's dimension
    makes NumPy raise before anything is ranked. *)
Lemma search_raises (argsort : list F32.t -> list nat) (np : Numpy.kernels)
    (s : store) (q : list F64.t) (top_k : Z) :
  s <> [] -> shapes_agree s q = false ->
  search argsort np s q top_k = Raise ValueError.
Proof.
  intros Hs Hsh. unfold search, all.
  destruct s; [congruence|]. cbn [truthy negb]. rewrite Hsh. reflexivity.
Qed.

End SearchResults.

(** C4, as stated, fails for a query of another dimension: the table
    of the three example vectors is not empty, a query of three
    components does not have its dimension, and [search] raises
    [ValueError] instead of ranking, whatever sorts and whatever kernels
    reduce. *)
Lemma search_ranks_nothing_on_other_dimension :
  VectorStore.shapes_agree VectorStore.three_vectors
    [F64.of_Z 1; F64.of_Z 0; F64.of_Z 0] = false /\
  forall (argsort : list F32.t -> list nat) (np : Numpy.kernels),
    VectorStore.search argsort np VectorStore.three_vectors
                       [F64.of_Z 1; F64.of_Z 0; F64.of_Z 0] 2
    = Raise ValueError.
Proof.
  split; [reflexivity|]. intros argsort np.
  apply search_raises; [discriminate|reflexivity].
Qed.

(** C4, amended: on a table whose embeddings have the query's dimension,
    [search] returns hits for distinct rows of the table; each hit has the
    id, doc_id, chunk_id, text and metadata of its row and the score
    [(matrix @ query)[i] / (norm(matrix, axis=1)[i] * norm(query) + 1e-12)]
    of that row, divided, multiplied and added in binary32, and the hits
    are in descending order of score.  A table that is not empty and has
    another dimension makes the call raise [ValueError].  On the vectors
    [[1,0]], [[0,1]], [[1,1]] with the query [[1,0]] and [top_k = 2],
    with kernels that are exact where nothing is rounded, it returns the
    [[1,0]] record with score 1.0, then the [[1,1]] record with score
    11863283 / 2^24 (between 0.7071067 and 0.7071068), and not the
    [[0,1]] record.  This holds for any sorting routine that sorts. *)
Theorem search_ranks_by_cosine :
  forall (argsort : list F32.t -> list nat) (np : Numpy.kernels),
    VectorStore.sorts argsort ->
    (forall (s : VectorStore.store) (q : list F64.t) (top_k : Z),
        VectorStore.shapes_agree s q = true ->
        exists (idxs : list nat) (out : list VectorStore.hit),
          VectorStore.search argsort np s q top_k = Ok out /\
          NoDup idxs /\
          Forall2
            (fun idx h =>
               exists r : VectorStore.row,
                 nth_error s idx = Some r /\
                 VectorStore.h_id h = VectorStore.id r /\
                 VectorStore.h_doc_id h = VectorStore.doc_id r /\
                 VectorStore.h_chunk_id h = VectorStore.chunk_id r /\
                 VectorStore.h_text h = VectorStore.text r /\
                 VectorStore.h_meta h = VectorStore.meta r /\
                 VectorStore.h_score h =
                   let mat :=
                     map (fun r => F32.array (VectorStore.embedding r)) s in
                   let q32 := F32.array q in
                   F32.div (Numpy.matmul np mat q32 idx)
                     (F32.add
                        (F32.mul (Numpy.norm_rows np mat idx)
                                 (Numpy.norm np q32))
                        (F32.of_f64 F64.lit_1e_12)))
            idxs out /\
          StronglySorted
            (fun h1 h2 =>
               F32.descending (VectorStore.h_score h1) (VectorStore.h_score h2)
               = true)
            out) /\
    (forall (s : VectorStore.store) (q : list F64.t) (top_k : Z),
        s <> [] ->
        VectorStore.shapes_agree s q = false ->
        VectorStore.search argsort np s q top_k = Raise ValueError) /\
    (Numpy.exact np ->
     VectorStore.search argsort np VectorStore.three_vectors
                        [F64.of_Z 1; F64.of_Z 0] 2 =
       Ok [ {| VectorStore.h_id := 1;
               VectorStore.h_doc_id := Py.of_string "A.pdf";
               VectorStore.h_chunk_id := 0;
               VectorStore.h_text := [];
               VectorStore.h_meta := VectorStore.no_meta;
               VectorStore.h_score := S754_finite false 8388608 (-23) |};
            {| VectorStore.h_id := 3;
               VectorStore.h_doc_id := Py.of_string "A.pdf";
               VectorStore.h_chunk_id := 2;
               VectorStore.h_text := [];
               VectorStore.h_meta := VectorStore.no_meta;
               VectorStore.h_score := S754_finite false 11863283 (-24) |} ]) /\
    F32.of_f64 (F64.of_Z 1) = S754_finite false 8388608 (-23) /\
    7071067 * 2 ^ 24 < 11863283 * 10 ^ 7 < 7071068 * 2 ^ 24.
Proof.
  intros argsort np Hsorts. split; [|split; [|split; [|split]]].
  - intros s q top_k Hsh.
    destruct (search_ok np argsort Hsorts s q top_k Hsh) as [out [Hs Ho]].
    exists (if Py.truthy s
            then Py.slice_to
                   (argsort (map F32.neg (VectorStore.sims np s q))) top_k
            else []), out.
    split; [exact Hs|]. split; [|split].
    + destruct (Py.truthy s); [|constructor].
      apply NoDup_slice, argsort_NoDup, Hsorts.
    + apply map_Some_Forall2 in Ho.
      eapply Forall2_impl; [|exact Ho].
      intros idx h Hh. apply hit_at_fields in Hh. exact Hh.
    + apply (hits_descending np s q _ out Ho).
      destruct (Py.truthy s); [|constructor].
      apply StronglySorted_slice. apply Hsorts.
  - intros s q top_k. apply search_raises.
  - intros Hexact.
    destruct (sims_three np Hexact) as [sb Hss].
    unfold VectorStore.search, VectorStore.all.
    change (Py.truthy VectorStore.three_vectors) with true.
    change (VectorStore.shapes_agree VectorStore.three_vectors
              [F64.of_Z 1; F64.of_Z 0]) with true.
    cbn [negb]. cbv zeta. rewrite Hss.
    match goal with
    | |- context [argsort ?v] =>
        destruct (Hsorts v) as [Hp Hsorted];
        rewrite (three_sorted _ _ sb eq_refl Hp Hsorted)
    end.
    destruct sb; vm_compute; reflexivity.
  - vm_compute. reflexivity.
  - vm_compute. split; reflexivity.
Qed.

Lemma search_ranks_by_cosine_witness :
  (exists (idxs : list nat) (out : list VectorStore.hit),
      VectorStore.search VectorStore.argsort_stable Numpy.sequential
                         VectorStore.three_vectors
                         [F64.of_Z 1; F64.of_Z 0] 2 = Ok out /\
      NoDup idxs /\ length idxs = length out) /\
  VectorStore.search VectorStore.argsort_stable Numpy.sequential
                     VectorStore.three_vectors [F64.of_Z 1; F64.of_Z 0] 2 =
    Ok [ {| VectorStore.h_id := 1;
            VectorStore.h_doc_id := Py.of_string "A.pdf";
            VectorStore.h_chunk_id := 0;
            VectorStore.h_text := [];
            VectorStore.h_meta := VectorStore.no_meta;
            VectorStore.h_score := S754_finite false 8388608 (-23) |};
         {| VectorStore.h_id := 3;
            VectorStore.h_doc_id := Py.of_string "A.pdf";
            VectorStore.h_chunk_id := 2;
            VectorStore.h_text := [];
            VectorStore.h_meta := VectorStore.no_meta;
            VectorStore.h_score := S754_finite false 11863283 (-24) |} ].
Proof.
  destruct (search_ranks_by_cosine VectorStore.argsort_stable Numpy.sequential
              argsort_stable_sorts) as [Hall [_ [Hex _]]].
  split.
  - destruct (Hall VectorStore.three_vectors [F64.of_Z 1; F64.of_Z 0] 2
                eq_refl) as [idxs [out [Hs [Hnd [Hf _]]]]].
    exists idxs, out. split; [exact Hs|]. split; [exact Hnd|].
    apply (Forall2_length Hf).
  - apply Hex. exact sequential_exact.
Defined.

(** * How many hits, and which records *)

Section SearchCounts.

Import Py VectorStore.

Lemma map_Some_inj {A} (l1 l2 : list A) : map Some l1 = map Some l2 -> l1 = l2.
Proof.
  revert l2; induction l1 as [|a l1 IH]; intros [|b l2] H; simpl in H;
    try discriminate; auto.
  injection H as -> H. f_equal. auto.
Qed.

Lemma nth_error_positions {A} (l : list A) :
  map (nth_error l) (seq 0 (length l)) = map Some l.
Proof.
  induction l as [|a l IH]; simpl; [reflexivity|].
  f_equal. rewrite <- seq_shift, map_map. simpl. exact IH.
Qed.

(** Hits taken at a permutation of all positions are the records of the
    table, in another order. *)
Lemma hits_at_all_positions {R H T} (rf : R -> T) (hf : H -> T)
    (s : list R) (idxs : list nat) (out : list H) :
  Forall2 (fun idx h => exists r, nth_error s idx = Some r /\ hf h = rf r)
          idxs out ->
  Permutation idxs (seq 0 (length s)) ->
  Permutation (map hf out) (map rf s).
Proof.
  intros Hf Hp.
  assert (Ho : map Some (map hf out)
               = map (fun idx => option_map rf (nth_error s idx)) idxs).
  { clear Hp. induction Hf as [|idx h idxs out Hh _ IH]; simpl;
      [reflexivity|].
    destruct Hh as [r [Hr Hh]]. rewrite Hr, Hh, IH. reflexivity. }
  pose proof (Permutation_map
                (fun idx => option_map rf (nth_error s idx)) Hp) as Hm.
  rewrite <- Ho in Hm.
  rewrite <- (map_map (nth_error s) (option_map rf)) in Hm.
  rewrite nth_error_positions in Hm.
  assert (E : map (option_map rf) (map Some s) = map Some (map rf s))
    by (rewrite !map_map; reflexivity).
  rewrite E in Hm.
  apply Permutation_sym, Permutation_map_inv in Hm.
  destruct Hm as [l3 [Hl3 Hp3]]. apply map_Some_inj in Hl3. subst l3.
  exact Hp3.
Qed.

End SearchCounts.

(** C6, as stated, fails for a query of another dimension: with a
    positive [top_k] that exceeds the three records of the table,
    [search] raises [ValueError] instead of returning the three records,
    whatever sorts and whatever kernels reduce. *)
Lemma search_clamping_raises_on_other_dimension :
  (0 < 5 /\ Py.len VectorStore.three_vectors < 5) /\
  forall (argsort : list F32.t -> list nat) (np : Numpy.kernels),
    VectorStore.search argsort np VectorStore.three_vectors
                       [F64.of_Z 1; F64.of_Z 0; F64.of_Z 0] 5
    = Raise ValueError.
Proof.
  split; [split; reflexivity|]. intros argsort np.
  apply search_raises; [discriminate|reflexivity].
Qed.

(** C6, amended: on a table of [N] records whose embeddings have the
    query's dimension, [search] with a positive [top_k] returns exactly
    [min(top_k, N)] hits, each with the id, doc_id, chunk_id, text and
    metadata of the row at a distinct position of the table and with that
    row's score, in descending order of score; when [top_k >= N] the
    records returned are the [N] records of the table, each once.  On the
    empty table it returns the empty list for every query and every
    [top_k].  A table that is not empty and has another dimension makes
    the call raise [ValueError]. *)
Theorem search_returns_min_top_k :
  forall (argsort : list F32.t -> list nat) (np : Numpy.kernels),
    VectorStore.sorts argsort ->
    (forall (s : VectorStore.store) (q : list F64.t) (top_k : Z),
        0 < top_k ->
        VectorStore.shapes_agree s q = true ->
        exists (idxs : list nat) (out : list VectorStore.hit),
          VectorStore.search argsort np s q top_k = Ok out /\
          Py.len out = Z.min top_k (Py.len s) /\
          NoDup idxs /\
          Forall2
            (fun idx h =>
               exists r : VectorStore.row,
                 nth_error s idx = Some r /\
                 VectorStore.h_id h = VectorStore.id r /\
                 VectorStore.h_doc_id h = VectorStore.doc_id r /\
                 VectorStore.h_chunk_id h = VectorStore.chunk_id r /\
                 VectorStore.h_text h = VectorStore.text r /\
                 VectorStore.h_meta h = VectorStore.meta r /\
                 VectorStore.h_score h =
                   let mat :=
                     map (fun r => F32.array (VectorStore.embedding r)) s in
                   let q32 := F32.array q in
                   F32.div (Numpy.matmul np mat q32 idx)
                     (F32.add
                        (F32.mul (Numpy.norm_rows np mat idx)
                                 (Numpy.norm np q32))
                        (F32.of_f64 F64.lit_1e_12)))
            idxs out /\
          (Py.len s <= top_k ->
           Permutation
             (map (fun h =>
                     (VectorStore.h_id h, VectorStore.h_doc_id h,
                      VectorStore.h_chunk_id h, VectorStore.h_text h,
                      VectorStore.h_meta h)) out)
             (map (fun r =>
                     (VectorStore.id r, VectorStore.doc_id r,
                      VectorStore.chunk_id r, VectorStore.text r,
                      VectorStore.meta r)) s)) /\
          StronglySorted
            (fun h1 h2 =>
               F32.descending (VectorStore.h_score h1) (VectorStore.h_score h2)
               = true)
            out) /\
    (forall (q : list F64.t) (top_k : Z),
        VectorStore.search argsort np [] q top_k = Ok []) /\
    (forall (s : VectorStore.store) (q : list F64.t) (top_k : Z),
        s <> [] ->
        VectorStore.shapes_agree s q = false ->
        VectorStore.search argsort np s q top_k = Raise ValueError).
Proof.
  intros argsort np Hsorts.
  split; [|split; [reflexivity|intros s q top_k; apply search_raises]].
  intros s q top_k Hk Hsh.
  destruct (search_ok np argsort Hsorts s q top_k Hsh) as [out [Hs Ho]].
  set (idxs := if Py.truthy s
               then Py.slice_to
                      (argsort (map F32.neg (VectorStore.sims np s q))) top_k
               else []) in *.
  exists idxs, out. split; [exact Hs|].
  assert (Hlen : length (argsort (map F32.neg (VectorStore.sims np s q)))
                 = length s).
  { rewrite (argsort_length argsort Hsorts), length_map.
    apply sims_length. }
  assert (Hf : Forall2
                 (fun idx h =>
                    exists r : VectorStore.row,
                      nth_error s idx = Some r /\
                      VectorStore.h_id h = VectorStore.id r /\
                      VectorStore.h_doc_id h = VectorStore.doc_id r /\
                      VectorStore.h_chunk_id h = VectorStore.chunk_id r /\
                      VectorStore.h_text h = VectorStore.text r /\
                      VectorStore.h_meta h = VectorStore.meta r /\
                      VectorStore.h_score h =
                        VectorStore.score np (VectorStore.matrix s)
                                          (F32.array q) idx)
                 idxs out).
  { pose proof (map_Some_Forall2 _ _ _ Ho) as H.
    eapply Forall2_impl; [|exact H].
    intros idx h Hh. apply hit_at_fields in Hh. exact Hh. }
  split; [|split; [|split; [exact Hf|split]]].
  - unfold Py.len at 1. rewrite <- (length_map Some out), Ho, length_map.
    subst idxs.
    destruct s as [|r s]; [unfold Py.len; simpl; lia|]. cbn [Py.truthy].
    fold (Py.len (Py.slice_to
                    (argsort (map F32.neg (VectorStore.sims np (r :: s) q)))
                    top_k)).
    rewrite slice_to_length by lia. unfold Py.len. rewrite Hlen. reflexivity.
  - subst idxs. destruct (Py.truthy s); [|constructor].
    apply NoDup_slice, argsort_NoDup, Hsorts.
  - intros Hall.
    apply (hits_at_all_positions
             (fun r =>
                (VectorStore.id r, VectorStore.doc_id r,
                 VectorStore.chunk_id r, VectorStore.text r,
                 VectorStore.meta r))
             (fun h =>
                (VectorStore.h_id h, VectorStore.h_doc_id h,
                 VectorStore.h_chunk_id h, VectorStore.h_text h,
                 VectorStore.h_meta h))
             s idxs out).
    + eapply Forall2_impl; [|exact Hf].
      intros idx h [r [Hr [H1 [H2 [H3 [H4 [H5 _]]]]]]].
      exists r. split; [exact Hr|]. cbv beta. congruence.
    + subst idxs. destruct s as [|r s]; [reflexivity|]. cbn [Py.truthy].
      rewrite slice_to_all by (unfold Py.len in *; rewrite Hlen; exact Hall).
      destruct (Hsorts (map F32.neg (VectorStore.sims np (r :: s) q)))
        as [Hp _].
      rewrite length_map, sims_length in Hp. exact Hp.
  - apply (hits_descending np s q _ out Ho).
    subst idxs. destruct (Py.truthy s); [|constructor].
    apply StronglySorted_slice. apply Hsorts.
Qed.

Lemma search_returns_min_top_k_witness :
  exists out : list VectorStore.hit,
    VectorStore.search VectorStore.argsort_stable Numpy.sequential
                       VectorStore.three_vectors
                       [F64.of_Z 1; F64.of_Z 0] 5 = Ok out /\
    Py.len out = Z.min 5 (Py.len VectorStore.three_vectors) /\
    Permutation
      (map (fun h =>
              (VectorStore.h_id h, VectorStore.h_doc_id h,
               VectorStore.h_chunk_id h, VectorStore.h_text h,
               VectorStore.h_meta h)) out)
      (map (fun r =>
              (VectorStore.id r, VectorStore.doc_id r,
               VectorStore.chunk_id r, VectorStore.text r,
               VectorStore.meta r)) VectorStore.three_vectors).
Proof.
  destruct (proj1 (search_returns_min_top_k VectorStore.argsort_stable
                     Numpy.sequential argsort_stable_sorts)
              VectorStore.three_vectors [F64.of_Z 1; F64.of_Z 0] 5)
    as [idxs [out [Hs [Hl [_ [_ [Hp _]]]]]]].
  - reflexivity.
  - reflexivity.
  - exists out. split; [exact Hs|]. split; [exact Hl|].
    apply Hp. vm_compute. discriminate.
Defined.

(** * The chunk store *)

Section StoreFacts.

Import Py VectorStore.

Lemma last_id_app (s : store) (r : row) :
  last_id (s ++ [r]) = Z.max (last_id s) (id r).
Proof.
  unfold last_id. rewrite map_app, fold_right_app. simpl.
  induction (map id s) as [|x l IH]; simpl; lia.
Qed.

Lemma last_id_bound (s : store) :
  0 <= last_id s /\ Forall (fun r => id r <= last_id s) s.
Proof.
  unfold last_id. induction s as [|r s [IH0 IH]]; simpl.
  - split; [lia|constructor].
  - split; [lia|]. constructor; [lia|].
    eapply Forall_impl; [|exact IH]. simpl. intros; lia.
Qed.

(** [executemany] appends one row per tuple, in order, with the tuple's
    columns, and gives the rows consecutive fresh ids. *)
Lemma insert_all_spec rows :
  forall s : store,
    exists new : list row,
      insert_all s rows = s ++ new /\
      map row_data new = rows /\
      map id new =
        map (fun k => last_id s + 1 + Z.of_nat k) (seq 0 (length rows)).
Proof.
  induction rows as [|[[[[d c] t] m] e] rows IH]; intros s; simpl.
  - exists []. rewrite app_nil_r. repeat split.
  - destruct (IH (s ++ [{| id := last_id s + 1; doc_id := d; chunk_id := c;
                           text := t; meta := m; embedding := e |}]))
      as [new [Hi [Hd Hid]]].
    eexists (_ :: new). rewrite Hi, <- app_assoc. simpl.
    split; [reflexivity|]. split; [rewrite Hd; reflexivity|].
    cbn [id]. f_equal; [lia|]. rewrite Hid, last_id_app. cbn [id].
    pose proof (last_id_bound s) as [H0 _].
    rewrite <- seq_shift, map_map. apply map_ext. intros k. lia.
Qed.

Lemma new_rows_length doc chunks metadatas embeddings :
  length chunks = length metadatas ->
  length metadatas = length embeddings ->
  length (new_rows doc chunks metadatas embeddings) = length chunks.
Proof.
  intros H1 H2. unfold new_rows, enumerate.
  rewrite length_map, enumerate_from_length, !length_combine. lia.
Qed.

Lemma enumerate_from_combine {A} (l : list A) n :
  enumerate_from n l = combine (seq n (length l)) l.
Proof. revert n; induction l; intros; simpl; f_equal; auto. Qed.

Lemma combine_fst {A B} (la : list A) (lb : list B) :
  length la = length lb -> map fst (combine la lb) = la.
Proof.
  revert lb; induction la; intros [|b lb] H; simpl in *; try discriminate;
    f_equal; auto.
Qed.

Lemma combine_snd {A B} (la : list A) (lb : list B) :
  length la = length lb -> map snd (combine la lb) = lb.
Proof.
  revert lb; induction la; intros [|b lb] H; simpl in *; try discriminate;
    f_equal; auto.
Qed.

(** The columns of the tuples [add_many] builds from lists of one length. *)
Lemma rows_from_columns (doc : str) :
  forall chunks metadatas embeddings n,
    length chunks = length metadatas ->
    length metadatas = length embeddings ->
    let rows :=
      map (fun '((i, (t, (m, e))) : nat * (str * (metadata * list F64.t))) =>
             (doc, Z.of_nat i, t, m, e))
          (enumerate_from n (combine chunks (combine metadatas embeddings))) in
    map (fun x => fst (fst (fst (fst x)))) rows = repeat doc (length chunks) /\
    map (fun x => snd (fst (fst (fst x)))) rows =
      map Z.of_nat (seq n (length chunks)) /\
    map (fun x => snd (fst (fst x))) rows = chunks /\
    map (fun x => snd (fst x)) rows = metadatas /\
    map (fun x => snd x) rows = embeddings.
Proof.
  induction chunks as [|t chunks IH]; intros [|m metadatas] [|e embeddings] n
    H1 H2; simpl in *; try discriminate.
  - repeat split.
  - destruct (IH metadatas embeddings (S n)) as [C1 [C2 [C3 [C4 C5]]]];
      try congruence.
    repeat split; f_equal; assumption.
Qed.

Lemma new_rows_columns doc chunks metadatas embeddings :
  length chunks = length metadatas ->
  length metadatas = length embeddings ->
  let rows := new_rows doc chunks metadatas embeddings in
  map (fun x => fst (fst (fst (fst x)))) rows = repeat doc (length chunks) /\
  map (fun x => snd (fst (fst (fst x)))) rows =
    map Z.of_nat (seq 0 (length chunks)) /\
  map (fun x => snd (fst (fst x))) rows = chunks /\
  map (fun x => snd (fst x)) rows = metadatas /\
  map (fun x => snd x) rows = embeddings.
Proof. intros H1 H2. apply (rows_from_columns doc _ _ _ 0%nat H1 H2). Qed.

(** What a successful [add_many] leaves: the old table followed by one
    row per chunk, in order. *)
Lemma add_many_ok (s : store) doc chunks metadatas embeddings :
  length chunks = length metadatas ->
  length metadatas = length embeddings ->
  exists new : list row,
    add_many s doc chunks metadatas embeddings = (s ++ new, Ok tt) /\
    map doc_id new = repeat doc (length chunks) /\
    map chunk_id new = map Z.of_nat (seq 0 (length chunks)) /\
    map text new = chunks /\
    map meta new = metadatas /\
    map embedding new = embeddings /\
    map id new =
      map (fun k => last_id s + 1 + Z.of_nat k) (seq 0 (length chunks)).
Proof.
  intros H1 H2. unfold add_many.
  rewrite H1, H2, !Nat.eqb_refl. simpl.
  destruct (insert_all_spec (new_rows doc chunks metadatas embeddings) s)
    as [new [Hi [Hd Hid]]].
  destruct (new_rows_columns doc chunks metadatas embeddings H1 H2)
    as [C1 [C2 [C3 [C4 C5]]]].
  exists new. rewrite Hi. split; [reflexivity|].
  rewrite <- Hd in C1, C2, C3, C4, C5. rewrite !map_map in *.
  rewrite <- H2, <- H1 in *.
  rewrite new_rows_length in Hid by congruence.
  repeat split; assumption.
Qed.

Lemma add_many_raises (s : store) doc chunks metadatas embeddings :
  ~ (length chunks = length metadatas /\
     length metadatas = length embeddings) ->
  add_many s doc chunks metadatas embeddings = (s, Raise AssertionError).
Proof.
  intros H. unfold add_many.
  destruct (Nat.eqb_spec (length chunks) (length metadatas));
    destruct (Nat.eqb_spec (length metadatas) (length embeddings));
    simpl; try reflexivity.
  exfalso; auto.
Qed.

End StoreFacts.

(** C7: called with [chunks], [metadatas] and [embeddings] that are not
    all of one length, [add_many] raises (its assertion fails) and the
    table is left as it was: no row is persisted. *)
Theorem add_many_mismatch_persists_nothing :
  forall (s : VectorStore.store) (doc : Py.str) (chunks : list Py.str)
         (metadatas : list VectorStore.metadata)
         (embeddings : list (list F64.t)),
    ~ (length chunks = length metadatas /\
       length metadatas = length embeddings) ->
    VectorStore.add_many s doc chunks metadatas embeddings =
      (s, Raise AssertionError) /\
    VectorStore.all (fst (VectorStore.add_many s doc chunks metadatas embeddings))
      = VectorStore.all s.
Proof.
  intros s doc chunks metadatas embeddings H.
  rewrite (add_many_raises s doc chunks metadatas embeddings H).
  split; reflexivity.
Qed.

Lemma add_many_mismatch_persists_nothing_witness :
  VectorStore.add_many VectorStore.three_vectors (Py.of_string "A.pdf")
    [Py.of_string "a"; Py.of_string "b"] [VectorStore.no_meta]
    [[F64.of_Z 1]; [F64.of_Z 0]] =
    (VectorStore.three_vectors, Raise AssertionError) /\
  VectorStore.all
    (fst (VectorStore.add_many VectorStore.three_vectors (Py.of_string "A.pdf")
            [Py.of_string "a"; Py.of_string "b"] [VectorStore.no_meta]
            [[F64.of_Z 1]; [F64.of_Z 0]])) =
    VectorStore.all VectorStore.three_vectors.
Proof.
  apply (add_many_mismatch_persists_nothing VectorStore.three_vectors
           (Py.of_string "A.pdf") [Py.of_string "a"; Py.of_string "b"]
           [VectorStore.no_meta] [[F64.of_Z 1]; [F64.of_Z 0]]).
  simpl. lia.
Defined.

(** C9: one call of [add_many] with [n] chunks (and as many metadatas and
    embeddings) appends [n] rows whose [chunk_id]s are [0, 1, ..., n-1],
    the position of each chunk in the call's batch, whatever rows the
    table already holds, also for the same [doc_id]. *)
Theorem add_many_chunk_ids_are_batch_positions :
  forall (s : VectorStore.store) (doc : Py.str) (chunks : list Py.str)
         (metadatas : list VectorStore.metadata)
         (embeddings : list (list F64.t)),
    length chunks = length metadatas ->
    length metadatas = length embeddings ->
    exists new : list VectorStore.row,
      VectorStore.add_many s doc chunks metadatas embeddings =
        (s ++ new, Ok tt) /\
      map VectorStore.chunk_id new = map Z.of_nat (seq 0 (length chunks)) /\
      map VectorStore.doc_id new = repeat doc (length chunks) /\
      map VectorStore.text new = chunks.
Proof.
  intros s doc chunks metadatas embeddings H1 H2.
  destruct (add_many_ok s doc chunks metadatas embeddings H1 H2)
    as [new [Ha [Hd [Hc [Ht _]]]]].
  exists new. repeat split; assumption.
Qed.

Lemma add_many_chunk_ids_are_batch_positions_witness :
  exists new : list VectorStore.row,
    VectorStore.add_many VectorStore.three_vectors (Py.of_string "A.pdf")
      [Py.of_string "a"; Py.of_string "b"]
      [VectorStore.no_meta; VectorStore.no_meta]
      [[F64.of_Z 1]; [F64.of_Z 0]] =
      (VectorStore.three_vectors ++ new, Ok tt) /\
    map VectorStore.chunk_id new = map Z.of_nat (seq 0 2) /\
    map VectorStore.doc_id new = repeat (Py.of_string "A.pdf") 2 /\
    map VectorStore.text new = [Py.of_string "a"; Py.of_string "b"].
Proof.
  apply (add_many_chunk_ids_are_batch_positions VectorStore.three_vectors
           (Py.of_string "A.pdf") [Py.of_string "a"; Py.of_string "b"]
           [VectorStore.no_meta; VectorStore.no_meta]
           [[F64.of_Z 1]; [F64.of_Z 0]]); reflexivity.
Defined.

(** * The indexing pipeline *)

Section BatchFacts.

Import Py VectorStore Indexer.

Lemma firstn_add {A} (l : list A) n m :
  firstn (n + m) l = firstn n l ++ firstn m (skipn n l).
Proof.
  revert l; induction n as [|n IH]; intros [|x l]; simpl; auto.
  - rewrite firstn_nil; reflexivity.
  - f_equal; apply IH.
Qed.

Lemma skipn_add {A} (l : list A) n m :
  skipn (n + m) l = skipn m (skipn n l).
Proof.
  revert l; induction n as [|n IH]; intros [|x l]; simpl; auto.
  rewrite skipn_nil; reflexivity.
Qed.

(** The batch that starts at chunk [i]. *)
Lemma batch_slice {A} (l : list A) (i : nat) :
  slice l (Z.of_nat i) (Z.of_nat i + Z.of_nat BATCH) = firstn BATCH (skipn i l).
Proof. apply slice_nat. Qed.

(** The batches from [a] to the end of the list make up the list from [a]. *)
Lemma batches_cover_gen {A} (l : list A) (b : nat) :
  (0 < b)%nat ->
  forall n a, (length l - a <= n)%nat ->
    flat_map (fun i => firstn b (skipn i l)) (range a (length l) b)
    = skipn a l.
Proof.
  intros Hb. induction n as [|n IH]; intros a Hn.
  - rewrite range_nil by lia. rewrite skipn_all2 by lia. reflexivity.
  - destruct (Nat.le_gt_cases (length l) a) as [Ha|Ha].
    + rewrite range_nil by lia. rewrite skipn_all2 by lia. reflexivity.
    + rewrite range_cons by lia. cbn [flat_map].
      rewrite IH by lia.
      rewrite skipn_add. apply firstn_skipn.
Qed.

Lemma batches_cover {A} (l : list A) (a : nat) :
  flat_map (fun i => firstn BATCH (skipn i l)) (range a (length l) BATCH)
  = skipn a l.
Proof.
  apply (batches_cover_gen l BATCH) with (n := length l);
    [unfold BATCH|]; lia.
Qed.

(** The first [k] batches from [a], when batch [k] still starts inside
    the list. *)
Lemma range_split_gen total (b : nat) :
  (0 < b)%nat ->
  forall k a, (a + b * k < total)%nat ->
    range a total b =
    map (fun j => a + b * j)%nat (seq 0 k) ++ range (a + b * k) total b.
Proof.
  intros Hb. induction k as [|k IH]; intros a Hk.
  - cbn [seq map app]. rewrite Nat.mul_0_r, Nat.add_0_r. reflexivity.
  - rewrite range_cons by lia.
    rewrite (IH (a + b)%nat) by lia.
    cbn [seq map]. rewrite Nat.mul_0_r, Nat.add_0_r. cbn [app]. f_equal.
    rewrite <- seq_shift, map_map. f_equal.
    + apply map_ext. intros j. lia.
    + f_equal. lia.
Qed.

Lemma range_split total k a :
  (a + BATCH * k < total)%nat ->
  range a total BATCH =
  map (fun j => a + BATCH * j)%nat (seq 0 k) ++
  range (a + BATCH * k) total BATCH.
Proof. apply range_split_gen. unfold BATCH; lia. Qed.

Lemma first_batches_gen {A} (l : list A) (b : nat) :
  forall k a,
    flat_map (fun i => firstn b (skipn i l))
             (map (fun j => a + b * j)%nat (seq 0 k))
    = firstn (b * k) (skipn a l).
Proof.
  induction k as [|k IH]; intros a.
  - rewrite Nat.mul_0_r. reflexivity.
  - cbn [seq map flat_map]. rewrite Nat.mul_0_r, Nat.add_0_r.
    rewrite <- seq_shift, map_map.
    erewrite map_ext; [rewrite (IH (a + b)%nat)|intros j; cbv beta; lia].
    replace (b * S k)%nat with (b + b * k)%nat by lia.
    rewrite firstn_add, skipn_add. reflexivity.
Qed.

Lemma first_batches {A} (l : list A) k a :
  flat_map (fun i => firstn BATCH (skipn i l))
           (map (fun j => a + BATCH * j)%nat (seq 0 k))
  = firstn (BATCH * k) (skipn a l).
Proof. apply first_batches_gen. Qed.

Lemma count_app (s new : store) doc :
  _get_indexed_count (s ++ new) doc =
  (_get_indexed_count s doc + _get_indexed_count new doc)%nat.
Proof. unfold _get_indexed_count. rewrite filter_app, length_app. reflexivity. Qed.

Lemma count_all (new : store) doc :
  map doc_id new = repeat doc (length new) ->
  _get_indexed_count new doc = length new.
Proof.
  unfold _get_indexed_count. induction new as [|r new IH]; simpl; auto.
  intros H. injection H as Hr Hn. rewrite Hr, eqb_refl. simpl. auto.
Qed.

Lemma repeat_app_map {A B} (f : A -> B) (l1 l2 : list A) (b : B) :
  map f l1 = repeat b (length l1) -> map f l2 = repeat b (length l2) ->
  map f (l1 ++ l2) = repeat b (length (l1 ++ l2)).
Proof.
  intros H1 H2. rewrite map_app, length_app, repeat_app, H1, H2. reflexivity.
Qed.

Variable embed_texts : nat -> list str -> option (list (list F64.t)).
Variable path : str.
Variable chunks : list str.
Variable metadatas : list metadata.
Hypothesis metadatas_length : length metadatas = length chunks.

Lemma batch_lengths (i : nat) :
  length (firstn BATCH (skipn i metadatas)) =
  length (firstn BATCH (skipn i chunks)).
Proof. rewrite !length_firstn, !length_skipn, metadatas_length. reflexivity. Qed.

Lemma batch_rows_nil : batch_rows path chunks metadatas [] [].
Proof. repeat split. Qed.

Lemma batch_rows_cons i starts new1 new :
  map doc_id new1 = repeat path (length (firstn BATCH (skipn i chunks))) ->
  map chunk_id new1 =
    map Z.of_nat (seq 0 (length (firstn BATCH (skipn i chunks)))) ->
  map text new1 = firstn BATCH (skipn i chunks) ->
  map meta new1 = firstn BATCH (skipn i metadatas) ->
  batch_rows path chunks metadatas starts new ->
  batch_rows path chunks metadatas (i :: starts) (new1 ++ new).
Proof.
  intros Hd Hc Ht Hm [Hd' [Ht' [Hm' Hc']]].
  assert (Hl : length new1 = length (firstn BATCH (skipn i chunks)))
    by (rewrite <- Ht, length_map; reflexivity).
  repeat split; simpl.
  - apply repeat_app_map; [rewrite Hl|]; assumption.
  - rewrite map_app, Ht, Ht'. reflexivity.
  - rewrite map_app, Hm, Hm'. reflexivity.
  - rewrite map_app, Hc, Hc'. reflexivity.
Qed.

(** One pass of the loop whose request is answered. *)
Lemma batch_step_ok i rest st :
  answers embed_texts (calls st) (firstn BATCH (skipn i chunks)) ->
  exists new1,
    batch_loop embed_texts path chunks metadatas (i :: rest) st =
    batch_loop embed_texts path chunks metadatas rest
               {| db := db st ++ new1; calls := S (calls st) |} /\
    map doc_id new1 = repeat path (length (firstn BATCH (skipn i chunks))) /\
    map chunk_id new1 =
      map Z.of_nat (seq 0 (length (firstn BATCH (skipn i chunks)))) /\
    map text new1 = firstn BATCH (skipn i chunks) /\
    map meta new1 = firstn BATCH (skipn i metadatas).
Proof.
  intros [embs [He Hl]]. cbn [batch_loop]. rewrite !batch_slice, He.
  destruct (add_many_ok (db st) path (firstn BATCH (skipn i chunks))
              (firstn BATCH (skipn i metadatas)) embs)
    as [new1 [Ha [Hd [Hc [Ht [Hm _]]]]]].
  { symmetry. apply batch_lengths. }
  { rewrite batch_lengths. congruence. }
  rewrite Ha. exists new1. repeat split; assumption.
Qed.

(** One pass of the loop whose request fails: the table is untouched. *)
Lemma batch_step_fails i rest st :
  fails embed_texts (calls st) (firstn BATCH (skipn i chunks)) ->
  exists e,
    batch_loop embed_texts path chunks metadatas (i :: rest) st =
    ({| db := db st; calls := S (calls st) |}, Raise e).
Proof.
  intros Hf. cbn [batch_loop]. rewrite !batch_slice.
  destruct (embed_texts (calls st) (firstn BATCH (skipn i chunks)))
    as [embs|] eqn:He.
  - rewrite add_many_raises.
    + eexists; reflexivity.
    + intros [_ H]. apply (Hf embs He). rewrite <- H. apply batch_lengths.
  - eexists; reflexivity.
Qed.

(** When every request is answered the loop stores every batch. *)
Lemma batch_loop_answers :
  forall starts st,
    (forall j i, nth_error starts j = Some i ->
                 answers embed_texts (calls st + j)
                         (firstn BATCH (skipn i chunks))) ->
    exists new,
      batch_loop embed_texts path chunks metadatas starts st =
        ({| db := db st ++ new; calls := calls st + length starts |}, Ok tt) /\
      batch_rows path chunks metadatas starts new.
Proof.
  induction starts as [|i starts IH]; intros st Ha.
  - exists []. simpl. rewrite app_nil_r, Nat.add_0_r. destruct st.
    split; [reflexivity|apply batch_rows_nil].
  - destruct (batch_step_ok i starts st) as [new1 [Hs [Hd [Hc [Ht Hm]]]]].
    { specialize (Ha 0%nat i eq_refl). rewrite Nat.add_0_r in Ha. exact Ha. }
    destruct (IH {| db := db st ++ new1; calls := S (calls st) |})
      as [new [Hl Hr]].
    { intros j i' Hj. specialize (Ha (S j) i' Hj). simpl.
      replace (S (calls st + j)) with (calls st + S j)%nat by lia. exact Ha. }
    exists (new1 ++ new). rewrite Hs, Hl. simpl. rewrite <- app_assoc.
    replace (S (calls st + length starts)) with (calls st + S (length starts))%nat
      by lia.
    split; [reflexivity|]. apply batch_rows_cons; assumption.
Qed.

(** Whatever the provider does, a loop that ends without raising has
    stored every batch. *)
Lemma batch_loop_Ok_inv :
  forall starts st st' u,
    batch_loop embed_texts path chunks metadatas starts st = (st', Ok u) ->
    exists new,
      db st' = db st ++ new /\ batch_rows path chunks metadatas starts new.
Proof.
  induction starts as [|i starts IH]; intros st st' u H.
  - simpl in H. injection H as <-. exists []. rewrite app_nil_r.
    split; [reflexivity|apply batch_rows_nil].
  - cbn [batch_loop] in H. rewrite !batch_slice in H.
    destruct (embed_texts (calls st) (firstn BATCH (skipn i chunks)))
      as [embs|] eqn:He; [|discriminate].
    destruct (Nat.eq_dec (length embs)
                (length (firstn BATCH (skipn i chunks)))) as [Hl|Hl].
    + destruct (add_many_ok (db st) path (firstn BATCH (skipn i chunks))
                  (firstn BATCH (skipn i metadatas)) embs)
        as [new1 [Ha [Hd [Hc [Ht [Hm _]]]]]].
      { symmetry. apply batch_lengths. }
      { rewrite batch_lengths. congruence. }
      rewrite Ha in H. apply IH in H. destruct H as [new [Hdb Hr]].
      simpl in Hdb. exists (new1 ++ new). rewrite Hdb, <- app_assoc.
      split; [reflexivity|]. apply batch_rows_cons; assumption.
    + rewrite add_many_raises in H; [discriminate|].
      intros [_ Hc]. apply Hl. rewrite <- Hc. apply batch_lengths.
Qed.

(** The loop stops at the first failing request. *)
Lemma batch_loop_app starts1 starts2 st :
  batch_loop embed_texts path chunks metadatas (starts1 ++ starts2) st =
  match batch_loop embed_texts path chunks metadatas starts1 st with
  | (st1, Ok _) => batch_loop embed_texts path chunks metadatas starts2 st1
  | r => r
  end.
Proof.
  revert st; induction starts1 as [|i starts1 IH]; intros st.
  - reflexivity.
  - cbn [app batch_loop].
    destruct (embed_texts (calls st) _) as [embs|]; [|reflexivity].
    destruct (add_many _ _ _ _ _) as [db' [u|e]]; [apply IH|reflexivity].
Qed.

End BatchFacts.

Section DocumentFacts.

Import Py VectorStore Indexer.

Lemma chunk_text_per_page_total page_texts max_tokens overlap :
  exists chunks page_idxs,
    Chunker.chunk_text_per_page page_texts max_tokens overlap =
      Some (chunks, page_idxs) /\
    length page_idxs = length chunks.
Proof.
  eexists; eexists. split; [apply chunk_text_per_page_all|].
  rewrite !length_map. reflexivity.
Qed.

(** The chunking steps never exhaust the loop bound. *)
Lemma chunk_document_total (f : pdf) : exists c, chunk_document f = Some c.
Proof.
  unfold chunk_document. destruct (extract_text_from_pdf f) as [pt md].
  destruct (negb (truthy pt)); [eexists; reflexivity|].
  destruct md.
  - destruct (chunk_text_per_page_total pt 500 50) as [c [p [H _]]].
    rewrite H. eexists; reflexivity.
  - destruct (negb (truthy (hd [] pt))); [eexists; reflexivity|].
    destruct (chunk_text_per_page_total [hd [] pt] 500 50) as [c [p [H _]]].
    rewrite H. eexists; reflexivity.
Qed.

Lemma chunk_document_lengths (f : pdf) chunks page_idxs :
  chunk_document f = Some (Chunks chunks page_idxs) ->
  length page_idxs = length chunks.
Proof.
  unfold chunk_document. destruct (extract_text_from_pdf f) as [pt md].
  destruct (negb (truthy pt)); [discriminate|].
  destruct md.
  - destruct (chunk_text_per_page_total pt 500 50) as [c [p [H Hl]]].
    rewrite H. intros E; injection E as <- <-. exact Hl.
  - destruct (negb (truthy (hd [] pt))); [discriminate|].
    destruct (chunk_text_per_page_total [hd [] pt] 500 50) as [c [p [H Hl]]].
    rewrite H. intros E; injection E as <- <-. apply length_map.
Qed.

Lemma metadatas_of_length (f : pdf) page_idxs :
  length (metadatas_of f page_idxs) = length page_idxs.
Proof.
  unfold metadatas_of, enumerate.
  rewrite length_map, enumerate_from_length. reflexivity.
Qed.

(** The global chunk index each metadata carries. *)
Lemma metadatas_of_chunk_index (f : pdf) page_idxs :
  map chunk_index (metadatas_of f page_idxs) =
  map Z.of_nat (seq 0 (length page_idxs)).
Proof.
  unfold metadatas_of, enumerate. rewrite map_map.
  rewrite <- (enumerate_from_fst page_idxs 0), map_map.
  apply map_ext. intros [i p]. reflexivity.
Qed.

Variable embed_texts : nat -> list str -> option (list (list F64.t)).

(** The loop body on a file that has chunks left to index. *)
Lemma index_document_batches (f : pdf) (st : state) chunks page_idxs :
  chunk_document f = Some (Chunks chunks page_idxs) ->
  (_get_indexed_count (db st) (path f) < length chunks)%nat ->
  index_document embed_texts f st =
  match batch_loop embed_texts (path f) chunks (metadatas_of f page_idxs)
          (range (_get_indexed_count (db st) (path f)) (length chunks) BATCH) st
  with
  | (st', Ok _) => Some (st', Continue)
  | (st', Raise _) => Some (st', Return)
  end.
Proof.
  intros Hc Hlt. unfold index_document. rewrite Hc.
  destruct chunks as [|c chunks]; [simpl in Hlt; lia|]. cbn [truthy negb].
  destruct (Nat.leb_spec (length (c :: chunks))
              (_get_indexed_count (db st) (path f))); [lia|].
  reflexivity.
Qed.

(** The resume check: a file the table already covers is skipped, nothing
    is written and the provider is not called. *)
Lemma index_document_skips (f : pdf) (st : state) :
  fully_indexed f (db st) ->
  index_document embed_texts f st = Some (st, Continue).
Proof.
  intros Hf. unfold index_document.
  destruct (chunk_document_total f) as [c Hc]. rewrite Hc.
  destruct c as [|chunks page_idxs]; [reflexivity|].
  destruct (negb (truthy chunks)); [reflexivity|].
  specialize (Hf chunks page_idxs Hc).
  destruct (Nat.leb_spec (length chunks) (_get_indexed_count (db st) (path f)));
    [reflexivity|lia].
Qed.

Lemma fully_indexed_app (f : pdf) (s new : store) :
  fully_indexed f s -> fully_indexed f (s ++ new).
Proof.
  intros H chunks page_idxs Hc. specialize (H chunks page_idxs Hc).
  rewrite count_app. lia.
Qed.

Lemma batch_rows_length path chunks metadatas a new :
  batch_rows path chunks metadatas (range a (length chunks) BATCH) new ->
  length new = (length chunks - a)%nat.
Proof.
  intros [_ [Ht _]]. rewrite batches_cover in Ht.
  rewrite <- (length_map text), Ht. apply length_skipn.
Qed.

(** A file the loop body passes without returning is fully indexed
    afterwards, and the table has only grown, by rows of that file. *)
Lemma index_document_continue (f : pdf) (st st' : state) :
  index_document embed_texts f st = Some (st', Continue) ->
  exists new,
    db st' = db st ++ new /\
    map doc_id new = repeat (path f) (length new) /\
    fully_indexed f (db st').
Proof.
  intros H.
  destruct (chunk_document_total f) as [c Hc].
  assert (Hskip : st' = st -> fully_indexed f (db st) ->
                  exists new, db st' = db st ++ new /\
                    map doc_id new = repeat (path f) (length new) /\
                    fully_indexed f (db st')).
  { intros -> Hf. exists []. rewrite app_nil_r. repeat split. exact Hf. }
  unfold index_document in H. rewrite Hc in H.
  destruct c as [|chunks page_idxs].
  - injection H as <-. apply Hskip; [reflexivity|].
    intros ch pi Hch. congruence.
  - destruct chunks as [|c chunks].
    + injection H as <-. apply Hskip; [reflexivity|].
      intros ch pi Hch. rewrite Hc in Hch. injection Hch as <- <-. simpl; lia.
    + cbn [truthy negb] in H.
      destruct (Nat.leb_spec (length (c :: chunks))
                  (_get_indexed_count (db st) (path f))) as [Hle|Hlt].
      * injection H as <-. apply Hskip; [reflexivity|].
        intros ch pi Hch. rewrite Hc in Hch. injection Hch as <- <-. exact Hle.
      * fold (metadatas_of f page_idxs) in H.
        destruct (batch_loop _ _ _ _ _ _) as [st1 [u|e]] eqn:Hb;
          [|discriminate].
        injection H as <-.
        apply batch_loop_Ok_inv in Hb;
          [|rewrite metadatas_of_length;
            apply (chunk_document_lengths f _ _ Hc)].
        destruct Hb as [new [Hdb Hr]]. exists new.
        split; [exact Hdb|]. split; [apply Hr|].
        intros ch pi Hch. rewrite Hc in Hch. injection Hch as <- <-.
        rewrite Hdb, count_app.
        rewrite (count_all new) by apply Hr.
        rewrite (batch_rows_length _ _ _ _ _ Hr). lia.
Qed.

(** With a provider that answers every request, the loop body indexes
    the rest of the file and goes on. *)
Lemma index_document_reliable (f : pdf) (st : state) :
  reliable embed_texts ->
  exists st', index_document embed_texts f st = Some (st', Continue).
Proof.
  intros Hr. destruct (chunk_document_total f) as [c Hc].
  destruct c as [|chunks page_idxs].
  - exists st. unfold index_document. rewrite Hc. reflexivity.
  - destruct (Nat.le_gt_cases (length chunks)
                (_get_indexed_count (db st) (path f))) as [Hle|Hlt].
    + exists st. apply index_document_skips.
      intros ch pi Hch. rewrite Hc in Hch. injection Hch as <- <-. exact Hle.
    + rewrite (index_document_batches f st chunks page_idxs Hc Hlt).
      assert (Hlen : length (metadatas_of f page_idxs) = length chunks).
      { rewrite metadatas_of_length. apply (chunk_document_lengths f _ _ Hc). }
      destruct (batch_loop_answers embed_texts (path f) chunks
                  (metadatas_of f page_idxs) Hlen
                  (range (_get_indexed_count (db st) (path f))
                         (length chunks) BATCH) st)
        as [new [Hb _]].
      * intros j i _. apply Hr.
      * rewrite Hb. eexists; reflexivity.
Qed.

(** *** The loop over the files *)

Lemma index_files_app (files1 files2 : list pdf) (st : state) :
  index_files embed_texts (files1 ++ files2) st =
  match index_files embed_texts files1 st with
  | Some (st1, Continue) => index_files embed_texts files2 st1
  | r => r
  end.
Proof.
  revert st; induction files1 as [|f files1 IH]; intros st.
  - reflexivity.
  - cbn [app index_files].
    destruct (index_document embed_texts f st) as [[st1 [|]]|];
      [apply IH|reflexivity|reflexivity].
Qed.

Lemma index_files_skips (files : list pdf) (st : state) :
  Forall (fun f => fully_indexed f (db st)) files ->
  index_files embed_texts files st = Some (st, Continue).
Proof.
  induction 1 as [|f files Hf _ IH]; [reflexivity|].
  cbn [index_files]. rewrite index_document_skips by exact Hf. exact IH.
Qed.

Lemma index_files_continue (files : list pdf) :
  forall st st',
    index_files embed_texts files st = Some (st', Continue) ->
    exists new,
      db st' = db st ++ new /\
      Forall (fun r => In (doc_id r) (map path files)) new /\
      Forall (fun f => fully_indexed f (db st')) files.
Proof.
  induction files as [|f files IH]; intros st st' H.
  - injection H as <-. exists []. rewrite app_nil_r. repeat split; constructor.
  - cbn [index_files] in H.
    destruct (index_document embed_texts f st) as [[st1 [|]]|] eqn:Hd;
      try discriminate.
    apply index_document_continue in Hd.
    destruct Hd as [new1 [Hdb1 [Hid1 Hf1]]].
    apply IH in H. destruct H as [new [Hdb [Hid Hf]]].
    exists (new1 ++ new).
    split; [rewrite Hdb, Hdb1, <- app_assoc; reflexivity|]. split.
    + apply Forall_app. split.
      * apply Forall_forall. intros r Hr. left.
        assert (Hin : In (doc_id r) (map doc_id new1)) by (apply in_map, Hr).
        rewrite Hid1 in Hin. apply repeat_spec in Hin. auto.
      * eapply Forall_impl; [|exact Hid]. intros r Hr. right. exact Hr.
    + constructor; [|exact Hf].
      rewrite Hdb. apply fully_indexed_app. exact Hf1.
Qed.

Lemma index_files_reliable (files : list pdf) :
  reliable embed_texts ->
  forall st, exists st', index_files embed_texts files st = Some (st', Continue).
Proof.
  intros Hr. induction files as [|f files IH]; intros st.
  - exists st; reflexivity.
  - cbn [index_files].
    destruct (index_document_reliable f st Hr) as [st1 Hd]. rewrite Hd.
    apply IH.
Qed.

End DocumentFacts.

Section RunFacts.

Import Py VectorStore Indexer.

Lemma batch_firstn {A} (l : list A) (i : nat) :
  batch l i = firstn BATCH (skipn i l).
Proof. apply slice_nat. Qed.

Lemma seq_skipn t : forall a s, skipn a (seq s t) = seq (s + a) (t - a).
Proof.
  induction t as [|t IH]; intros a s.
  - rewrite skipn_nil. reflexivity.
  - destruct a as [|a]; simpl.
    + rewrite Nat.add_0_r. reflexivity.
    + rewrite IH. f_equal. lia.
Qed.

Lemma seq_firstn t : forall n s, (n <= t)%nat -> firstn n (seq s t) = seq s n.
Proof.
  induction t as [|t IH]; intros n s Hn.
  - replace n with 0%nat by lia. reflexivity.
  - destruct n as [|n]; [reflexivity|]. simpl. f_equal. apply IH. lia.
Qed.

(** The global chunk indices of the metadata from [a] on. *)
Lemma chunk_index_skipn (f : pdf) page_idxs a :
  map chunk_index (skipn a (metadatas_of f page_idxs)) =
  map Z.of_nat (seq a (length page_idxs - a)).
Proof.
  rewrite <- skipn_map, metadatas_of_chunk_index, skipn_map, seq_skipn.
  reflexivity.
Qed.

Lemma chunk_index_firstn (f : pdf) page_idxs a n :
  (a + n <= length page_idxs)%nat ->
  map chunk_index (firstn n (skipn a (metadatas_of f page_idxs))) =
  map Z.of_nat (seq a n).
Proof.
  intros H. rewrite <- firstn_map, chunk_index_skipn, firstn_map.
  rewrite seq_firstn by lia. reflexivity.
Qed.

Lemma Py_range_cons_batch a total :
  (a < total)%nat ->
  range a total BATCH = a :: range (a + BATCH) total BATCH.
Proof. intros H. apply range_cons; [exact H|unfold BATCH; lia]. Qed.

End RunFacts.

(** C2: with a provider that answers every request, [index_pdfs] ends with
    every file fully indexed (the stored count of its [doc_id] is at least
    its number of chunks); the resume check then skips such a file without
    writing or calling the provider, so a second run over the same files,
    with any provider, leaves exactly the table of the first. *)
Theorem index_pdfs_idempotent :
  forall embed1 : nat -> list Py.str -> option (list (list F64.t)),
    Indexer.reliable embed1 ->
    forall (files : list Indexer.pdf) (s : VectorStore.store),
      exists s1 : VectorStore.store,
        Indexer.index_pdfs embed1 files s = Some s1 /\
        Forall (fun f => Indexer.fully_indexed f s1) files /\
        (forall embed2 f st,
            Indexer.fully_indexed f (Indexer.db st) ->
            Indexer.index_document embed2 f st = Some (st, Indexer.Continue)) /\
        (forall embed2, Indexer.index_pdfs embed2 files s1 = Some s1).
Proof.
  intros embed1 Hr files s.
  destruct (index_files_reliable embed1 files Hr
              {| Indexer.db := s; Indexer.calls := 0 |}) as [st1 H1].
  destruct (index_files_continue embed1 files _ _ H1) as [new [Hdb [_ Hf]]].
  exists (Indexer.db st1). split; [|split; [exact Hf|split]].
  - unfold Indexer.index_pdfs. rewrite H1. reflexivity.
  - intros embed2 f st. apply index_document_skips.
  - intros embed2. unfold Indexer.index_pdfs.
    rewrite index_files_skips by exact Hf. reflexivity.
Qed.

Lemma constant_provider_reliable : Indexer.reliable Indexer.constant_provider.
Proof.
  intros n texts. eexists. split; [reflexivity|]. apply length_map.
Qed.

Lemma index_pdfs_idempotent_witness :
  exists s1 : VectorStore.store,
    Indexer.index_pdfs Indexer.constant_provider [Indexer.pages_of_a 130] []
      = Some s1 /\
    Forall (fun f => Indexer.fully_indexed f s1) [Indexer.pages_of_a 130] /\
    (forall embed2 f st,
        Indexer.fully_indexed f (Indexer.db st) ->
        Indexer.index_document embed2 f st = Some (st, Indexer.Continue)) /\
    (forall embed2,
        Indexer.index_pdfs embed2 [Indexer.pages_of_a 130] s1 = Some s1).
Proof.
  apply (index_pdfs_idempotent Indexer.constant_provider).
  intros n texts. exists (map (fun _ => [F64.of_Z 0]) texts).
  split; [reflexivity|apply length_map].
Defined.

(** C3: let a run reach a file without failure, with [a] rows already
    stored for it, and let the provider answer the requests for the first
    [k] batches of 64 chunks and fail on the next one.  Then the run stops
    with exactly the chunks of those [k] batches appended (global indices
    [a .. a+64k-1]) and nothing of the later batches.  A second run with a
    provider that answers resumes at the stored count: it appends exactly
    the remaining chunks of the file (indices [a+64k ..]), none of the
    earlier ones again, and then the rows of the files that come after. *)
Theorem partial_failure_then_resume :
  forall (embed1 embed2 : nat -> list Py.str -> option (list (list F64.t)))
         (pre post : list Indexer.pdf) (f : Indexer.pdf)
         (s0 : VectorStore.store) (st1 : Indexer.state)
         (chunks : list Py.str) (page_idxs : list Z) (a k : nat),
    Indexer.index_files embed1 pre {| Indexer.db := s0; Indexer.calls := 0 |}
      = Some (st1, Indexer.Continue) ->
    Indexer.chunk_document f = Some (Indexer.Chunks chunks page_idxs) ->
    a = Indexer._get_indexed_count (Indexer.db st1) (Indexer.path f) ->
    (a + Indexer.BATCH * k < length chunks)%nat ->
    (forall j, (j < k)%nat ->
       Indexer.answers embed1 (Indexer.calls st1 + j)
         (Indexer.batch chunks (a + Indexer.BATCH * j))) ->
    Indexer.fails embed1 (Indexer.calls st1 + k)
      (Indexer.batch chunks (a + Indexer.BATCH * k)) ->
    Indexer.reliable embed2 ->
    exists new1 new2 later : list VectorStore.row,
      Indexer.index_pdfs embed1 (pre ++ f :: post) s0
        = Some (Indexer.db st1 ++ new1) /\
      map VectorStore.text new1
        = firstn (Indexer.BATCH * k) (skipn a chunks) /\
      map (fun r => VectorStore.chunk_index (VectorStore.meta r)) new1
        = map Z.of_nat (seq a (Indexer.BATCH * k)) /\
      map VectorStore.doc_id new1
        = repeat (Indexer.path f) (Indexer.BATCH * k) /\
      Indexer.index_pdfs embed2 (pre ++ f :: post) (Indexer.db st1 ++ new1)
        = Some (Indexer.db st1 ++ new1 ++ new2 ++ later) /\
      map VectorStore.text new2 = skipn (a + Indexer.BATCH * k) chunks /\
      map (fun r => VectorStore.chunk_index (VectorStore.meta r)) new2
        = map Z.of_nat
            (seq (a + Indexer.BATCH * k)
                 (length chunks - (a + Indexer.BATCH * k))) /\
      map VectorStore.doc_id new2
        = repeat (Indexer.path f) (length chunks - (a + Indexer.BATCH * k)) /\
      Forall (fun r => In (VectorStore.doc_id r) (map Indexer.path post)) later.
Proof.
  intros embed1 embed2 pre post f s0 st1 chunks page_idxs a k
         Hpre Hc Ha Hk Hans Hfail Hrel.
  set (metas := Indexer.metadatas_of f page_idxs).
  assert (Hpl : length page_idxs = length chunks)
    by apply (chunk_document_lengths f _ _ Hc).
  assert (Hlen : length metas = length chunks)
    by (unfold metas; rewrite metadatas_of_length; exact Hpl).
  set (starts1 := map (fun j => a + Indexer.BATCH * j)%nat (seq 0 k)).
  (* the first run: [k] batches, then the failure *)
  destruct (batch_loop_answers embed1 (Indexer.path f) chunks metas Hlen
              starts1 st1) as [new1 [Hb1 Hr1]].
  { intros j i Hj. unfold starts1 in Hj. rewrite nth_error_map in Hj.
    destruct (nth_error (seq 0 k) j) as [j'|] eqn:Hs; [|discriminate].
    injection Hj as <-.
    assert (Hjk : (j < k)%nat).
    { rewrite <- (length_seq k 0). apply nth_error_Some. congruence. }
    apply (nth_error_nth _ _ 0%nat) in Hs.
    rewrite seq_nth in Hs by exact Hjk. subst j'. cbn [Nat.add].
    rewrite <- batch_firstn. apply Hans, Hjk. }
  assert (Ht1 : map VectorStore.text new1
                = firstn (Indexer.BATCH * k) (skipn a chunks)).
  { destruct Hr1 as [_ [Ht _]]. rewrite Ht. apply first_batches. }
  assert (Hn1 : length new1 = (Indexer.BATCH * k)%nat).
  { rewrite <- (length_map VectorStore.text), Ht1, length_firstn, length_skipn.
    lia. }
  assert (Hd1 : map VectorStore.doc_id new1
                = repeat (Indexer.path f) (length new1)) by apply Hr1.
  destruct (batch_step_fails embed1 (Indexer.path f) chunks metas Hlen
              (a + Indexer.BATCH * k)
              (Py.range (a + Indexer.BATCH * k + Indexer.BATCH)
                        (length chunks) Indexer.BATCH)
              {| Indexer.db := Indexer.db st1 ++ new1;
                 Indexer.calls := Indexer.calls st1 + length starts1 |})
    as [e He].
  { cbn [Indexer.calls]. unfold starts1. rewrite length_map, length_seq.
    rewrite <- batch_firstn. exact Hfail. }
  exists new1.
  (* the second run: the rest of the file *)
  set (s1 := Indexer.db st1 ++ new1).
  assert (Hcount : Indexer._get_indexed_count s1 (Indexer.path f)
                   = (a + Indexer.BATCH * k)%nat).
  { unfold s1. rewrite count_app, (count_all new1) by exact Hd1. lia. }
  set (st2 := {| Indexer.db := s1; Indexer.calls := 0 |}).
  destruct (batch_loop_answers embed2 (Indexer.path f) chunks metas Hlen
              (Py.range (a + Indexer.BATCH * k) (length chunks) Indexer.BATCH)
              st2) as [new2 [Hb2 Hr2]].
  { intros j i _. apply Hrel. }
  assert (Ht2 : map VectorStore.text new2
                = skipn (a + Indexer.BATCH * k) chunks).
  { destruct Hr2 as [_ [Ht _]]. rewrite Ht. apply batches_cover. }
  assert (Hn2 : length new2 = (length chunks - (a + Indexer.BATCH * k))%nat).
  { rewrite <- (length_map VectorStore.text), Ht2. apply length_skipn. }
  destruct (index_files_reliable embed2 post Hrel
              {| Indexer.db := Indexer.db st2 ++ new2;
                 Indexer.calls :=
                   Indexer.calls st2 +
                   length (Py.range (a + Indexer.BATCH * k) (length chunks)
                                    Indexer.BATCH) |})
    as [st3 Hpost].
  destruct (index_files_continue embed2 post _ _ Hpost)
    as [later [Hdb3 [Hlater _]]].
  exists new2, later.
  split; [|split; [exact Ht1|split; [|split; [|split; [|split;
    [exact Ht2|split; [|split; [|exact Hlater]]]]]]]].
  - unfold Indexer.index_pdfs. rewrite index_files_app, Hpre.
    cbn [Indexer.index_files].
    rewrite (index_document_batches embed1 f st1 chunks page_idxs Hc)
      by (rewrite <- Ha; lia).
    rewrite <- Ha. fold metas.
    rewrite (range_split (length chunks) k a Hk). fold starts1.
    rewrite batch_loop_app, Hb1.
    rewrite Py_range_cons_batch by lia.
    rewrite He. reflexivity.
  - destruct Hr1 as [_ [_ [Hm _]]].
    rewrite <- (map_map VectorStore.meta VectorStore.chunk_index), Hm.
    unfold starts1. rewrite first_batches. unfold metas.
    apply chunk_index_firstn. lia.
  - rewrite Hd1, Hn1. reflexivity.
  - unfold Indexer.index_pdfs. rewrite index_files_app. fold s1. fold st2.
    rewrite index_files_skips.
    + cbn [Indexer.index_files].
      rewrite (index_document_batches embed2 f st2 chunks page_idxs Hc)
        by (cbn [Indexer.db st2]; rewrite Hcount; lia).
      cbn [Indexer.db st2]. rewrite Hcount. fold metas. rewrite Hb2.
      rewrite Hpost. cbn [option_map fst]. rewrite Hdb3.
      cbn [Indexer.db st2]. unfold s1. rewrite <- !app_assoc. reflexivity.
    + destruct (index_files_continue embed1 pre _ _ Hpre) as [n0 [_ [_ Hf]]].
      eapply Forall_impl; [|exact Hf]. intros f' Hf'.
      cbn [Indexer.db st2]. unfold s1. apply fully_indexed_app. exact Hf'.
  - destruct Hr2 as [_ [_ [Hm _]]].
    assert (Hm' : map VectorStore.meta new2
                  = skipn (a + Indexer.BATCH * k) metas)
      by (rewrite Hm, <- Hlen; apply batches_cover).
    rewrite <- (map_map VectorStore.meta VectorStore.chunk_index), Hm'.
    unfold metas. rewrite chunk_index_skipn, Hpl. reflexivity.
  - destruct Hr2 as [Hd2 _]. rewrite Hd2, Hn2. reflexivity.
Qed.

Lemma partial_failure_then_resume_witness :
  exists new1 new2 later : list VectorStore.row,
    Indexer.index_pdfs (Indexer.failing_after 1)
      ([] ++ Indexer.pages_of_a 130 :: []) [] = Some ([] ++ new1) /\
    map VectorStore.text new1
      = firstn (Indexer.BATCH * 1) (skipn 0 (repeat (Py.of_string "a") 130)) /\
    map (fun r => VectorStore.chunk_index (VectorStore.meta r)) new1
      = map Z.of_nat (seq 0 (Indexer.BATCH * 1)) /\
    map VectorStore.doc_id new1
      = repeat (Indexer.path (Indexer.pages_of_a 130)) (Indexer.BATCH * 1) /\
    Indexer.index_pdfs Indexer.constant_provider
      ([] ++ Indexer.pages_of_a 130 :: []) ([] ++ new1)
      = Some ([] ++ new1 ++ new2 ++ later) /\
    map VectorStore.text new2
      = skipn (0 + Indexer.BATCH * 1) (repeat (Py.of_string "a") 130) /\
    map (fun r => VectorStore.chunk_index (VectorStore.meta r)) new2
      = map Z.of_nat
          (seq (0 + Indexer.BATCH * 1)
               (length (repeat (Py.of_string "a") 130)
                - (0 + Indexer.BATCH * 1))) /\
    map VectorStore.doc_id new2
      = repeat (Indexer.path (Indexer.pages_of_a 130))
          (length (repeat (Py.of_string "a") 130) - (0 + Indexer.BATCH * 1)) /\
    Forall (fun r => In (VectorStore.doc_id r) (map Indexer.path [])) later.
Proof.
  apply (partial_failure_then_resume (Indexer.failing_after 1)
           Indexer.constant_provider [] [] (Indexer.pages_of_a 130) []
           {| Indexer.db := []; Indexer.calls := 0 |}
           (repeat (Py.of_string "a") 130) (map Z.of_nat (seq 0 130)) 0 1).
  - reflexivity.
  - vm_compute. reflexivity.
  - reflexivity.
  - rewrite repeat_length. unfold Indexer.BATCH. lia.
  - intros j Hj. assert (j = 0)%nat by lia. subst j.
    eexists. split; [reflexivity|]. apply length_map.
  - intros embs H. discriminate H.
  - intros n texts. eexists. split; [reflexivity|]. apply length_map.
Defined.

(** C1 fails on the code: [add_many] numbers the rows of every call from
    0, and [index_pdfs] calls it once per batch of 64 chunks.  A PDF of 65
    one-letter pages has 65 chunks: indexing it stores the [chunk_id]s
    0..63 and then 0 again, not 0..64, while the [chunk_index] kept in the
    metadata does run 0..64. *)
Theorem chunk_ids_restart_at_each_batch :
  option_map (map VectorStore.chunk_id)
    (Indexer.index_pdfs Indexer.constant_provider [Indexer.pages_of_a 65] [])
    = Some (map Z.of_nat (seq 0 64 ++ [0%nat])) /\
  option_map (map (fun r => VectorStore.chunk_index (VectorStore.meta r)))
    (Indexer.index_pdfs Indexer.constant_provider [Indexer.pages_of_a 65] [])
    = Some (map Z.of_nat (seq 0 65)) /\
  option_map (map VectorStore.chunk_id)
    (Indexer.index_pdfs Indexer.constant_provider [Indexer.pages_of_a 65] [])
    <> Some (map Z.of_nat (seq 0 65)).
Proof.
  split; [vm_compute; reflexivity|]. split; [vm_compute; reflexivity|].
  vm_compute. discriminate.
Qed.

(** * More about the chunkers *)

Section StripFacts.

Import Py.

Lemma lstrip_In (s : str) c : In c s -> isspace c = false -> In c (lstrip s).
Proof.
  induction s as [|x s IH]; simpl; [tauto|].
  intros [->|H] Hc.
  - rewrite Hc. left; reflexivity.
  - destruct (isspace x); [apply IH; assumption|right; assumption].
Qed.

Lemma strip_In (s : str) c : In c s -> isspace c = false -> In c (strip s).
Proof.
  intros H Hc. unfold strip, rstrip. rewrite <- in_rev.
  apply lstrip_In; [|exact Hc]. rewrite <- in_rev.
  apply lstrip_In; assumption.
Qed.

(** What [lstrip] leaves is a suffix, and does not start with a space. *)
Lemma lstrip_suffix (s : str) : exists p, s = p ++ lstrip s.
Proof.
  induction s as [|x s [p IH]]; simpl.
  - exists []; reflexivity.
  - destruct (isspace x).
    + exists (x :: p). simpl. f_equal. exact IH.
    + exists []; reflexivity.
Qed.

Lemma lstrip_length (s : str) : (length (lstrip s) <= length s)%nat.
Proof.
  destruct (lstrip_suffix s) as [p H]. rewrite H at 2. rewrite length_app. lia.
Qed.

Lemma strip_length (s : str) : (length (strip s) <= length s)%nat.
Proof.
  unfold strip, rstrip. rewrite length_rev.
  etransitivity; [apply lstrip_length|]. rewrite length_rev.
  apply lstrip_length.
Qed.

Lemma lstrip_head (s : str) :
  match lstrip s with [] => True | c :: _ => isspace c = false end.
Proof.
  induction s as [|x s IH]; simpl; auto.
  destruct (isspace x) eqn:Hx; [exact IH|exact Hx].
Qed.

Lemma lstrip_fixed (s : str) :
  match s with [] => True | c :: _ => isspace c = false end -> lstrip s = s.
Proof. destruct s as [|c s]; simpl; auto. intros ->. reflexivity. Qed.

Lemma lstrip_idempotent (s : str) : lstrip (lstrip s) = lstrip s.
Proof. apply lstrip_fixed, lstrip_head. Qed.

(** [lstrip] keeps the last character of what it leaves. *)
Lemma lstrip_last (s : str) d :
  lstrip s <> [] -> last (lstrip s) d = last s d.
Proof.
  induction s as [|x s IH]; simpl; [tauto|].
  destruct (isspace x); [|reflexivity].
  intros H. rewrite IH by exact H.
  destruct s; [simpl in H; tauto|reflexivity].
Qed.

Lemma rev_head_last (s : str) d : hd d (rev s) = last s d.
Proof.
  induction s as [|x s IH]; simpl; auto.
  destruct s as [|y s]; [reflexivity|].
  rewrite <- IH. simpl. destruct (rev s ++ [y]) eqn:E; [|reflexivity].
  destruct (rev s); discriminate.
Qed.

Lemma head_space (s : str) :
  match s with [] => True | c :: _ => isspace c = false end <->
  (s = [] \/ isspace (hd 0%N s) = false).
Proof.
  destruct s; simpl; split; auto. intros [H|H]; [discriminate|exact H].
Qed.

(** A stripped string is empty, or starts and ends with a character that
    is not a space. *)
Lemma strip_ends (s : str) :
  strip s = [] \/
  (isspace (hd 0%N (strip s)) = false /\ isspace (last (strip s) 0%N) = false).
Proof.
  unfold strip, rstrip. set (t := lstrip s).
  destruct (lstrip (rev t)) as [|c u] eqn:E; [left; reflexivity|right].
  split.
  - rewrite rev_head_last.
    rewrite <- E, lstrip_last by (rewrite E; discriminate).
    rewrite <- rev_head_last, rev_involutive.
    pose proof (lstrip_head s) as H. fold t in H.
    destruct t as [|x t']; [discriminate E|exact H].
  - rewrite <- rev_head_last, rev_involutive.
    pose proof (lstrip_head (rev t)) as H. rewrite E in H. exact H.
Qed.

Lemma rstrip_fixed (s : str) :
  s = [] \/ isspace (last s 0%N) = false -> rstrip s = s.
Proof.
  intros H. unfold rstrip. rewrite lstrip_fixed; [apply rev_involutive|].
  apply head_space. destruct H as [->|H]; [left; reflexivity|right].
  rewrite rev_head_last. exact H.
Qed.

(** Stripping twice changes nothing more. *)
Lemma strip_idempotent (s : str) : strip (strip s) = strip s.
Proof.
  destruct (strip_ends s) as [H|[Hh Hl]].
  - rewrite H. reflexivity.
  - unfold strip at 1. rewrite lstrip_fixed.
    + apply rstrip_fixed. right; exact Hl.
    + apply head_space. right; exact Hh.
Qed.

Lemma slice_length {A} (l : list A) i j :
  0 <= i -> i <= j -> len (slice l i j) <= j - i.
Proof.
  intros Hi Hj. unfold slice, adjust, len.
  destruct (Z.ltb_spec i 0); [lia|]. destruct (Z.ltb_spec j 0); [lia|].
  rewrite length_firstn. lia.
Qed.

(** The element at position [j] of the list is in every slice that spans
    that position. *)
Lemma slice_nth {A} (l : list A) (i n j : nat) x :
  nth_error l j = Some x -> (i <= j < i + n)%nat ->
  In x (slice l (Z.of_nat i) (Z.of_nat i + Z.of_nat n)).
Proof.
  intros Hx Hj. rewrite slice_nat.
  assert (Hl : (j < length l)%nat) by (apply nth_error_Some; congruence).
  assert (E : nth_error (firstn n (skipn i l)) (j - i) = Some x).
  { rewrite nth_error_firstn.
    destruct (Nat.ltb_spec (j - i) n); [|lia].
    rewrite nth_error_skipn. replace (i + (j - i))%nat with j by lia.
    exact Hx. }
  apply nth_error_In in E. exact E.
Qed.

End StripFacts.

Section ChunkerMore.

Import Py Chunker.

Lemma text_loop_run (text : str) (chunk_size step : Z) :
  1 <= step ->
  forall (m k0 fuel : nat) (acc : list str),
    (k0 + m = Z.to_nat ((len text + step - 1) / step))%nat ->
    (m <= fuel)%nat ->
    text_loop fuel text chunk_size step (Z.of_nat k0 * step) acc =
    Some (acc ++ map (window text chunk_size)
                     (map (fun k => Z.of_nat k * step) (seq k0 m))).
Proof.
  intros Hs. unfold len.
  induction m as [|m IH]; intros k0 fuel acc Hk Hf.
  - assert (Hc : (Z.of_nat k0 * step <? Z.of_nat (length text)) = false).
    { apply not_true_is_false. rewrite count_reached by assumption. lia. }
    destruct fuel; simpl; unfold len; rewrite Hc, app_nil_r; reflexivity.
  - assert (Hc : (Z.of_nat k0 * step <? Z.of_nat (length text)) = true).
    { apply count_reached; [assumption|lia]. }
    destruct fuel as [|fuel]; [lia|].
    simpl. unfold len. rewrite Hc.
    replace (Z.of_nat k0 * step + step) with (Z.of_nat (S k0) * step) by lia.
    rewrite (IH (S k0)) by lia. rewrite <- app_assoc. reflexivity.
Qed.

(** Every entry of the closed form of the chunker: a trimmed, non-empty
    window of the page it is tagged with. *)
Lemma all_chunks_entry page_texts max_tokens overlap c p :
  In (c, p) (all_chunks page_texts max_tokens overlap) ->
  exists (pidx k : nat) (text : str),
    p = Z.of_nat pidx /\
    nth_error page_texts pidx = Some text /\
    c = window text (max_tokens * 4)
          (Z.of_nat k * Z.max 1 (max_tokens * 4 - overlap * 4)) /\
    c <> [].
Proof.
  unfold all_chunks, enumerate.
  assert (G : forall l n,
    In (c, p)
      (flat_map (page_chunks (max_tokens * 4)
                   (Z.max 1 (max_tokens * 4 - overlap * 4)))
         (enumerate_from n l)) ->
    exists (pidx k : nat) (text : str),
      p = Z.of_nat pidx /\ (n <= pidx)%nat /\
      nth_error l (pidx - n) = Some text /\
      c = window text (max_tokens * 4)
            (Z.of_nat k * Z.max 1 (max_tokens * 4 - overlap * 4)) /\
      c <> []).
  { induction l as [|text l IH]; intros n H; [destruct H|].
    cbn [enumerate_from flat_map] in H. apply in_app_or in H.
    destruct H as [H|H].
    - unfold page_chunks in H. cbn [fst snd] in H.
      apply in_map_iff in H. destruct H as [c' [E H]].
      injection E as -> <-. apply filter_In in H. destruct H as [H Ht].
      apply in_map_iff in H. destruct H as [i [<- Hi]].
      unfold positions in Hi. apply in_map_iff in Hi.
      destruct Hi as [k [<- _]].
      exists n, k, text. rewrite Nat.sub_diag.
      repeat split; auto. apply truthy_true. exact Ht.
    - apply IH in H. destruct H as [pidx [k [t [Hp [Hn [Hnth [Hc Hne]]]]]]].
      exists pidx, k, t. repeat split; auto; try lia.
      replace (pidx - n)%nat with (S (pidx - S n)) by lia. exact Hnth. }
  intros H. apply G in H. destruct H as [pidx [k [t [Hp [Hn [Hnth H]]]]]].
  exists pidx, k, t. rewrite Nat.sub_0_r in Hnth. auto.
Qed.

Lemma combine_fst_snd {A B} (l : list (A * B)) :
  combine (map fst l) (map snd l) = l.
Proof. induction l as [|[a b] l IH]; simpl; f_equal; auto. Qed.

(** The page indices of the closed form, from page [n] on, never decrease
    and stay within the pages. *)
Lemma page_idxs_sorted chunk_size step :
  forall l n,
    StronglySorted Z.le
      (map snd (flat_map (page_chunks chunk_size step) (enumerate_from n l))) /\
    Forall (fun p => Z.of_nat n <= p < Z.of_nat (n + length l))
      (map snd (flat_map (page_chunks chunk_size step) (enumerate_from n l))).
Proof.
  induction l as [|text l IH]; intros n.
  - split; constructor.
  - cbn [enumerate_from flat_map]. rewrite map_app.
    destruct (IH (S n)) as [Hs Hf].
    assert (Hb : map snd (page_chunks chunk_size step (n, text)) =
                 repeat (Z.of_nat n)
                   (length (page_chunks chunk_size step (n, text)))).
    { unfold page_chunks. cbn [fst snd]. rewrite map_map. cbn [snd].
      rewrite length_map.
      induction (filter truthy _); simpl; f_equal; auto. }
    rewrite Hb. clear Hb. split.
    + induction (length (page_chunks chunk_size step (n, text)))
        as [|m IHm]; [exact Hs|].
      simpl. constructor; [exact IHm|].
      apply Forall_app. split.
      * apply Forall_forall. intros x Hx. apply repeat_spec in Hx. lia.
      * eapply Forall_impl; [|exact Hf]. simpl. intros; lia.
    + apply Forall_app. split.
      * apply Forall_forall. intros x Hx. apply repeat_spec in Hx.
        simpl length. lia.
      * eapply Forall_impl; [|exact Hf]. simpl. intros; lia.
Qed.

End ChunkerMore.

(** X1: the two chunkers agree: [chunk_text] on a text returns the chunks
    [chunk_text_per_page] returns for the one-page list holding that
    text, for all integers [max_tokens] and [overlap]; both loops end. *)
Theorem chunk_text_is_one_page :
  forall (text : Py.str) (max_tokens overlap : Z),
    exists (chunks : list Py.str) (page_idxs : list Z),
      Chunker.chunk_text_per_page [text] max_tokens overlap =
        Some (chunks, page_idxs) /\
      Chunker.chunk_text text max_tokens overlap = Some chunks.
Proof.
  intros text max_tokens overlap.
  rewrite chunk_text_per_page_all. eexists; eexists. split; [reflexivity|].
  unfold Chunker.chunk_text, Chunker.all_chunks, Py.enumerate.
  set (cs := max_tokens * 4). set (step := Z.max 1 (cs - overlap * 4)).
  assert (Hs : 1 <= step) by (unfold step; lia).
  cbn [Py.enumerate_from flat_map]. rewrite app_nil_r.
  destruct (Py.truthy text) eqn:Ht; cbn [negb].
  - change 0 with (Z.of_nat 0 * step).
    rewrite (text_loop_run text cs step Hs
               (Z.to_nat ((Py.len text + step - 1) / step)) 0 (length text) [])
      by (try reflexivity; apply count_le_length; assumption).
    unfold Chunker.page_chunks, Chunker.positions, Py.len. cbn [fst snd app].
    f_equal. induction (filter Py.truthy _) as [|c l IH]; simpl; f_equal; auto.
  - apply truthy_false in Ht. subst text.
    unfold Chunker.page_chunks. cbn [fst snd length].
    rewrite positions_empty by assumption. reflexivity.
Qed.

(** X2: [chunk_text_per_page] returns as many page indices as chunks; the page
    indices never decrease along the list and each is the index of a page
    of the input. *)
Theorem chunk_page_indices :
  forall (page_texts : list Py.str) (max_tokens overlap : Z),
    exists (chunks : list Py.str) (page_idxs : list Z),
      Chunker.chunk_text_per_page page_texts max_tokens overlap =
        Some (chunks, page_idxs) /\
      length page_idxs = length chunks /\
      StronglySorted Z.le page_idxs /\
      Forall (fun p => 0 <= p < Py.len page_texts) page_idxs.
Proof.
  intros page_texts max_tokens overlap.
  rewrite chunk_text_per_page_all. eexists; eexists. split; [reflexivity|].
  split; [rewrite !length_map; reflexivity|].
  unfold Chunker.all_chunks, Py.enumerate.
  destruct (page_idxs_sorted (max_tokens * 4)
              (Z.max 1 (max_tokens * 4 - overlap * 4)) page_texts 0)
    as [Hs Hf].
  split; [exact Hs|]. eapply Forall_impl; [|exact Hf].
  unfold Py.len. simpl. intros; lia.
Qed.

(** X3: with a window size that is not negative, every chunk
    [chunk_text_per_page] returns is already trimmed (stripping it again
    changes nothing) and has at most [max_tokens * 4] characters. *)
Theorem chunks_trimmed_and_bounded :
  forall (page_texts : list Py.str) (max_tokens overlap : Z),
    0 <= max_tokens ->
    exists (chunks : list Py.str) (page_idxs : list Z),
      Chunker.chunk_text_per_page page_texts max_tokens overlap =
        Some (chunks, page_idxs) /\
      Forall (fun c => Py.strip c = c /\ Py.len c <= max_tokens * 4) chunks.
Proof.
  intros page_texts max_tokens overlap Hm.
  rewrite chunk_text_per_page_all. eexists; eexists. split; [reflexivity|].
  apply Forall_forall. intros c Hc. apply in_map_iff in Hc.
  destruct Hc as [[c' p] [<- Hin]]. cbn [fst].
  apply all_chunks_entry in Hin.
  destruct Hin as [pidx [k [text [_ [_ [-> _]]]]]].
  unfold Chunker.window. split; [apply strip_idempotent|].
  set (i := Z.of_nat k * Z.max 1 (max_tokens * 4 - overlap * 4)).
  assert (Hi : 0 <= i) by (unfold i; nia).
  pose proof (strip_length (Py.slice text i (i + max_tokens * 4))) as H1.
  pose proof (slice_length text i (i + max_tokens * 4) Hi ltac:(lia)) as H2.
  unfold Py.len in *. lia.
Qed.

Lemma chunks_trimmed_and_bounded_witness :
  exists (chunks : list Py.str) (page_idxs : list Z),
    Chunker.chunk_text_per_page [Py.of_string " ab  cd "] 1 0 =
      Some (chunks, page_idxs) /\
    Forall (fun c => Py.strip c = c /\ Py.len c <= 1 * 4) chunks.
Proof.
  apply (chunks_trimmed_and_bounded [Py.of_string " ab  cd "] 1 0). lia.
Defined.

(** The closed form leaves no gap when the step is at most the window. *)
Lemma all_chunks_cover (page_texts : list Py.str) (max_tokens overlap : Z) :
  1 <= max_tokens -> 0 <= overlap ->
  forall (pidx : nat) (text : Py.str) (c : Py.char),
    nth_error page_texts pidx = Some text ->
    In c text -> Py.isspace c = false ->
    exists chunk : Py.str,
      In (chunk, Z.of_nat pidx)
         (Chunker.all_chunks page_texts max_tokens overlap) /\
      In c chunk.
Proof.
  intros Hm Ho pidx text c Hp Hc Hsp.
  set (cs := max_tokens * 4). set (step := Z.max 1 (cs - overlap * 4)).
  assert (Hs : 1 <= step <= cs) by (unfold step, cs; lia).
  apply In_nth_error in Hc. destruct Hc as [j Hj].
  assert (Hjl : (j < length text)%nat) by (apply nth_error_Some; congruence).
  set (k := Z.to_nat (Z.of_nat j / step)).
  assert (Hk : Z.of_nat k * step <= Z.of_nat j < Z.of_nat k * step + step).
  { unfold k. rewrite Z2Nat.id by (apply Z.div_pos; lia).
    pose proof (Z.div_mod (Z.of_nat j) step ltac:(lia)) as Hd.
    pose proof (Z.mod_pos_bound (Z.of_nat j) step ltac:(lia)) as Hb. nia. }
  exists (Chunker.window text cs (Z.of_nat k * step)).
  assert (Hin : In c (Chunker.window text cs (Z.of_nat k * step))).
  { unfold Chunker.window. apply strip_In; [|exact Hsp].
    replace (Z.of_nat k * step) with (Z.of_nat (Z.to_nat (Z.of_nat k * step)))
      by (rewrite Z2Nat.id; nia).
    replace cs with (Z.of_nat (Z.to_nat cs)) by (rewrite Z2Nat.id; lia).
    apply (slice_nth text _ _ j c Hj). lia. }
  split; [|exact Hin].
  unfold Chunker.all_chunks. fold cs. fold step.
  apply in_flat_map. exists (pidx, text). split.
  - unfold Py.enumerate.
    assert (G : forall l n p, nth_error l p = Some text ->
                In ((n + p)%nat, text) (Py.enumerate_from n l)).
    { induction l as [|x l IH]; intros n p H; [destruct p; discriminate|].
      destruct p as [|p]; simpl in H.
      - injection H as ->. rewrite Nat.add_0_r. left; reflexivity.
      - right. replace (n + S p)%nat with (S n + p)%nat by lia.
        apply IH. exact H. }
    apply (G page_texts 0%nat pidx Hp).
  - unfold Chunker.page_chunks. cbn [fst snd].
    apply (in_map (fun c0 : Py.str => (c0, Z.of_nat pidx))).
    apply filter_In. split.
    + apply in_map. apply positions_spec; [lia|].
      exists k. split; [reflexivity|lia].
    + apply truthy_true. intros E. rewrite E in Hin. destruct Hin.
Qed.

Section Spans.

Import Py.

Lemma lstrip_spaces (s : str) :
  exists p, s = p ++ lstrip s /\ Forall (fun c => isspace c = true) p.
Proof.
  induction s as [|x s [p [IH Hp]]]; simpl.
  - exists []. split; [reflexivity|constructor].
  - destruct (isspace x) eqn:Hx.
    + exists (x :: p). split; [simpl; f_equal; exact IH|].
      constructor; assumption.
    + exists []. split; [reflexivity|constructor].
Qed.

(** [strip] removes a run of white space at each end, and nothing else. *)
Lemma strip_spaces (s : str) :
  exists p q,
    s = p ++ strip s ++ q /\
    Forall (fun c => isspace c = true) p /\
    Forall (fun c => isspace c = true) q.
Proof.
  destruct (lstrip_spaces s) as [p [Hs Hp]].
  destruct (lstrip_spaces (rev (lstrip s))) as [q [Hr Hq]].
  exists p, (rev q). split; [|split; [exact Hp|apply Forall_rev, Hq]].
  unfold strip, rstrip. rewrite <- rev_app_distr, <- Hr, rev_involutive.
  exact Hs.
Qed.

(** A character that is not white space, inside a window, is inside what
    [strip] leaves of the window. *)
Lemma span_position (a p m q b : str) (j : nat) (c : char) :
  nth_error (a ++ (p ++ m ++ q) ++ b) j = Some c ->
  isspace c = false ->
  Forall (fun c => isspace c = true) p ->
  Forall (fun c => isspace c = true) q ->
  (length a <= j < length a + length (p ++ m ++ q))%nat ->
  (length a + length p <= j < length a + length p + length m)%nat.
Proof.
  intros Hj Hc Hp Hq Hr. rewrite !length_app in Hr.
  rewrite nth_error_app2 in Hj by lia.
  rewrite nth_error_app1 in Hj by (rewrite !length_app; lia).
  destruct (Nat.lt_ge_cases (j - length a) (length p)) as [H1|H1].
  { rewrite nth_error_app1 in Hj by exact H1.
    apply nth_error_In in Hj. rewrite Forall_forall in Hp.
    apply Hp in Hj. congruence. }
  rewrite nth_error_app2 in Hj by exact H1.
  destruct (Nat.lt_ge_cases (j - length a - length p) (length m)) as [H2|H2];
    [lia|].
  rewrite nth_error_app2 in Hj by exact H2.
  apply nth_error_In in Hj. rewrite Forall_forall in Hq.
  apply Hq in Hj. congruence.
Qed.

(** The window that starts at or before a position and reaches beyond it
    gives a chunk that is a piece of the text spanning that position. *)
Lemma window_spans (text : str) (i n j : nat) (c : char) :
  nth_error text j = Some c -> isspace c = false ->
  (i <= j < i + n)%nat ->
  exists before after,
    text = before ++
           Chunker.window text (Z.of_nat n) (Z.of_nat i) ++ after /\
    (length before <= j
     < length before
       + length (Chunker.window text (Z.of_nat n) (Z.of_nat i)))%nat.
Proof.
  intros Hj Hc Hr.
  assert (Hl : (j < length text)%nat) by (apply nth_error_Some; congruence).
  unfold Chunker.window. rewrite slice_nat.
  set (w := firstn n (skipn i text)).
  assert (Ht : text = firstn i text ++ w ++ skipn n (skipn i text)).
  { unfold w. rewrite firstn_skipn, firstn_skipn. reflexivity. }
  assert (Hw : (i + length w = Nat.min (i + n) (length text))%nat).
  { unfold w. rewrite length_firstn, length_skipn. lia. }
  destruct (strip_spaces w) as [p [q [Hs [Hp Hq]]]].
  exists (firstn i text ++ p), (q ++ skipn n (skipn i text)).
  assert (Hb : length (firstn i text) = i)
    by (rewrite length_firstn; lia).
  assert (Hpos : (length (firstn i text) + length p <= j
                  < length (firstn i text) + length p
                    + length (strip w))%nat).
  { apply (span_position _ p (strip w) q (skipn n (skipn i text)) j c);
      try assumption.
    - rewrite <- Hs, <- Ht. exact Hj.
    - rewrite <- Hs, Hb. lia. }
  split.
  - rewrite Ht at 1. rewrite Hs at 1. rewrite <- !app_assoc. reflexivity.
  - rewrite length_app. exact Hpos.
Qed.

End Spans.

(** Every position of a page that does not hold white space is spanned
    by a chunk of that page. *)
Lemma all_chunks_span (page_texts : list Py.str) (max_tokens overlap : Z) :
  1 <= max_tokens -> 0 <= overlap ->
  forall (pidx : nat) (text : Py.str) (j : nat) (c : Py.char),
    nth_error page_texts pidx = Some text ->
    nth_error text j = Some c -> Py.isspace c = false ->
    exists chunk before after : Py.str,
      In (chunk, Z.of_nat pidx)
         (Chunker.all_chunks page_texts max_tokens overlap) /\
      text = before ++ chunk ++ after /\
      (length before <= j < length before + length chunk)%nat.
Proof.
  intros Hm Ho pidx text j c Hp Hj Hsp.
  set (cs := max_tokens * 4). set (step := Z.max 1 (cs - overlap * 4)).
  assert (Hs : 1 <= step <= cs) by (unfold step, cs; lia).
  assert (Hjl : (j < length text)%nat) by (apply nth_error_Some; congruence).
  set (k := Z.to_nat (Z.of_nat j / step)).
  assert (Hk : Z.of_nat k * step <= Z.of_nat j < Z.of_nat k * step + step).
  { unfold k. rewrite Z2Nat.id by (apply Z.div_pos; lia).
    pose proof (Z.div_mod (Z.of_nat j) step ltac:(lia)) as Hd.
    pose proof (Z.mod_pos_bound (Z.of_nat j) step ltac:(lia)) as Hb. nia. }
  destruct (window_spans text (Z.to_nat (Z.of_nat k * step)) (Z.to_nat cs)
              j c Hj Hsp ltac:(lia)) as [before [after [Ht Hr]]].
  rewrite !Z2Nat.id in Ht, Hr by nia.
  exists (Chunker.window text cs (Z.of_nat k * step)), before, after.
  split; [|split; [exact Ht|exact Hr]].
  unfold Chunker.all_chunks. fold cs. fold step.
  apply in_flat_map. exists (pidx, text). split.
  - unfold Py.enumerate.
    assert (G : forall l n p, nth_error l p = Some text ->
                In ((n + p)%nat, text) (Py.enumerate_from n l)).
    { induction l as [|x l IH]; intros n p H; [destruct p; discriminate|].
      destruct p as [|p]; simpl in H.
      - injection H as ->. rewrite Nat.add_0_r. left; reflexivity.
      - right. replace (n + S p)%nat with (S n + p)%nat by lia.
        apply IH. exact H. }
    apply (G page_texts 0%nat pidx Hp).
  - unfold Chunker.page_chunks. cbn [fst snd].
    apply (in_map (fun c0 : Py.str => (c0, Z.of_nat pidx))).
    apply filter_In. split.
    + apply in_map. apply positions_spec; [lia|].
      exists k. split; [reflexivity|lia].
    + apply truthy_true. intros E. rewrite E in Hr. simpl in Hr. lia.
Qed.

(** X4: with at least one token per window and an overlap that is not
    negative, the windows leave no gap: every position of a page that
    holds a character other than white space lies inside a chunk of that
    page.  The chunk is a contiguous piece of the page text,
    [text = before + chunk + after], that starts at or before the position
    and ends after it, and it is tagged with the page's index. *)
Theorem chunks_cover_the_text :
  forall (page_texts : list Py.str) (max_tokens overlap : Z),
    1 <= max_tokens -> 0 <= overlap ->
    exists (chunks : list Py.str) (page_idxs : list Z),
      Chunker.chunk_text_per_page page_texts max_tokens overlap =
        Some (chunks, page_idxs) /\
      forall (pidx : nat) (text : Py.str) (j : nat) (c : Py.char),
        nth_error page_texts pidx = Some text ->
        nth_error text j = Some c ->
        Py.isspace c = false ->
        exists chunk before after : Py.str,
          In (chunk, Z.of_nat pidx) (combine chunks page_idxs) /\
          text = before ++ chunk ++ after /\
          (length before <= j < length before + length chunk)%nat.
Proof.
  intros page_texts max_tokens overlap Hm Ho.
  rewrite chunk_text_per_page_all. eexists; eexists. split; [reflexivity|].
  rewrite combine_fst_snd.
  apply all_chunks_span; assumption.
Qed.

Lemma chunks_cover_the_text_witness :
  exists (chunks : list Py.str) (page_idxs : list Z),
    Chunker.chunk_text_per_page [Py.of_string " ab  cd "] 1 0 =
      Some (chunks, page_idxs) /\
    forall (pidx : nat) (text : Py.str) (j : nat) (c : Py.char),
      nth_error [Py.of_string " ab  cd "] pidx = Some text ->
      nth_error text j = Some c ->
      Py.isspace c = false ->
      exists chunk before after : Py.str,
        In (chunk, Z.of_nat pidx) (combine chunks page_idxs) /\
        text = before ++ chunk ++ after /\
        (length before <= j < length before + length chunk)%nat.
Proof.
  apply (chunks_cover_the_text [Py.of_string " ab  cd "] 1 0); lia.
Defined.

(** * More about extraction and chunking of a file *)

Section ExtractionFacts.

Import Py Indexer.

Lemma lstrip_incl (s : str) c : In c (lstrip s) -> In c s.
Proof.
  destruct (lstrip_suffix s) as [p H]. intros Hc. rewrite H.
  apply in_or_app. right; exact Hc.
Qed.

Lemma strip_incl (s : str) c : In c (strip s) -> In c s.
Proof.
  unfold strip, rstrip. intros H. rewrite <- in_rev in H.
  apply lstrip_incl in H. rewrite <- in_rev in H.
  apply lstrip_incl in H. exact H.
Qed.

Lemma join_In (sep : str) (parts : list str) c :
  In c (join sep parts) -> In c sep \/ exists p, In p parts /\ In c p.
Proof.
  induction parts as [|p parts IH]; [intros []|].
  destruct parts as [|q parts].
  - simpl. intros H. right. exists p. auto.
  - change (join sep (p :: q :: parts)) with (p ++ sep ++ join sep (q :: parts)).
    intros H. apply in_app_or in H. destruct H as [H|H].
    + right. exists p. split; [left; reflexivity|exact H].
    + apply in_app_or in H. destruct H as [H|H]; [left; exact H|].
      destruct (IH H) as [Hs|[p' [Hp' Hc']]]; [left; exact Hs|].
      right. exists p'. split; [right; exact Hp'|exact Hc'].
Qed.

(** A stripped text that is not empty holds a character that is not a
    space. *)
Lemma stripped_has_ink (s : str) :
  strip s <> [] -> exists c, In c (strip s) /\ isspace c = false.
Proof.
  intros H. destruct (strip_ends s) as [E|[Hh _]]; [contradiction|].
  exists (hd 0%N (strip s)). split; [|exact Hh].
  destruct (strip s); [contradiction|left; reflexivity].
Qed.

(** A page list with a character that is not a space has chunks under the
    indexer's parameters. *)
Lemma ink_gives_chunks (page_texts : list str) (text : str) c :
  In text page_texts -> In c text -> isspace c = false ->
  Chunker.all_chunks page_texts 500 50 <> [].
Proof.
  intros Ht Hc Hsp. apply In_nth_error in Ht. destruct Ht as [pidx Hp].
  destruct (all_chunks_cover page_texts 500 50 ltac:(lia) ltac:(lia)
              pidx text c Hp Hc Hsp) as [chunk [Hin _]].
  intros E. rewrite E in Hin. destruct Hin.
Qed.

(** The chunks and tags of a file, by extraction mode. *)
Lemma chunk_document_cases (f : pdf) chunks page_idxs :
  chunk_document f = Some (Chunks chunks page_idxs) ->
  (snd (extract_text_from_pdf f) = Pages /\
   chunks = map fst (Chunker.all_chunks (pypdf_pages f) 500 50) /\
   page_idxs = map snd (Chunker.all_chunks (pypdf_pages f) 500 50)) \/
  (snd (extract_text_from_pdf f) = Full /\
   chunks = map fst (Chunker.all_chunks [pdfminer_text f] 500 50) /\
   page_idxs = map (fun _ => -1) chunks).
Proof.
  unfold chunk_document, extract_text_from_pdf.
  destruct (100 <=? len (strip (join [10%N] (pypdf_pages f)))).
  - destruct (negb (truthy (pypdf_pages f))); [discriminate|].
    rewrite chunk_text_per_page_all. intros E. injection E as <- <-.
    left. auto.
  - destruct (truthy (pdfminer_text f)) eqn:Ht; cbn [truthy negb hd];
      [|discriminate].
    rewrite Ht. cbn [negb]. rewrite chunk_text_per_page_all.
    intros E. injection E as E1 E2. subst chunks page_idxs. right. auto.
Qed.

End ExtractionFacts.

(** X5: the chunks [index_pdfs] computes for a file come with one page tag
    each and none is empty.  In "pages" mode every tag is the index of a
    page pypdf returned; in "full" mode (pdfminer fallback) every tag is
    [-1]. *)
Theorem chunk_document_tags :
  forall (f : Indexer.pdf) (chunks : list Py.str) (page_idxs : list Z),
    Indexer.chunk_document f = Some (Indexer.Chunks chunks page_idxs) ->
    length page_idxs = length chunks /\
    Forall (fun c => c <> []) chunks /\
    match snd (Indexer.extract_text_from_pdf f) with
    | Indexer.Pages =>
        Forall (fun p => 0 <= p < Py.len (Indexer.pypdf_pages f)) page_idxs
    | Indexer.Full => Forall (fun p => p = -1) page_idxs
    end.
Proof.
  intros f chunks page_idxs H.
  split; [apply (chunk_document_lengths f _ _ H)|].
  assert (Hne : forall l m o,
             Forall (fun c : Py.str => c <> [])
                    (map fst (Chunker.all_chunks l m o))).
  { intros l m o. apply Forall_forall. intros c Hc.
    apply in_map_iff in Hc. destruct Hc as [[c' p] [<- Hin]].
    apply all_chunks_entry in Hin.
    destruct Hin as [_ [_ [_ [_ [_ [_ Hn]]]]]]. exact Hn. }
  destruct (chunk_document_cases f chunks page_idxs H)
    as [[Hm [-> ->]]|[Hm [-> ->]]]; rewrite Hm.
  - split; [apply Hne|].
    destruct (page_idxs_sorted (500 * 4) (Z.max 1 (500 * 4 - 50 * 4))
                (Indexer.pypdf_pages f) 0) as [_ Hf].
    eapply Forall_impl; [|exact Hf]. unfold Py.len. simpl. intros; lia.
  - split; [apply Hne|].
    apply Forall_forall. intros p Hp. apply in_map_iff in Hp.
    destruct Hp as [x [Hx _]]. auto.
Qed.

Lemma chunk_document_tags_witness :
  length [-1] = length [Py.of_string "a"] /\
  Forall (fun c : Py.str => c <> []) [Py.of_string "a"] /\
  match snd (Indexer.extract_text_from_pdf
               {| Indexer.path := Py.of_string "b.pdf";
                  Indexer.pypdf_pages := [];
                  Indexer.pdfminer_text := Py.of_string "a" |}) with
  | Indexer.Pages => Forall (fun p => 0 <= p < Py.len (@nil Py.str)) [-1]
  | Indexer.Full => Forall (fun p => p = -1) [-1]
  end.
Proof.
  apply (chunk_document_tags
           {| Indexer.path := Py.of_string "b.pdf";
              Indexer.pypdf_pages := [];
              Indexer.pdfminer_text := Py.of_string "a" |}
           [Py.of_string "a"] [-1]).
  vm_compute. reflexivity.
Defined.

(** X6: when the text pdfminer returned is stripped (as
    [extract_text_pdfminer] leaves it), a file either has no extracted
    text at all and is skipped, or it has at least one chunk: the branch
    "no chunks produced" of [index_pdfs] is never taken. *)
Theorem extracted_file_has_chunks :
  forall f : Indexer.pdf,
    Py.strip (Indexer.pdfminer_text f) = Indexer.pdfminer_text f ->
    (fst (Indexer.extract_text_from_pdf f) = [] /\
     Indexer.chunk_document f = Some Indexer.Skip) \/
    (exists (chunks : list Py.str) (page_idxs : list Z),
        Indexer.chunk_document f = Some (Indexer.Chunks chunks page_idxs) /\
        chunks <> []).
Proof.
  intros f Hstrip.
  unfold Indexer.chunk_document, Indexer.extract_text_from_pdf.
  destruct (Z.leb_spec 100
              (Py.len (Py.strip (Py.join [10%N] (Indexer.pypdf_pages f)))))
    as [Hlen|Hlen]; cbn [fst].
  - right.
    assert (Hne : Py.strip (Py.join [10%N] (Indexer.pypdf_pages f)) <> []).
    { intros E. rewrite E in Hlen. unfold Py.len in Hlen. simpl in Hlen. lia. }
    destruct (stripped_has_ink _ Hne) as [c [Hc Hsp]].
    apply strip_incl in Hc. apply join_In in Hc.
    destruct Hc as [Hc|[p [Hp Hc]]].
    { destruct Hc as [<-|[]]. discriminate Hsp. }
    destruct (Indexer.pypdf_pages f) as [|p0 pages] eqn:Epages;
      [destruct Hp|].
    cbn [Py.truthy negb]. rewrite chunk_text_per_page_all.
    eexists; eexists. split; [reflexivity|].
    intros E. apply map_eq_nil in E.
    exact (ink_gives_chunks (p0 :: pages) p c Hp Hc Hsp E).
  - destruct (Indexer.pdfminer_text f) as [|c0 text] eqn:Et.
    + left. split; reflexivity.
    + right. cbn [Py.truthy negb hd]. rewrite chunk_text_per_page_all.
      eexists; eexists. split; [reflexivity|].
      intros E. apply map_eq_nil in E.
      assert (Hne : Py.strip (c0 :: text) <> [])
        by (rewrite Hstrip; discriminate).
      destruct (stripped_has_ink _ Hne) as [c [Hc Hsp]].
      rewrite Hstrip in Hc.
      exact (ink_gives_chunks [c0 :: text] (c0 :: text) c
               (or_introl eq_refl) Hc Hsp E).
Qed.

Lemma extracted_file_has_chunks_witness :
  (fst (Indexer.extract_text_from_pdf (Indexer.pages_of_a 130)) = [] /\
   Indexer.chunk_document (Indexer.pages_of_a 130) = Some Indexer.Skip) \/
  (exists (chunks : list Py.str) (page_idxs : list Z),
      Indexer.chunk_document (Indexer.pages_of_a 130)
        = Some (Indexer.Chunks chunks page_idxs) /\
      chunks <> []).
Proof.
  apply (extracted_file_has_chunks (Indexer.pages_of_a 130)). reflexivity.
Defined.

(** * More about the chunk store and the search *)

Section StoreMore.

Import Py VectorStore Indexer.

Lemma count_other (new : store) doc doc' :
  map doc_id new = repeat doc (length new) -> eqb doc doc' = false ->
  _get_indexed_count new doc' = 0%nat.
Proof.
  unfold _get_indexed_count. induction new as [|r new IH]; simpl; auto.
  intros H Hd. injection H as Hr Hn. rewrite Hr, Hd. auto.
Qed.

Lemma StronglySorted_app_inv {A} (R : A -> A -> Prop) (l1 l2 : list A) :
  StronglySorted R (l1 ++ l2) ->
  forall x y, In x l1 -> In y l2 -> R x y.
Proof.
  induction l1 as [|a l1 IH]; intros H x y Hx Hy; [destruct Hx|].
  simpl in H. inversion H as [|? ? Hs Hf]; subst.
  destruct Hx as [<-|Hx].
  - rewrite Forall_forall in Hf. apply Hf. apply in_or_app. right; exact Hy.
  - apply (IH Hs x y Hx Hy).
Qed.

Lemma slice_to_prefix {A} (l : list A) (k : Z) :
  exists n, slice_to l k = firstn n l.
Proof.
  unfold slice_to, slice. eexists.
  replace (Z.to_nat (adjust (len l) 0)) with 0%nat; [reflexivity|].
  unfold adjust, len. simpl. lia.
Qed.

Lemma slice_to_negative {A} (l : list A) (k : Z) :
  k < 0 -> len (slice_to l k) = Z.max 0 (len l + k).
Proof.
  intros Hk. destruct (slice_to_prefix l k) as [n Hn].
  unfold slice_to, slice, adjust, len.
  destruct (Z.ltb_spec k 0); [|lia]. change (0 <? 0) with false. cbv iota.
  rewrite length_firstn, length_skipn. lia.
Qed.

Lemma slice_to_drop {A} (l : list A) (k : Z) :
  k < 0 -> slice_to l k = firstn (Z.to_nat (len l + k)) l.
Proof.
  intros Hk. unfold slice_to, slice, adjust.
  destruct (Z.ltb_spec k 0); [|lia]. change (0 <? 0) with false. cbv iota.
  replace (Z.min 0 (len l)) with 0 by (unfold len; lia).
  simpl. f_equal. unfold len. lia.
Qed.

End StoreMore.

(** X7: after a successful [add_many] of [n] chunks for a document, the count
    of rows of that document (what the indexer's resume check reads) has
    grown by [n], and the count of every other document is unchanged. *)
Theorem add_many_advances_count :
  forall (s : VectorStore.store) (doc doc' : Py.str) (chunks : list Py.str)
         (metadatas : list VectorStore.metadata)
         (embeddings : list (list F64.t)),
    length chunks = length metadatas ->
    length metadatas = length embeddings ->
    Indexer._get_indexed_count
      (fst (VectorStore.add_many s doc chunks metadatas embeddings)) doc' =
    (Indexer._get_indexed_count s doc' +
     (if Py.eqb doc doc' then length chunks else 0))%nat.
Proof.
  intros s doc doc' chunks metadatas embeddings H1 H2.
  destruct (add_many_ok s doc chunks metadatas embeddings H1 H2)
    as [new [Ha [Hd [_ [Ht _]]]]].
  rewrite Ha. cbn [fst]. rewrite count_app. f_equal.
  assert (Hl : length new = length chunks)
    by (rewrite <- Ht; symmetry; apply length_map).
  rewrite <- Hl in Hd.
  destruct (Py.eqb doc doc') eqn:E.
  - apply eqb_eq in E. subst doc'. rewrite <- Hl. apply count_all. exact Hd.
  - apply (count_other new doc doc' Hd E).
Qed.

Lemma add_many_advances_count_witness :
  Indexer._get_indexed_count
    (fst (VectorStore.add_many VectorStore.three_vectors (Py.of_string "A.pdf")
            [Py.of_string "a"; Py.of_string "b"]
            [VectorStore.no_meta; VectorStore.no_meta]
            [[F64.of_Z 1]; [F64.of_Z 0]])) (Py.of_string "A.pdf") =
  (Indexer._get_indexed_count VectorStore.three_vectors (Py.of_string "A.pdf") +
   (if Py.eqb (Py.of_string "A.pdf") (Py.of_string "A.pdf")
    then length [Py.of_string "a"; Py.of_string "b"] else 0))%nat.
Proof.
  apply (add_many_advances_count VectorStore.three_vectors
           (Py.of_string "A.pdf") (Py.of_string "A.pdf")
           [Py.of_string "a"; Py.of_string "b"]
           [VectorStore.no_meta; VectorStore.no_meta]
           [[F64.of_Z 1]; [F64.of_Z 0]]); reflexivity.
Defined.

(** X8: the hits [search] returns are the best ones: every returned hit
    scores at least as high as every record of the table that is not
    returned (in the descending order that puts NaN last), for every
    [top_k]. *)
Theorem search_returns_the_best :
  forall (argsort : list F32.t -> list nat) (np : Numpy.kernels),
    VectorStore.sorts argsort ->
    forall (s : VectorStore.store) (q : list F64.t) (top_k : Z),
      VectorStore.shapes_agree s q = true ->
      exists (idxs : list nat) (out : list VectorStore.hit),
        VectorStore.search argsort np s q top_k = Ok out /\
        map Some out = map (VectorStore.hit_at np s q) idxs /\
        forall (h other : VectorStore.hit) (idx : nat),
          In h out ->
          ~ In idx idxs ->
          VectorStore.hit_at np s q idx = Some other ->
          F32.descending (VectorStore.h_score h) (VectorStore.h_score other)
          = true.
Proof.
  intros argsort np Hsorts s q top_k Hsh.
  destruct (search_ok np argsort Hsorts s q top_k Hsh) as [out [Hs Ho]].
  eexists; exists out. split; [exact Hs|]. split; [exact Ho|].
  intros h other idx Hh Hidx Hother.
  assert (Hi : exists i, In i (if Py.truthy s
                               then Py.slice_to
                                      (argsort (map F32.neg
                                                  (VectorStore.sims np s q)))
                                      top_k
                               else []) /\
                         VectorStore.hit_at np s q i = Some h).
  { assert (H : In (Some h) (map Some out)) by (apply in_map, Hh).
    rewrite Ho in H. apply in_map_iff in H. destruct H as [i [H1 H2]].
    exists i. auto. }
  destruct Hi as [i [Hi Hhit]].
  destruct (Py.truthy s); [|destruct Hi].
  set (L := argsort (map F32.neg (VectorStore.sims np s q))) in *.
  destruct (slice_to_prefix L top_k) as [n Hn]. rewrite Hn in Hi, Hidx.
  destruct (Hsorts (map F32.neg (VectorStore.sims np s q))) as [Hp Hss].
  fold L in Hp, Hss.
  apply hit_at_score in Hhit. destruct Hhit as [-> _].
  apply hit_at_score in Hother. destruct Hother as [-> Hlt].
  assert (HinL : In idx L).
  { apply (Permutation_in _ (Permutation_sym Hp)). apply in_seq.
    rewrite length_map, sims_length. lia. }
  rewrite <- (firstn_skipn n L) in HinL, Hss.
  apply in_app_or in HinL. destruct HinL as [HinL|HinL]; [contradiction|].
  pose proof (StronglySorted_app_inv _ _ _ Hss i idx Hi HinL) as HR.
  cbv beta in HR. rewrite !nth_neg in HR.
  apply sorted_neg_descending, HR.
Qed.

Lemma search_returns_the_best_witness :
  exists (idxs : list nat) (out : list VectorStore.hit),
    VectorStore.search VectorStore.argsort_stable Numpy.sequential
                       VectorStore.three_vectors
                       [F64.of_Z 1; F64.of_Z 0] 2 = Ok out /\
    map Some out =
      map (VectorStore.hit_at Numpy.sequential VectorStore.three_vectors
             [F64.of_Z 1; F64.of_Z 0]) idxs /\
    forall (h other : VectorStore.hit) (idx : nat),
      In h out ->
      ~ In idx idxs ->
      VectorStore.hit_at Numpy.sequential VectorStore.three_vectors
        [F64.of_Z 1; F64.of_Z 0] idx
        = Some other ->
      F32.descending (VectorStore.h_score h) (VectorStore.h_score other) = true.
Proof.
  apply (search_returns_the_best VectorStore.argsort_stable Numpy.sequential
           argsort_stable_sorts).
  reflexivity.
Defined.

(** X9: a negative [top_k] is not rejected.  On a table of [N] records
    of the query's dimension the slice [idxs[:top_k]] drops the last
    [-top_k] positions of the ranking: [search] returns the ranking of
    all [N] records (what it returns for [top_k = N], in descending order
    of score) without its last [-top_k] hits, that is its first
    [max(0, N + top_k)] hits.  A table that is not empty and has another
    dimension makes the call raise [ValueError], as for any [top_k]. *)
Theorem search_negative_top_k :
  forall (argsort : list F32.t -> list nat) (np : Numpy.kernels),
    VectorStore.sorts argsort ->
    forall (s : VectorStore.store) (q : list F64.t) (top_k : Z),
      top_k < 0 ->
      (VectorStore.shapes_agree s q = true ->
       exists ranked : list VectorStore.hit,
         VectorStore.search argsort np s q (Py.len s) = Ok ranked /\
         Py.len ranked = Py.len s /\
         StronglySorted
           (fun h1 h2 =>
              F32.descending (VectorStore.h_score h1) (VectorStore.h_score h2)
              = true)
           ranked /\
         VectorStore.search argsort np s q top_k =
           Ok (firstn (Z.to_nat (Py.len s + top_k)) ranked) /\
         Py.len (firstn (Z.to_nat (Py.len s + top_k)) ranked)
         = Z.max 0 (Py.len s + top_k)) /\
      (s <> [] ->
       VectorStore.shapes_agree s q = false ->
       VectorStore.search argsort np s q top_k = Raise ValueError).
Proof.
  intros argsort np Hsorts s q top_k Hk.
  split; [|apply search_raises].
  intros Hsh.
  destruct (search_ok np argsort Hsorts s q top_k Hsh) as [out [Hs Ho]].
  destruct (search_ok np argsort Hsorts s q (Py.len s) Hsh)
    as [ranked [Hs' Ho']].
  assert (HL : length (argsort (map F32.neg (VectorStore.sims np s q)))
               = length s).
  { rewrite (argsort_length argsort Hsorts), length_map.
    apply sims_length. }
  assert (Hlen : Py.len ranked = Py.len s).
  { unfold Py.len at 1.
    rewrite <- (length_map Some ranked), Ho', length_map.
    destruct (Py.truthy s) eqn:Ht.
    - rewrite slice_to_all by (unfold Py.len; rewrite HL; lia).
      unfold Py.len. rewrite HL. reflexivity.
    - apply truthy_false in Ht. subst s. reflexivity. }
  exists ranked. split; [exact Hs'|]. split; [exact Hlen|].
  split; [|split].
  - apply (hits_descending np s q _ ranked Ho').
    destruct (Py.truthy s); [|constructor].
    apply StronglySorted_slice. apply Hsorts.
  - rewrite Hs. f_equal. apply map_Some_inj.
    rewrite Ho, <- firstn_map, Ho', firstn_map. f_equal.
    destruct (Py.truthy s); [|rewrite firstn_nil; reflexivity].
    rewrite slice_to_drop by exact Hk.
    rewrite slice_to_all by (unfold Py.len; rewrite HL; lia).
    unfold Py.len. rewrite HL. reflexivity.
  - unfold Py.len in *. rewrite length_firstn. lia.
Qed.

Lemma search_negative_top_k_witness :
  exists ranked : list VectorStore.hit,
    VectorStore.search VectorStore.argsort_stable Numpy.sequential
                       VectorStore.three_vectors [F64.of_Z 1; F64.of_Z 0]
                       (Py.len VectorStore.three_vectors) = Ok ranked /\
    Py.len ranked = Py.len VectorStore.three_vectors /\
    StronglySorted
      (fun h1 h2 =>
         F32.descending (VectorStore.h_score h1) (VectorStore.h_score h2)
         = true)
      ranked /\
    VectorStore.search VectorStore.argsort_stable Numpy.sequential
                       VectorStore.three_vectors [F64.of_Z 1; F64.of_Z 0] (-1)
    = Ok (firstn (Z.to_nat (Py.len VectorStore.three_vectors + -1)) ranked) /\
    Py.len (firstn (Z.to_nat (Py.len VectorStore.three_vectors + -1)) ranked)
    = Z.max 0 (Py.len VectorStore.three_vectors + -1).
Proof.
  apply (search_negative_top_k VectorStore.argsort_stable Numpy.sequential
           argsort_stable_sorts VectorStore.three_vectors
           [F64.of_Z 1; F64.of_Z 0] (-1)); [lia|reflexivity].
Defined.

(** X17: raising [top_k] only adds lower-ranked hits: for [0 <= k <= k'], what
    [search] returns for [top_k = k] is the first [k] hits of what it
    returns for [top_k = k'], on the same table and query. *)
Theorem search_smaller_top_k_is_prefix :
  forall (argsort : list F32.t -> list nat) (np : Numpy.kernels),
    VectorStore.sorts argsort ->
    forall (s : VectorStore.store) (q : list F64.t) (k k' : Z),
      0 <= k <= k' ->
      VectorStore.shapes_agree s q = true ->
      exists out out' : list VectorStore.hit,
        VectorStore.search argsort np s q k = Ok out /\
        VectorStore.search argsort np s q k' = Ok out' /\
        out = firstn (Z.to_nat k) out'.
Proof.
  intros argsort np Hsorts s q k k' Hk Hsh.
  destruct (search_ok np argsort Hsorts s q k Hsh) as [out [Hs Ho]].
  destruct (search_ok np argsort Hsorts s q k' Hsh) as [out' [Hs' Ho']].
  exists out, out'. split; [exact Hs|]. split; [exact Hs'|].
  apply map_Some_inj. rewrite Ho, <- firstn_map, Ho', firstn_map. f_equal.
  destruct (Py.truthy s); [|rewrite firstn_nil; reflexivity].
  rewrite <- (Z2Nat.id k), <- (Z2Nat.id k') by lia.
  rewrite !slice_to_nat, !Z2Nat.id by lia.
  rewrite firstn_firstn. f_equal. lia.
Qed.

Lemma search_smaller_top_k_is_prefix_witness :
  exists out out' : list VectorStore.hit,
    VectorStore.search VectorStore.argsort_stable Numpy.sequential
                       VectorStore.three_vectors
                       [F64.of_Z 1; F64.of_Z 0] 1 = Ok out /\
    VectorStore.search VectorStore.argsort_stable Numpy.sequential
                       VectorStore.three_vectors
                       [F64.of_Z 1; F64.of_Z 0] 2 = Ok out' /\
    out = firstn (Z.to_nat 1) out'.
Proof.
  apply (search_smaller_top_k_is_prefix VectorStore.argsort_stable
           Numpy.sequential argsort_stable_sorts); [lia|reflexivity].
Defined.

Section ZeroVectors.

Import F32.

Lemma mul_zero_l x y :
  is_zero x = true -> is_finite y = true -> is_zero (mul x y) = true.
Proof.
  intros Hx Hy. destruct x; try discriminate Hx.
  destruct y; try discriminate Hy; reflexivity.
Qed.

Lemma mul_zero_r x y :
  is_finite x = true -> is_zero y = true -> is_zero (mul x y) = true.
Proof.
  intros Hx Hy. destruct y; try discriminate Hy.
  destruct x; try discriminate Hx; reflexivity.
Qed.

Lemma add_zero_zero x y :
  is_zero x = true -> is_zero y = true -> is_zero (add x y) = true.
Proof.
  intros Hx Hy. destruct x as [[]| | |]; try discriminate Hx;
    destruct y as [[]| | |]; try discriminate Hy; reflexivity.
Qed.

(** The dot product with an all-zero vector is a zero. *)
Lemma dot_from_zero_l (a b : list t) :
  Forall (fun x => is_zero x = true) a ->
  Forall (fun x => is_finite x = true) b ->
  forall acc, is_zero acc = true -> is_zero (dot_from acc a b) = true.
Proof.
  intros Ha. revert b. induction Ha as [|x a Hx Ha IH]; intros b Hb acc Hacc.
  - destruct b; exact Hacc.
  - destruct b as [|y b]; [exact Hacc|]. inversion Hb; subst. simpl.
    apply IH; [assumption|]. apply add_zero_zero; [exact Hacc|].
    apply mul_zero_l; assumption.
Qed.

Lemma dot_from_zero_r (a b : list t) :
  Forall (fun x => is_finite x = true) a ->
  Forall (fun x => is_zero x = true) b ->
  forall acc, is_zero acc = true -> is_zero (dot_from acc a b) = true.
Proof.
  intros Ha. revert b. induction Ha as [|x a Hx Ha IH]; intros b Hb acc Hacc.
  - destruct b; exact Hacc.
  - destruct b as [|y b]; [exact Hacc|]. inversion Hb; subst. simpl.
    apply IH; [assumption|]. apply add_zero_zero; [exact Hacc|].
    apply mul_zero_r; assumption.
Qed.

Lemma zero_is_finite (a : list t) :
  Forall (fun x => is_zero x = true) a ->
  Forall (fun x => is_finite x = true) a.
Proof.
  intros H. eapply Forall_impl; [|exact H]. intros x Hx.
  destruct x; try discriminate Hx; reflexivity.
Qed.

Lemma norm_zero (a : list t) :
  Forall (fun x => is_zero x = true) a -> is_zero (norm a) = true.
Proof.
  intros H. unfold norm, dot.
  pose proof (dot_from_zero_l a a H (zero_is_finite a H) zero eq_refl) as Hd.
  destruct (dot_from zero a a); try discriminate Hd. reflexivity.
Qed.

(** With a zero among the two norms the denominator is the constant
    [1e-12], and a zero divided by it is a zero. *)
Lemma zero_over_epsilon d n1 n2 :
  is_zero d = true ->
  (is_zero n1 = true /\ is_finite n2 = true) \/
  (is_finite n1 = true /\ is_zero n2 = true) ->
  is_zero (div d (add (mul n1 n2) (of_f64 F64.lit_1e_12))) = true.
Proof.
  intros Hd Hn.
  assert (Hm : is_zero (mul n1 n2) = true).
  { destruct Hn as [[H1 H2]|[H1 H2]];
      [apply mul_zero_l|apply mul_zero_r]; assumption. }
  assert (He : of_f64 F64.lit_1e_12 = S754_finite false 9223372 (-63))
    by (vm_compute; reflexivity).
  rewrite He. clear He.
  destruct (mul n1 n2) as [sm| | |]; try discriminate Hm.
  destruct d as [sd| | |]; try discriminate Hd. reflexivity.
Qed.

End ZeroVectors.

Section ZeroScores.

Import Py VectorStore.

Lemma forallb_Forall {A} (f : A -> bool) (l : list A) :
  Forall (fun x => f x = true) l -> forallb f l = true.
Proof. intros H. apply forallb_forall. apply Forall_forall. exact H. Qed.

Lemma same_is_zero x y :
  F32.same x y -> F32.is_zero y = true -> F32.is_zero x = true.
Proof. intros [->|[H _]] Hy; assumption. Qed.

Variable np : Numpy.kernels.
Hypothesis np_exact : Numpy.exact np.

(** The score of a row is a zero as soon as the row or the query is all
    zeros and the other vector and its norm are finite. *)
Lemma score_zero (s : store) (q : list F64.t) (idx : nat) (r : row) :
  nth_error s idx = Some r ->
  length (embedding r) = length q ->
  (Forall (fun x => F32.is_zero x = true) (F32.array (embedding r)) /\
   Forall (fun x => F32.is_finite x = true) (F32.array q) /\
   F32.is_finite (Numpy.norm np (F32.array q)) = true) \/
  (Forall (fun x => F32.is_zero x = true) (F32.array q) /\
   Forall (fun x => F32.is_finite x = true) (F32.array (embedding r)) /\
   F32.is_finite (Numpy.norm_rows np (matrix s) idx) = true) ->
  F32.is_zero (score np (matrix s) (F32.array q) idx) = true.
Proof.
  intros Hr Hlen Hz. destruct np_exact as [Hm [Hrows Hq]].
  assert (Hrow : nth_error (matrix s) idx = Some (F32.array (embedding r)))
    by (unfold matrix; rewrite nth_error_map, Hr; reflexivity).
  assert (Hl : length (F32.array (embedding r)) = length (F32.array q))
    by (unfold F32.array; rewrite !length_map; exact Hlen).
  unfold score.
  destruct Hz as [[He [Hfq Hn]]|[Hzq [Hfe Hn]]].
  - apply zero_over_epsilon.
    + apply (same_is_zero _ (F32.dot (F32.array (embedding r)) (F32.array q))).
      * apply Hm; [exact Hrow|exact Hl|].
        unfold Numpy.order_free, Numpy.zero_against.
        rewrite (forallb_Forall _ _ He), (forallb_Forall _ _ Hfq).
        rewrite ?orb_true_r; reflexivity.
      * apply dot_from_zero_l; [exact He|exact Hfq|reflexivity].
    + left. split; [|exact Hn].
      rewrite (Hrows _ _ _ Hrow); [apply norm_zero; exact He|].
      unfold Numpy.order_free, Numpy.zero_against.
      rewrite (forallb_Forall _ _ He),
              (forallb_Forall _ _ (zero_is_finite _ He)).
      rewrite ?orb_true_r; reflexivity.
  - apply zero_over_epsilon.
    + apply (same_is_zero _ (F32.dot (F32.array (embedding r)) (F32.array q))).
      * apply Hm; [exact Hrow|exact Hl|].
        unfold Numpy.order_free, Numpy.zero_against.
        rewrite (forallb_Forall _ _ Hzq), (forallb_Forall _ _ Hfe).
        rewrite ?orb_true_r; reflexivity.
      * apply dot_from_zero_r; [exact Hfe|exact Hzq|reflexivity].
    + right. split; [exact Hn|].
      rewrite Hq; [apply norm_zero; exact Hzq|].
      unfold Numpy.order_free, Numpy.zero_against.
      rewrite (forallb_Forall _ _ Hzq),
              (forallb_Forall _ _ (zero_is_finite _ Hzq)).
      rewrite ?orb_true_r; reflexivity.
Qed.

End ZeroScores.

(** X10: degenerate vectors do not divide by zero.  With kernels that are
    exact where nothing is rounded, when the stored embedding of a record
    of the query's dimension is all zeros, or the query is, and the other
    vector has finite entries and a finite norm, the score of that record
    is 0.0 (not NaN). *)
Theorem zero_vector_scores_zero :
  forall (np : Numpy.kernels) (s : VectorStore.store) (q : list F64.t)
         (idx : nat) (r : VectorStore.row) (h : VectorStore.hit),
    Numpy.exact np ->
    nth_error s idx = Some r ->
    length (VectorStore.embedding r) = length q ->
    VectorStore.hit_at np s q idx = Some h ->
    (Forall (fun x => F32.is_zero x = true)
            (F32.array (VectorStore.embedding r)) /\
     Forall (fun x => F32.is_finite x = true) (F32.array q) /\
     F32.is_finite (Numpy.norm np (F32.array q)) = true) \/
    (Forall (fun x => F32.is_zero x = true) (F32.array q) /\
     Forall (fun x => F32.is_finite x = true)
            (F32.array (VectorStore.embedding r)) /\
     F32.is_finite
       (Numpy.norm_rows np
          (map (fun r => F32.array (VectorStore.embedding r)) s) idx)
     = true) ->
    F32.is_zero (VectorStore.h_score h) = true.
Proof.
  intros np s q idx r h Hexact Hr Hlen Hh Hz.
  apply hit_at_fields in Hh.
  destruct Hh as [r' [_ [_ [_ [_ [_ [_ Hs]]]]]]]. rewrite Hs.
  apply (score_zero np Hexact s q idx r Hr Hlen Hz).
Qed.

Lemma zero_vector_scores_zero_witness :
  F32.is_zero
    (VectorStore.h_score
       {| VectorStore.h_id := 1;
          VectorStore.h_doc_id := Py.of_string "A.pdf";
          VectorStore.h_chunk_id := 0;
          VectorStore.h_text := [];
          VectorStore.h_meta := VectorStore.no_meta;
          VectorStore.h_score :=
            VectorStore.score Numpy.sequential
              (VectorStore.matrix [VectorStore.example_row 1 [0; 0]])
              (F32.array [F64.of_Z 1; F64.of_Z 0]) 0 |})
  = true.
Proof.
  apply (zero_vector_scores_zero Numpy.sequential
           [VectorStore.example_row 1 [0; 0]]
           [F64.of_Z 1; F64.of_Z 0] 0 (VectorStore.example_row 1 [0; 0])).
  - exact sequential_exact.
  - reflexivity.
  - reflexivity.
  - reflexivity.
  - left. split; [|split].
    + repeat constructor.
    + repeat constructor.
    + vm_compute. reflexivity.
Defined.

(** * More about the indexing run *)

Section RunMore.

Import Py VectorStore Indexer.

Lemma range_In_lt (total b : nat) :
  (0 < b)%nat ->
  forall n a i, (total - a <= n)%nat -> In i (range a total b) ->
                (a <= i < total)%nat.
Proof.
  intros Hb. induction n as [|n IH]; intros a i Hn Hi.
  - rewrite range_nil in Hi by lia. destruct Hi.
  - destruct (Nat.le_gt_cases total a) as [Ha|Ha].
    + rewrite range_nil in Hi by lia. destruct Hi.
    + rewrite range_cons in Hi by lia. destruct Hi as [<-|Hi]; [lia|].
      apply IH in Hi; lia.
Qed.

Lemma range_length (total b : nat) :
  (0 < b)%nat ->
  forall n a, (total - a <= n)%nat ->
    length (range a total b) = ((total - a + b - 1) / b)%nat.
Proof.
  intros Hb. induction n as [|n IH]; intros a Hn.
  - rewrite range_nil by lia. replace (total - a)%nat with 0%nat by lia.
    symmetry. apply Nat.div_small. lia.
  - destruct (Nat.le_gt_cases total a) as [Ha|Ha].
    + rewrite range_nil by lia. replace (total - a)%nat with 0%nat by lia.
      symmetry. apply Nat.div_small. lia.
    + rewrite range_cons by lia. cbn [length]. rewrite IH by lia.
      destruct (Nat.le_gt_cases (a + b) total) as [Hab|Hab].
      * replace (total - a + b - 1)%nat
          with ((total - (a + b) + b - 1) + 1 * b)%nat by lia.
        rewrite Nat.div_add by lia. lia.
      * replace (total - (a + b))%nat with 0%nat by lia.
        rewrite (Nat.div_small (0 + b - 1) b) by lia.
        apply (Nat.div_unique _ _ _ (total - a - 1)); lia.
Qed.

(** A batch that starts inside the list has between 1 and [BATCH]
    elements. *)
Lemma batch_size {A} (l : list A) (i : nat) :
  (i < length l)%nat ->
  (1 <= length (firstn BATCH (skipn i l)) <= BATCH)%nat.
Proof.
  intros Hi. rewrite length_firstn, length_skipn. unfold BATCH. lia.
Qed.

Variable path : str.
Variable chunks : list str.
Variable metadatas : list metadata.
Hypothesis metadatas_length : length metadatas = length chunks.

(** Whatever the provider does, the loop leaves the old table followed by
    the rows of the batches it got through. *)
Lemma batch_loop_any (embed_texts : nat -> list str -> option (list (list F64.t))) :
  forall starts st,
    exists (k : nat) (new : list row),
      db (fst (batch_loop embed_texts path chunks metadatas starts st))
        = db st ++ new /\
      batch_rows path chunks metadatas (firstn k starts) new.
Proof.
  induction starts as [|i starts IH]; intros st.
  - exists 0%nat, []. simpl. rewrite app_nil_r. repeat split.
  - cbn [batch_loop]. rewrite !batch_slice.
    destruct (embed_texts (calls st) (firstn BATCH (skipn i chunks)))
      as [embs|] eqn:He.
    + destruct (Nat.eq_dec (length embs)
                  (length (firstn BATCH (skipn i chunks)))) as [Hl|Hl].
      * destruct (add_many_ok (db st) path (firstn BATCH (skipn i chunks))
                    (firstn BATCH (skipn i metadatas)) embs)
          as [new1 [Ha [Hd [Hc [Ht [Hm _]]]]]].
        { symmetry. apply (batch_lengths chunks metadatas metadatas_length). }
        { rewrite (batch_lengths chunks metadatas metadatas_length).
          congruence. }
        rewrite Ha.
        destruct (IH {| db := db st ++ new1; calls := S (calls st) |})
          as [k [new [Hdb Hr]]].
        exists (S k), (new1 ++ new). rewrite Hdb. cbn [db firstn].
        rewrite <- app_assoc. split; [reflexivity|].
        apply batch_rows_cons; assumption.
      * rewrite add_many_raises.
        -- exists 0%nat, []. simpl. rewrite app_nil_r. repeat split.
        -- intros [_ Hc]. apply Hl. rewrite <- Hc.
           apply (batch_lengths chunks metadatas metadatas_length).
    + exists 0%nat, []. simpl. rewrite app_nil_r. repeat split.
Qed.

(** The rows of batches: every [chunk_id] is a position within a batch. *)
Lemma batch_rows_chunk_id starts new :
  batch_rows path chunks metadatas starts new ->
  Forall (fun r => doc_id r = path /\ 0 <= chunk_id r < Z.of_nat BATCH) new.
Proof.
  intros [Hd [_ [_ Hc]]]. apply Forall_forall. intros r Hr. split.
  - assert (H : In (doc_id r) (map doc_id new)) by (apply in_map, Hr).
    rewrite Hd in H. apply repeat_spec in H. exact H.
  - assert (H : In (chunk_id r) (map chunk_id new)) by (apply in_map, Hr).
    rewrite Hc in H. apply in_flat_map in H. destruct H as [i [_ H]].
    apply in_map_iff in H. destruct H as [n [<- Hn]].
    apply in_seq in Hn. rewrite length_firstn in Hn. lia.
Qed.

(** The loop asks the provider only about the batches: two providers that
    agree on requests of 1 to [BATCH] texts drive it the same way. *)
Lemma batch_loop_ext (e1 e2 : nat -> list str -> option (list (list F64.t))) :
  (forall n texts, (1 <= length texts <= BATCH)%nat ->
                   e1 n texts = e2 n texts) ->
  forall starts st,
    Forall (fun i => (i < length chunks)%nat) starts ->
    batch_loop e1 path chunks metadatas starts st =
    batch_loop e2 path chunks metadatas starts st.
Proof.
  intros Hagree. induction starts as [|i starts IH]; intros st Hs.
  - reflexivity.
  - inversion Hs as [|? ? Hi Hs']; subst. cbn [batch_loop].
    rewrite !batch_slice.
    rewrite (Hagree (calls st) (firstn BATCH (skipn i chunks)))
      by (apply batch_size; exact Hi).
    destruct (e2 (calls st) (firstn BATCH (skipn i chunks))) as [embs|];
      [|reflexivity].
    destruct (add_many _ _ _ _ _) as [db' [u|e]]; [|reflexivity].
    apply IH. exact Hs'.
Qed.

End RunMore.

Section FileMore.

Import Py VectorStore Indexer.

Lemma metadatas_of_ok (f : pdf) chunks page_idxs :
  chunk_document f = Some (Chunks chunks page_idxs) ->
  length (metadatas_of f page_idxs) = length chunks.
Proof.
  intros Hc. rewrite metadatas_of_length.
  apply (chunk_document_lengths f _ _ Hc).
Qed.

(** Whatever the provider does, the loop body returns, and leaves the old
    table followed by rows of the file. *)
Lemma index_document_any
    (embed_texts : nat -> list str -> option (list (list F64.t)))
    (f : pdf) (st : state) :
  exists (st' : state) (fl : flow) (new : list row),
    index_document embed_texts f st = Some (st', fl) /\
    db st' = db st ++ new /\
    Forall (fun r => doc_id r = path f /\ 0 <= chunk_id r < Z.of_nat BATCH) new.
Proof.
  assert (Hskip : exists (st' : state) (fl : flow) (new : list row),
             Some (st, Continue) = Some (st', fl) /\
             db st' = db st ++ new /\
             Forall (fun r => doc_id r = path f /\
                              0 <= chunk_id r < Z.of_nat BATCH) new).
  { exists st, Continue, []. rewrite app_nil_r. repeat split. constructor. }
  destruct (chunk_document_total f) as [c Hc].
  destruct c as [|chunks page_idxs].
  - unfold index_document. rewrite Hc. exact Hskip.
  - destruct (Nat.le_gt_cases (length chunks)
                (_get_indexed_count (db st) (path f))) as [Hle|Hlt].
    + rewrite (index_document_skips embed_texts f st); [exact Hskip|].
      intros ch pi Hch. rewrite Hc in Hch. injection Hch as <- <-. exact Hle.
    + rewrite (index_document_batches embed_texts f st chunks page_idxs Hc Hlt).
      destruct (batch_loop_any (path f) chunks (metadatas_of f page_idxs)
                  (metadatas_of_ok f chunks page_idxs Hc) embed_texts
                  (range (_get_indexed_count (db st) (path f))
                         (length chunks) BATCH) st) as [k [new [Hdb Hr]]].
      apply batch_rows_chunk_id in Hr;
        [|exact (metadatas_of_ok f chunks page_idxs Hc)].
      destruct (batch_loop _ _ _ _ _ _) as [st' [u|e]]; cbn [fst] in Hdb.
      * exists st', Continue, new. split; [reflexivity|split; assumption].
      * exists st', Return, new. split; [reflexivity|split; assumption].
Qed.

Lemma index_files_any
    (embed_texts : nat -> list str -> option (list (list F64.t)))
    (files : list pdf) :
  forall st,
    exists (st' : state) (fl : flow) (new : list row),
      index_files embed_texts files st = Some (st', fl) /\
      db st' = db st ++ new /\
      Forall (fun r => In (doc_id r) (map path files) /\
                       0 <= chunk_id r < Z.of_nat BATCH) new.
Proof.
  induction files as [|f files IH]; intros st.
  - exists st, Continue, []. rewrite app_nil_r. repeat split. constructor.
  - cbn [index_files].
    destruct (index_document_any embed_texts f st)
      as [st1 [fl1 [new1 [Hd [Hdb1 Hf1]]]]].
    rewrite Hd.
    assert (Hf1' : Forall (fun r => In (doc_id r) (map path (f :: files)) /\
                                    0 <= chunk_id r < Z.of_nat BATCH) new1).
    { eapply Forall_impl; [|exact Hf1]. intros r [Hr Hc].
      split; [left; symmetry; exact Hr|exact Hc]. }
    destruct fl1.
    + destruct (IH st1) as [st2 [fl2 [new2 [Hi [Hdb2 Hf2]]]]].
      exists st2, fl2, (new1 ++ new2). rewrite Hi, Hdb2, Hdb1, <- app_assoc.
      repeat split. apply Forall_app. split; [exact Hf1'|].
      eapply Forall_impl; [|exact Hf2]. intros r [Hr Hc].
      split; [right; exact Hr|exact Hc].
    + exists st1, Return, new1. repeat split; assumption.
Qed.

(** The provider is asked only about batches. *)
Lemma index_document_ext
    (e1 e2 : nat -> list str -> option (list (list F64.t))) :
  (forall n texts, (1 <= length texts <= BATCH)%nat ->
                   e1 n texts = e2 n texts) ->
  forall f st, index_document e1 f st = index_document e2 f st.
Proof.
  intros Hagree f st. unfold index_document.
  destruct (chunk_document f) as [[|chunks page_idxs]|]; try reflexivity.
  destruct (negb (truthy chunks)); [reflexivity|].
  destruct (Nat.leb_spec (length chunks)
              (_get_indexed_count (db st) (path f))); [reflexivity|].
  rewrite (batch_loop_ext (path f) chunks _ e1 e2 Hagree); [reflexivity|].
  apply Forall_forall. intros i Hi.
  apply (range_In_lt (length chunks) BATCH) with (n := length chunks) in Hi;
    [lia|unfold BATCH; lia|lia].
Qed.

Lemma index_files_ext
    (e1 e2 : nat -> list str -> option (list (list F64.t))) :
  (forall n texts, (1 <= length texts <= BATCH)%nat ->
                   e1 n texts = e2 n texts) ->
  forall files st, index_files e1 files st = index_files e2 files st.
Proof.
  intros Hagree. induction files as [|f files IH]; intros st; [reflexivity|].
  cbn [index_files]. rewrite (index_document_ext e1 e2 Hagree).
  destruct (index_document e2 f st) as [[st' [|]]|]; auto.
Qed.

(** With a provider that answers, the loop body stores the chunks of the
    file from the stored count on. *)
Lemma index_document_rest
    (embed_texts : nat -> list str -> option (list (list F64.t)))
    (f : pdf) (st : state) chunks page_idxs :
  reliable embed_texts ->
  chunk_document f = Some (Chunks chunks page_idxs) ->
  (_get_indexed_count (db st) (path f) < length chunks)%nat ->
  exists new : list row,
    index_document embed_texts f st =
      Some ({| db := db st ++ new;
               calls := calls st +
                        (length chunks - _get_indexed_count (db st) (path f)
                         + BATCH - 1) / BATCH |}, Continue) /\
    map doc_id new = repeat (path f) (length new) /\
    map text new = skipn (_get_indexed_count (db st) (path f)) chunks /\
    map meta new =
      skipn (_get_indexed_count (db st) (path f)) (metadatas_of f page_idxs).
Proof.
  intros Hr Hc Hlt.
  rewrite (index_document_batches embed_texts f st chunks page_idxs Hc Hlt).
  pose proof (metadatas_of_ok f chunks page_idxs Hc) as Hlen.
  destruct (batch_loop_answers embed_texts (path f) chunks
              (metadatas_of f page_idxs) Hlen
              (range (_get_indexed_count (db st) (path f))
                     (length chunks) BATCH) st) as [new [Hb Hrows]].
  { intros j i _. apply Hr. }
  rewrite Hb. exists new.
  rewrite (range_length (length chunks) BATCH) with (n := length chunks)
    by (unfold BATCH; lia).
  split; [reflexivity|]. destruct Hrows as [Hd [Ht [Hm _]]].
  split; [exact Hd|]. split.
  - rewrite Ht. apply batches_cover.
  - rewrite Hm, <- Hlen. apply batches_cover.
Qed.

Lemma filter_doc_all (new : store) doc :
  map doc_id new = repeat doc (length new) ->
  filter (fun r => eqb (doc_id r) doc) new = new.
Proof.
  induction new as [|r new IH]; simpl; auto.
  intros H. injection H as Hr Hn. rewrite Hr, eqb_refl. f_equal. auto.
Qed.

Lemma filter_doc_none (new : store) doc :
  Forall (fun r => doc_id r <> doc) new ->
  filter (fun r => eqb (doc_id r) doc) new = [].
Proof.
  induction 1 as [|r new Hr _ IH]; simpl; auto.
  destruct (eqb (doc_id r) doc) eqn:E; [|exact IH].
  apply eqb_eq in E. contradiction.
Qed.

(** From a table without rows of the files, a run with a provider that
    answers leaves, for each file, the rows of its chunks in order. *)
Lemma index_files_fresh
    (embed_texts : nat -> list str -> option (list (list F64.t))) :
  reliable embed_texts ->
  forall files st,
    NoDup (map path files) ->
    Forall (fun f => _get_indexed_count (db st) (path f) = 0%nat) files ->
    exists (st' : state) (new : list row),
      index_files embed_texts files st = Some (st', Continue) /\
      db st' = db st ++ new /\
      Forall (fun r => In (doc_id r) (map path files)) new /\
      forall f, In f files ->
        match chunk_document f with
        | Some (Chunks chunks page_idxs) =>
            map text (filter (fun r => eqb (doc_id r) (path f)) new) = chunks /\
            map meta (filter (fun r => eqb (doc_id r) (path f)) new)
              = metadatas_of f page_idxs
        | _ => filter (fun r => eqb (doc_id r) (path f)) new = []
        end.
Proof.
  intros Hr. induction files as [|f files IH]; intros st Hnd Hz.
  - exists st, []. rewrite app_nil_r. repeat split; [constructor|intros f []].
  - inversion Hnd as [|? ? Hnotin Hnd']; subst.
    inversion Hz as [|? ? Hz0 Hz']; subst.
    (* the rows of [f] *)
    assert (Hf : exists new1 c1,
      index_document embed_texts f st =
        Some ({| db := db st ++ new1; calls := c1 |}, Continue) /\
      map doc_id new1 = repeat (path f) (length new1) /\
      match chunk_document f with
      | Some (Chunks chunks page_idxs) =>
          map text new1 = chunks /\ map meta new1 = metadatas_of f page_idxs
      | _ => new1 = []
      end).
    { destruct (chunk_document_total f) as [c Hc]. rewrite Hc.
      destruct c as [|chunks page_idxs].
      - exists [], (calls st). rewrite app_nil_r. unfold index_document.
        rewrite Hc. destruct st; repeat split.
      - destruct chunks as [|c chunks].
        + exists [], (calls st). rewrite app_nil_r. unfold index_document.
          rewrite Hc. cbn [truthy negb].
          pose proof (chunk_document_lengths f _ _ Hc) as Hl.
          destruct page_idxs; [|discriminate Hl].
          destruct st; repeat split.
        + destruct (index_document_rest embed_texts f st (c :: chunks)
                      page_idxs Hr Hc) as [new1 [Hd [Hid [Ht Hm]]]];
            [rewrite Hz0; simpl; lia|].
          rewrite Hz0 in Ht, Hm. cbn [skipn] in Ht, Hm.
          exists new1. eexists. split; [exact Hd|]. split; [exact Hid|].
          split; assumption. }
    destruct Hf as [new1 [c1 [Hd [Hid Hrows]]]].
    set (st1 := {| db := db st ++ new1; calls := c1 |}) in *.
    assert (Hother : forall doc, doc <> path f ->
                       Forall (fun r => doc_id r <> doc) new1).
    { intros doc Hdoc. apply Forall_forall. intros r Hin.
      assert (H : In (doc_id r) (map doc_id new1)) by (apply in_map, Hin).
      rewrite Hid in H. apply repeat_spec in H. congruence. }
    destruct (IH st1 Hnd') as [st2 [new2 [Hi [Hdb2 [Hin2 Hrows2]]]]].
    { apply Forall_forall. intros f' Hf'.
      rewrite Forall_forall in Hz'. specialize (Hz' f' Hf').
      unfold st1. cbn [db]. rewrite count_app, Hz'.
      unfold _get_indexed_count. rewrite filter_doc_none; [reflexivity|].
      apply Hother. intros E. apply Hnotin. rewrite <- E.
      apply in_map, Hf'. }
    exists st2, (new1 ++ new2). cbn [index_files]. rewrite Hd, Hi.
    split; [reflexivity|].
    split; [rewrite Hdb2; unfold st1; cbn [db]; symmetry; apply app_assoc|].
    split.
    { apply Forall_app. split.
      - apply Forall_forall. intros r Hin. left.
        assert (H : In (doc_id r) (map doc_id new1)) by (apply in_map, Hin).
        rewrite Hid in H. apply repeat_spec in H. auto.
      - eapply Forall_impl; [|exact Hin2]. intros r H. right; exact H. }
    intros f' [<-|Hf'].
    + rewrite filter_app, (filter_doc_all new1 (path f) Hid).
      rewrite (filter_doc_none new2), app_nil_r.
      * destruct (chunk_document f) as [[|chunks page_idxs]|]; auto.
      * eapply Forall_impl; [|exact Hin2]. intros r Hin E.
        apply Hnotin. rewrite <- E. exact Hin.
    + rewrite filter_app, (filter_doc_none new1); [apply Hrows2, Hf'|].
      apply Hother. intros E. apply Hnotin. rewrite <- E.
      apply in_map, Hf'.
Qed.

End FileMore.

(** X11: [index_pdfs] only appends: whatever the embedding provider does, it
    returns, the rows the table held before are still there in the same
    order, and each added row belongs to one of the files and has a
    [chunk_id] between 0 and 63. *)
Theorem index_pdfs_only_appends :
  forall (embed_texts : nat -> list Py.str -> option (list (list F64.t)))
         (files : list Indexer.pdf) (s : VectorStore.store),
    exists new : list VectorStore.row,
      Indexer.index_pdfs embed_texts files s = Some (s ++ new) /\
      Forall (fun r => In (VectorStore.doc_id r) (map Indexer.path files) /\
                       0 <= VectorStore.chunk_id r < 64) new.
Proof.
  intros embed_texts files s.
  destruct (index_files_any embed_texts files
              {| Indexer.db := s; Indexer.calls := 0 |})
    as [st' [fl [new [Hi [Hdb Hf]]]]].
  exists new. unfold Indexer.index_pdfs. rewrite Hi. cbn [option_map fst].
  rewrite Hdb. split; [reflexivity|exact Hf].
Qed.

(** X12: the embedding provider is only ever asked for between 1 and 64 texts
    at a time: two providers that agree on all such requests make
    [index_pdfs] leave the same table. *)
Theorem index_pdfs_requests_are_batches :
  forall (e1 e2 : nat -> list Py.str -> option (list (list F64.t))),
    (forall n texts, (1 <= length texts <= 64)%nat -> e1 n texts = e2 n texts) ->
    forall (files : list Indexer.pdf) (s : VectorStore.store),
      Indexer.index_pdfs e1 files s = Indexer.index_pdfs e2 files s.
Proof.
  intros e1 e2 Hagree files s. unfold Indexer.index_pdfs.
  rewrite (index_files_ext e1 e2 Hagree). reflexivity.
Qed.

Lemma index_pdfs_requests_are_batches_witness :
  Indexer.index_pdfs Indexer.constant_provider [Indexer.pages_of_a 130] [] =
  Indexer.index_pdfs
    (fun n texts => if (length texts <=? 64)%nat
                    then Indexer.constant_provider n texts else None)
    [Indexer.pages_of_a 130] [].
Proof.
  apply (index_pdfs_requests_are_batches Indexer.constant_provider
           (fun n texts => if (length texts <=? 64)%nat
                           then Indexer.constant_provider n texts else None)).
  intros n texts H. destruct (Nat.leb_spec (length texts) 64); [reflexivity|lia].
Defined.

(** X13: resuming a file: with a provider that answers every request and [a]
    rows already stored for the file ([a] less than its number of chunks),
    the loop body appends one row per remaining chunk, with the text and
    the metadata of the chunks from index [a] on, and has then made
    [ceil((total - a) / 64)] requests. *)
Theorem index_document_stores_the_rest :
  forall (embed_texts : nat -> list Py.str -> option (list (list F64.t)))
         (f : Indexer.pdf) (st : Indexer.state)
         (chunks : list Py.str) (page_idxs : list Z),
    Indexer.reliable embed_texts ->
    Indexer.chunk_document f = Some (Indexer.Chunks chunks page_idxs) ->
    (Indexer._get_indexed_count (Indexer.db st) (Indexer.path f)
     < length chunks)%nat ->
    exists new : list VectorStore.row,
      Indexer.index_document embed_texts f st =
        Some ({| Indexer.db := Indexer.db st ++ new;
                 Indexer.calls :=
                   Indexer.calls st +
                   (length chunks
                    - Indexer._get_indexed_count (Indexer.db st) (Indexer.path f)
                    + 64 - 1) / 64 |}, Indexer.Continue) /\
      map VectorStore.doc_id new = repeat (Indexer.path f) (length new) /\
      map VectorStore.text new =
        skipn (Indexer._get_indexed_count (Indexer.db st) (Indexer.path f))
              chunks /\
      map VectorStore.meta new =
        skipn (Indexer._get_indexed_count (Indexer.db st) (Indexer.path f))
              (Indexer.metadatas_of f page_idxs).
Proof.
  intros embed_texts f st chunks page_idxs Hr Hc Hlt.
  apply (index_document_rest embed_texts f st chunks page_idxs Hr Hc Hlt).
Qed.

(** X14: end to end: indexing files of distinct paths into an empty table with
    a provider that answers every request stores, for each file, exactly
    its chunks in order, each with the metadata built for it; a file
    without extracted text gets no row. *)
Theorem index_pdfs_stores_every_chunk :
  forall (embed_texts : nat -> list Py.str -> option (list (list F64.t)))
         (files : list Indexer.pdf),
    Indexer.reliable embed_texts ->
    NoDup (map Indexer.path files) ->
    exists s1 : VectorStore.store,
      Indexer.index_pdfs embed_texts files [] = Some s1 /\
      Forall (fun r => In (VectorStore.doc_id r) (map Indexer.path files)) s1 /\
      forall f, In f files ->
        match Indexer.chunk_document f with
        | Some (Indexer.Chunks chunks page_idxs) =>
            map VectorStore.text
                (filter (fun r => Py.eqb (VectorStore.doc_id r) (Indexer.path f))
                        s1) = chunks /\
            map VectorStore.meta
                (filter (fun r => Py.eqb (VectorStore.doc_id r) (Indexer.path f))
                        s1) = Indexer.metadatas_of f page_idxs
        | _ =>
            filter (fun r => Py.eqb (VectorStore.doc_id r) (Indexer.path f)) s1
            = []
        end.
Proof.
  intros embed_texts files Hr Hnd.
  destruct (index_files_fresh embed_texts Hr files
              {| Indexer.db := []; Indexer.calls := 0 |} Hnd)
    as [st' [new [Hi [Hdb [Hin Hrows]]]]].
  { apply Forall_forall. intros f _. reflexivity. }
  exists new. unfold Indexer.index_pdfs. rewrite Hi. cbn [option_map fst].
  rewrite Hdb. split; [reflexivity|]. split; [exact Hin|exact Hrows].
Qed.

Lemma index_document_stores_the_rest_witness :
  exists new : list VectorStore.row,
    Indexer.index_document Indexer.constant_provider (Indexer.pages_of_a 130)
      {| Indexer.db := []; Indexer.calls := 0 |} =
      Some ({| Indexer.db := [] ++ new;
               Indexer.calls :=
                 0 + (length (repeat (Py.of_string "a") 130)
                      - Indexer._get_indexed_count []
                          (Indexer.path (Indexer.pages_of_a 130))
                      + 64 - 1) / 64 |}, Indexer.Continue) /\
    map VectorStore.doc_id new
      = repeat (Indexer.path (Indexer.pages_of_a 130)) (length new) /\
    map VectorStore.text new =
      skipn (Indexer._get_indexed_count []
               (Indexer.path (Indexer.pages_of_a 130)))
            (repeat (Py.of_string "a") 130) /\
    map VectorStore.meta new =
      skipn (Indexer._get_indexed_count []
               (Indexer.path (Indexer.pages_of_a 130)))
            (Indexer.metadatas_of (Indexer.pages_of_a 130)
               (map Z.of_nat (seq 0 130))).
Proof.
  apply (index_document_stores_the_rest Indexer.constant_provider
           (Indexer.pages_of_a 130)
           {| Indexer.db := []; Indexer.calls := 0 |}
           (repeat (Py.of_string "a") 130) (map Z.of_nat (seq 0 130))).
  - intros n texts. eexists. split; [reflexivity|]. apply length_map.
  - vm_compute. reflexivity.
  - rewrite repeat_length. cbn [Indexer.db].
    unfold Indexer._get_indexed_count. cbn [filter length]. lia.
Defined.

Lemma index_pdfs_stores_every_chunk_witness :
  exists s1 : VectorStore.store,
    Indexer.index_pdfs Indexer.constant_provider [Indexer.pages_of_a 130] []
      = Some s1 /\
    Forall (fun r => In (VectorStore.doc_id r)
                        (map Indexer.path [Indexer.pages_of_a 130])) s1 /\
    forall f, In f [Indexer.pages_of_a 130] ->
      match Indexer.chunk_document f with
      | Some (Indexer.Chunks chunks page_idxs) =>
          map VectorStore.text
              (filter (fun r => Py.eqb (VectorStore.doc_id r) (Indexer.path f))
                      s1) = chunks /\
          map VectorStore.meta
              (filter (fun r => Py.eqb (VectorStore.doc_id r) (Indexer.path f))
                      s1) = Indexer.metadatas_of f page_idxs
      | _ =>
          filter (fun r => Py.eqb (VectorStore.doc_id r) (Indexer.path f)) s1
          = []
      end.
Proof.
  apply (index_pdfs_stores_every_chunk Indexer.constant_provider
           [Indexer.pages_of_a 130]).
  - intros n texts. eexists. split; [reflexivity|]. apply length_map.
  - constructor; [intros []|constructor].
Defined.

(** * The query pipeline *)

Section RetrievalFacts.

Import Py VectorStore Retrieval.

(** The hits of a search, for the statements about [answer_query]. *)
Lemma search_hits (argsort : list F32.t -> list nat) (np : Numpy.kernels) :
  sorts argsort ->
  forall (s : store) (q : list F64.t) (top_k : Z),
    shapes_agree s q = true ->
    exists hits : list hit,
      search argsort np s q top_k = Ok hits /\
      StronglySorted
        (fun h1 h2 => F32.descending (h_score h1) (h_score h2) = true) hits /\
      (0 <= top_k -> len hits = Z.min top_k (len s)).
Proof.
  intros Hsorts s q top_k Hsh.
  destruct (search_ok np argsort Hsorts s q top_k Hsh) as [out [Hs Ho]].
  exists out. split; [exact Hs|]. split.
  - apply (hits_descending np s q _ out Ho).
    destruct (truthy s); [|constructor].
    apply StronglySorted_slice. apply Hsorts.
  - intros Hk. unfold len at 1.
    rewrite <- (length_map Some out), Ho, length_map.
    destruct s as [|r s]; [unfold len; simpl; lia|]. cbn [truthy].
    fold (len (slice_to (argsort (map F32.neg (sims np (r :: s) q))) top_k)).
    rewrite slice_to_length by exact Hk. unfold len.
    rewrite (argsort_length argsort Hsorts), length_map, sims_length.
    reflexivity.
Qed.

End RetrievalFacts.

(** X15: the sources of [answer_query] come from the retrieval, not from
    the model: when the query is embedded, the table has the dimension of
    the query vector and the chat model answers, [answer_query] returns
    the model's answer together with one source per hit of [search], in
    the order of the hits (descending score), each with the source name,
    chunk index and page of the hit's metadata; for [top_k >= 0] there
    are [min(top_k, N)] of them. *)
Theorem answer_query_sources :
  forall (embed_texts : list Py.str -> option (list (list F64.t)))
         (chat_complete : list Retrieval.message -> option Py.str)
         (argsort : list F32.t -> list nat) (np : Numpy.kernels)
         (s : VectorStore.store) (query : Py.str) (top_k : Z)
         (query_vec : list F64.t) (more : list (list F64.t)),
    VectorStore.sorts argsort ->
    embed_texts [query] = Some (query_vec :: more) ->
    VectorStore.shapes_agree s query_vec = true ->
    (forall msgs, chat_complete msgs <> None) ->
    exists (hits : list VectorStore.hit) (answer : Py.str),
      VectorStore.search argsort np s query_vec top_k = Ok hits /\
      chat_complete (Retrieval.messages_for query hits) = Some answer /\
      Retrieval.answer_query embed_texts chat_complete argsort np s query
                             top_k =
        Ok (answer,
            map (fun h =>
                   {| Retrieval.s_source_name :=
                        VectorStore.source_name (VectorStore.h_meta h);
                      Retrieval.s_chunk_index :=
                        VectorStore.chunk_index (VectorStore.h_meta h);
                      Retrieval.s_score := VectorStore.h_score h;
                      Retrieval.s_page := VectorStore.page (VectorStore.h_meta h);
                      Retrieval.s_images := [] |}) hits) /\
      StronglySorted
        (fun h1 h2 =>
           F32.descending (VectorStore.h_score h1) (VectorStore.h_score h2)
           = true) hits /\
      (0 <= top_k -> Py.len hits = Z.min top_k (Py.len s)).
Proof.
  intros embed_texts chat_complete argsort np s query top_k query_vec more
         Hsorts He Hsh Hchat.
  destruct (search_hits argsort np Hsorts s query_vec top_k Hsh)
    as [hits [Hs [Hsorted Hlen]]].
  destruct (chat_complete (Retrieval.messages_for query hits))
    as [answer|] eqn:Hc; [|exfalso; exact (Hchat _ Hc)].
  exists hits, answer. split; [exact Hs|]. split; [exact Hc|].
  split; [|split; assumption].
  unfold Retrieval.answer_query. rewrite He, Hs, Hc. reflexivity.
Qed.

Lemma answer_query_sources_witness :
  exists (hits : list VectorStore.hit) (answer : Py.str),
    VectorStore.search VectorStore.argsort_stable Numpy.sequential
                       VectorStore.three_vectors
                       [F64.of_Z 1; F64.of_Z 0] 2 = Ok hits /\
    (fun _ : list Retrieval.message => Some (Py.of_string "ok"))
      (Retrieval.messages_for (Py.of_string "q") hits) = Some answer /\
    Retrieval.answer_query
      (fun _ => Some [[F64.of_Z 1; F64.of_Z 0]])
      (fun _ => Some (Py.of_string "ok"))
      VectorStore.argsort_stable Numpy.sequential VectorStore.three_vectors
      (Py.of_string "q") 2 =
      Ok (answer,
          map (fun h =>
                 {| Retrieval.s_source_name :=
                      VectorStore.source_name (VectorStore.h_meta h);
                    Retrieval.s_chunk_index :=
                      VectorStore.chunk_index (VectorStore.h_meta h);
                    Retrieval.s_score := VectorStore.h_score h;
                    Retrieval.s_page := VectorStore.page (VectorStore.h_meta h);
                    Retrieval.s_images := [] |}) hits) /\
    StronglySorted
      (fun h1 h2 =>
         F32.descending (VectorStore.h_score h1) (VectorStore.h_score h2)
         = true) hits /\
    (0 <= 2 -> Py.len hits = Z.min 2 (Py.len VectorStore.three_vectors)).
Proof.
  apply (answer_query_sources
           (fun _ => Some [[F64.of_Z 1; F64.of_Z 0]])
           (fun _ => Some (Py.of_string "ok"))
           VectorStore.argsort_stable Numpy.sequential VectorStore.three_vectors
           (Py.of_string "q") 2 [F64.of_Z 1; F64.of_Z 0] []).
  - exact argsort_stable_sorts.
  - reflexivity.
  - reflexivity.
  - intros msgs. discriminate.
Defined.

(** X16: nothing to retrieve is not an error.  On an empty table, or with
    [top_k = 0] on a table of the query's dimension, [answer_query] still
    asks the chat model, with an empty context block in the prompt, and
    returns its answer with an empty list of sources. *)
Theorem answer_query_without_hits :
  forall (embed_texts : list Py.str -> option (list (list F64.t)))
         (chat_complete : list Retrieval.message -> option Py.str)
         (argsort : list F32.t -> list nat) (np : Numpy.kernels)
         (s : VectorStore.store) (query : Py.str) (top_k : Z)
         (query_vec : list F64.t) (more : list (list F64.t)) (answer : Py.str),
    embed_texts [query] = Some (query_vec :: more) ->
    s = [] \/ (top_k = 0 /\ VectorStore.shapes_agree s query_vec = true) ->
    chat_complete
      [ {| Retrieval.role := Py.of_string "system";
           Retrieval.content := Retrieval.SYSTEM_PROMPT |};
        {| Retrieval.role := Py.of_string "user";
           Retrieval.content :=
             Py.of_string "Question:" ++ [10%N] ++ query ++ [10%N; 10%N] ++
             Py.of_string "Context:" ++ [10%N; 10%N; 10%N] ++
             Py.of_string "Answer:" |} ] = Some answer ->
    Retrieval.answer_query embed_texts chat_complete argsort np s query
                             top_k =
      Ok (answer, []).
Proof.
  intros embed_texts chat_complete argsort np s query top_k query_vec more answer
         He Hcase Hc.
  assert (Hs : VectorStore.search argsort np s query_vec top_k = Ok []).
  { destruct Hcase as [->|[-> Hsh]]; [reflexivity|].
    unfold VectorStore.search, VectorStore.all.
    destruct (Py.truthy s); simpl; [|reflexivity].
    rewrite Hsh. simpl. rewrite slice_to_zero. reflexivity. }
  unfold Retrieval.answer_query. rewrite He, Hs.
  unfold Retrieval.messages_for, Retrieval.format_context.
  cbn [flat_map Py.join app]. cbn [app] in Hc. rewrite Hc. reflexivity.
Qed.

Lemma answer_query_without_hits_witness :
  Retrieval.answer_query
    (fun _ => Some [[F64.of_Z 1; F64.of_Z 0]])
    (fun _ => Some (Py.of_string "I don't know."))
    VectorStore.argsort_stable Numpy.sequential [] (Py.of_string "q") 5 =
    Ok (Py.of_string "I don't know.", []).
Proof.
  apply (answer_query_without_hits
           (fun _ => Some [[F64.of_Z 1; F64.of_Z 0]])
           (fun _ => Some (Py.of_string "I don't know."))
           VectorStore.argsort_stable Numpy.sequential [] (Py.of_string "q") 5
           [F64.of_Z 1; F64.of_Z 0] [] (Py.of_string "I don't know.")).
  - reflexivity.
  - left. reflexivity.
  - reflexivity.
Defined.

(** * The query handler *)

Section HandlerFacts.

Import Py VectorStore Retrieval.

(** [idxs[:0]] is empty: no hit is built for [top_k = 0]. *)
Lemma search_zero (argsort : list F32.t -> list nat) (np : Numpy.kernels)
    (s : store) (q : list F64.t) :
  shapes_agree s q = true -> search argsort np s q 0 = Ok [].
Proof.
  intros Hsh. unfold search, all.
  destruct (truthy s); simpl; [|reflexivity].
  rewrite Hsh. simpl. rewrite slice_to_zero. reflexivity.
Qed.

End HandlerFacts.

(** C10, as stated, fails for a query of another dimension: the table of
    the three example vectors is not empty, and with a query of three
    components [search] raises [ValueError] even for [top_k = 0]: NumPy
    raises on [matrix @ query], before the slice. *)
Lemma search_top_k_zero_raises_on_other_dimension :
  VectorStore.three_vectors <> [] /\
  forall (argsort : list F32.t -> list nat) (np : Numpy.kernels),
    VectorStore.search argsort np VectorStore.three_vectors
                       [F64.of_Z 1; F64.of_Z 0; F64.of_Z 0] 0
    = Raise ValueError.
Proof.
  split; [discriminate|]. intros argsort np.
  apply search_raises; [discriminate|reflexivity].
Qed.

(** C10, amended: on a table whose embeddings have the query's dimension,
    empty or not, [search] with [top_k = 0] returns the empty list and
    does not raise, whatever sorts the scores; a table that is not empty
    and has another dimension makes it raise [ValueError].  The handler
    of [POST /query] hands the [top_k] of the request to [answer_query]
    as it is, whatever its sign; a request with [top_k = 0] and a query
    that is not blank is answered with the model's answer and no source,
    when the providers answer and the table has the dimension of the
    query vector. *)
Theorem search_top_k_zero :
  forall (argsort : list F32.t -> list nat) (np : Numpy.kernels),
    (forall (s : VectorStore.store) (q : list F64.t),
        VectorStore.shapes_agree s q = true ->
        VectorStore.search argsort np s q 0 = Ok []) /\
    (forall (s : VectorStore.store) (q : list F64.t),
        s <> [] ->
        VectorStore.shapes_agree s q = false ->
        VectorStore.search argsort np s q 0 = Raise ValueError) /\
    (forall (embed_texts : list Py.str -> option (list (list F64.t)))
            (chat_complete : list Retrieval.message -> option Py.str)
            (db : VectorStore.store) (p : App.payload) (text : Py.str)
            (k : Z),
        App.p_query p = Some text ->
        App.p_top_k p = Some k ->
        Py.strip text <> [] ->
        App.query embed_texts chat_complete argsort np db p =
          match Retrieval.answer_query embed_texts chat_complete argsort np
                                       db (Py.strip text) k with
          | Ok (answer, sources) => App.Json answer sources
          | Raise _ => App.HTTPException 500
          end) /\
    (forall (embed_texts : list Py.str -> option (list (list F64.t)))
            (chat_complete : list Retrieval.message -> option Py.str)
            (db : VectorStore.store) (p : App.payload) (text : Py.str)
            (query_vec : list F64.t) (more : list (list F64.t))
            (answer : Py.str),
        App.p_query p = Some text ->
        App.p_top_k p = Some 0 ->
        Py.strip text <> [] ->
        embed_texts [Py.strip text] = Some (query_vec :: more) ->
        VectorStore.shapes_agree db query_vec = true ->
        chat_complete (Retrieval.messages_for (Py.strip text) [])
        = Some answer ->
        App.query embed_texts chat_complete argsort np db p
        = App.Json answer []).
Proof.
  intros argsort np. split; [|split; [|split]].
  - intros s q. apply search_zero.
  - intros s q. apply search_raises.
  - intros embed_texts chat_complete db p text k Hq Hk Hne.
    unfold App.query. rewrite Hq, Hk.
    destruct (Py.strip text); [congruence|]. reflexivity.
  - intros embed_texts chat_complete db p text query_vec more answer
           Hq Hk Hne He Hsh Hc.
    unfold App.query. rewrite Hq, Hk.
    destruct (Py.strip text) as [|c rest] eqn:Ht; [congruence|].
    cbn [Py.truthy negb]. unfold Retrieval.answer_query.
    rewrite He, (search_zero argsort np db query_vec Hsh), Hc.
    reflexivity.
Qed.

Lemma search_top_k_zero_witness :
  VectorStore.search VectorStore.argsort_stable Numpy.sequential
                     VectorStore.three_vectors [F64.of_Z 1; F64.of_Z 0] 0
  = Ok [] /\
  App.query (fun _ => Some [[F64.of_Z 1; F64.of_Z 0]])
            (fun _ => Some (Py.of_string "I don't know."))
            VectorStore.argsort_stable Numpy.sequential
            VectorStore.three_vectors
            {| App.p_query := Some (Py.of_string " q ");
               App.p_top_k := Some 0 |}
  = App.Json (Py.of_string "I don't know.") [].
Proof.
  destruct (search_top_k_zero VectorStore.argsort_stable Numpy.sequential)
    as [Hs [_ [_ Hq]]].
  split.
  - apply Hs. reflexivity.
  - apply (Hq _ _ _ _ (Py.of_string " q ") [F64.of_Z 1; F64.of_Z 0] []);
      try reflexivity.
    vm_compute. discriminate.
Defined.


